(** * ClickUp tasks extension: task aggregation, filtering and timer reconciliation

    A shallow embedding of [src/clickupService.ts] (class [ClickUpService]) and
    of [ClickUpTasksProvider.updateTask], together with the properties of the
    walk, the paginator, the two-stage filter and the local timer registry.

    Conventions of the embedding.
    - Strings are [string] (sequences of 8-bit characters); [toLowerCase] and
      [trim] are the ASCII fragments of the JavaScript functions.
    - A value of TypeScript type [string | number] is a [JsValue]; numbers are
      integers ([Z]), printed in decimal by [String(..)].
    - [undefined]/[null] are [None].
    - The remote service, the network and the clock form an abstract
      environment: a state type [W], a transition [http] answering one
      request, and [dateNow] reading [Date.now()].
    - Asynchronous methods are functions in a state-and-exception monad [M];
      an [await] is a bind.  Recursion and [while] loops take fuel, and run
      out of it with the outcome [Diverge], which no [catch] intercepts.
    - The [Map] of timers is a [gmap string Z]; [Array.from(keys())] is
      enumerated in the order of [elements (dom _)], which may list the keys
      in another order than JavaScript's insertion order (only the order of
      the log lines of purged timers depends on it). *)

From Stdlib Require Import ZArith String Ascii List Bool Lia.
From stdpp Require Import base option list gmap strings pretty.

Local Open Scope string_scope.
Local Open Scope Z_scope.
Local Open Scope list_scope.

(** ** JavaScript primitives *)

Module Js.

(** [c.toLowerCase()] on one ASCII character. *)
Definition lowerChar (c : ascii) : ascii :=
  let n := nat_of_ascii c in
  if ((65 <=? n)%nat && (n <=? 90)%nat)%bool then ascii_of_nat (n + 32) else c.

(** [s.toLowerCase()]. *)
Fixpoint toLowerCase (s : string) : string :=
  match s with
  | EmptyString => EmptyString
  | String c r => String (lowerChar c) (toLowerCase r)
  end.

(** WhiteSpace and LineTerminator code points below 128:
    TAB, LF, VT, FF, CR, SP. *)
Definition isWhiteSpace (c : ascii) : bool :=
  let n := nat_of_ascii c in
  ((9 <=? n)%nat && (n <=? 13)%nat || (n =? 32)%nat)%bool.

Fixpoint trimStart (s : string) : string :=
  match s with
  | EmptyString => EmptyString
  | String c r => if isWhiteSpace c then trimStart r else s
  end.

Fixpoint trimEnd (s : string) : string :=
  match s with
  | EmptyString => EmptyString
  | String c r =>
      match trimEnd r with
      | EmptyString => if isWhiteSpace c then EmptyString else String c EmptyString
      | r' => String c r'
      end
  end.

(** [s.trim()]. *)
Definition trim (s : string) : string := trimEnd (trimStart s).

(** [s.includes(sub)]. *)
Fixpoint includes (s sub : string) : bool :=
  String.prefix sub s ||
  match s with
  | EmptyString => false
  | String _ r => includes r sub
  end.

(** [arr.includes(x)] on an array of strings. *)
Definition arrayIncludes (arr : list string) (x : string) : bool :=
  existsb (String.eqb x) arr.

(** Digits of [parseInt(s, 10)]. *)
Definition digitOf (c : ascii) : option Z :=
  let n := nat_of_ascii c in
  if ((48 <=? n)%nat && (n <=? 57)%nat)%bool then Some (Z.of_nat (n - 48)) else None.

Fixpoint parseDigits (s : string) (acc : option Z) : option Z :=
  match s with
  | EmptyString => acc
  | String c r =>
      match digitOf c with
      | Some d => parseDigits r (Some (10 * default 0 acc + d))
      | None => acc
      end
  end.

(** [parseInt(s, 10)]; [None] is [NaN]. *)
Definition parseInt (s : string) : option Z :=
  match trimStart s with
  | String "-" r => Z.opp <$> parseDigits r None
  | String "+" r => parseDigits r None
  | r => parseDigits r None
  end.

End Js.

(** A value of type [string | number]. *)
Inductive JsValue : Type :=
| JStr (s : string)
| JNum (n : Z).

(** Truthiness: the empty string and [0] are falsy, like [undefined]. *)
Definition truthy (v : option JsValue) : bool :=
  match v with
  | Some (JStr s) => negb (String.eqb s "")
  | Some (JNum n) => negb (n =? 0)
  | None => false
  end.

(** [a || b]. *)
Definition jsOr (a b : option JsValue) : option JsValue :=
  if truthy a then a else b.

(** [String(v)]. *)
Definition jsString (v : option JsValue) : string :=
  match v with
  | Some (JStr s) => s
  | Some (JNum n) => pretty n
  | None => "undefined"
  end.

(** Truthiness of a string. *)
Definition nonEmpty (s : string) : bool := negb (String.eqb s "").

(** [a || b] on strings that may be absent. *)
Definition strOr (a : option string) (b : string) : string :=
  match a with
  | Some s => if nonEmpty s then s else b
  | None => b
  end.


(** ** Data model *)

(** [{ id, name }]: a team, space, folder or list as the hierarchy
    endpoints return it, and the [list]/[space] reference of a task. *)
Module Ref.
Record t : Type := mk { id : string; name : string }.
End Ref.

(** An object of which only [id] is read, possibly absent:
    [assignee.user] and [timeEntry.task]. *)
Module IdRef.
Record t : Type := mk { id : option JsValue }.
End IdRef.

Module Status.
Record obj : Type := mk {
  status : string;
  color : string;
  type : option string;
  orderindex : option Z
}.
(** [task.status] is declared an object; the filter also accepts a plain
    string and a missing field. *)
Inductive t : Type :=
| Object (o : obj)
| Plain (s : string)
| Absent.
End Status.

Module Priority.
Record t : Type := mk { priority : string; color : string }.
End Priority.

Module Assignee.
Record t : Type := mk {
  id : option JsValue;
  username : option string;
  user : option IdRef.t;
  user_id : option JsValue
}.
End Assignee.

(** A task as the remote service returns it. *)
Module ApiTask.
Record fields : Type := mkFields {
  id : string;
  name : string;
  status : Status.t;
  url : string;
  assignees : option (Datatypes.list Assignee.t);
  due_date : option string;
  priority : option Priority.t;
  time_spent : option JsValue;
  time_estimate : option Z;
  space : option Ref.t;
  list : option Ref.t
}.
(** One level of nested sub-items; deeper levels are never read. *)
Record t : Type := mk {
  own : fields;
  subtasks : option (Datatypes.list fields)
}.
End ApiTask.

(** [interface ClickUpTask]. *)
Module ClickUpTask.
Record t : Type := mk {
  id : string;
  name : string;
  status : Status.t;
  url : string;
  assignees : option (Datatypes.list Assignee.t);
  due_date : option string;
  priority : option Priority.t;
  time_estimate : option Z;
  timeTracked : option Z;
  isCurrentlyTracked : option bool;
  space : option Ref.t;
  list : option Ref.t
}.

Definition set_isCurrentlyTracked (b : option bool) (x : t) : t :=
  mk (id x) (name x) (status x) (url x) (assignees x) (due_date x)
     (priority x) (time_estimate x) (timeTracked x) b (space x) (list x).

Definition set_space (s : option Ref.t) (x : t) : t :=
  mk (id x) (name x) (status x) (url x) (assignees x) (due_date x)
     (priority x) (time_estimate x) (timeTracked x) (isCurrentlyTracked x)
     s (list x).

Definition set_list (l : option Ref.t) (x : t) : t :=
  mk (id x) (name x) (status x) (url x) (assignees x) (due_date x)
     (priority x) (time_estimate x) (timeTracked x) (isCurrentlyTracked x)
     (space x) l.
End ClickUpTask.

(** The body of [GET /team/{id}/time_entries/current]: the entry is either
    under [data] or the body itself. *)
Module TimeEntry.
Record t : Type := mk {
  task : option IdRef.t;
  task_id : option JsValue;
  taskId : option JsValue
}.
Record body : Type := mkBody {
  data : option t;
  self : t
}.
End TimeEntry.

(** A thrown value: an [Error], or an axios error, which carries a
    [response] when the server answered with a status outside 2xx. *)
Module JsError.
Record response_t : Type := mkResponse {
  status : Z;
  err : option string            (* [error.response.data?.err] *)
}.
Record t : Type := mk {
  name : string;
  message : string;
  response : option response_t
}.
End JsError.

(** [new Error(msg)]. *)
Definition newError (msg : string) : JsError.t :=
  JsError.mk "Error" msg None.

(** [`${error}`]. *)
Definition errorToString (e : JsError.t) : string :=
  JsError.name e +:+ ": " +:+ JsError.message e.

(** [error.response.data?.err || error.message], under [error.response]. *)
Definition errorMessageOf (e : JsError.t) (r : JsError.response_t) : string :=
  strOr (JsError.err r) (JsError.message e).

(** The settings [clickupTasks.*] and the environment variables read by
    [getApiClient]. *)
Record Config : Type := mkConfig {
  apiToken : string;
  env_CLICKUP_API_KEY : option string;
  env_CLICKUP_API_TOKEN : option string;
  teamId : string;
  inProgressStatuses : option (list string)
}.

(** The requests the service issues.  A task listing always carries
    [include_closed=true], [subtasks=true], [include_timl=true], the page
    number and, when given, [assignees[]]. *)
Inductive Request : Type :=
| GetUser
| GetTeams
| GetSpaces (team : string)
| GetFolders (space : string)
| GetFolderLists (folder : string)
| GetSpaceLists (space : string)
| GetListTasks (listId : string) (page : nat) (assignee : option string)
| GetTask (taskId : string)
| GetCurrentTimeEntry (team : string)
| PostStartTimer (team : string) (tid : string)
| PostStopTimer (team : string).

(** What the code reads of a 2xx response to each request. *)
Definition payload (r : Request) : Type :=
  match r with
  | GetUser => option JsValue                       (* data.user.id *)
  | GetTeams => option (list Ref.t)                 (* data.teams *)
  | GetSpaces _ => option (list Ref.t)              (* data.spaces *)
  | GetFolders _ => option (list Ref.t)             (* data.folders *)
  | GetFolderLists _ => option (list Ref.t)         (* data.lists *)
  | GetSpaceLists _ => option (list Ref.t)          (* data.lists *)
  | GetListTasks _ _ _ => option (list ApiTask.t)   (* data.tasks *)
  | GetTask _ => ApiTask.fields                     (* data *)
  | GetCurrentTimeEntry _ => option TimeEntry.body  (* data *)
  | PostStartTimer _ _ => unit
  | PostStopTimer _ => unit
  end.

Global Instance Request_eq_dec : EqDecision Request.
Proof. solve_decision. Defined.

(** The outcome of running a method. *)
Inductive Outcome (A : Type) : Type :=
| Return (a : A)
| Throw (e : JsError.t)
| Diverge.
Arguments Return {A} a.
Arguments Throw {A} e.
Arguments Diverge {A}.

(** ** The service state and the monad of its methods *)

(** The fields of [ClickUpService], the environment, and two ghost fields:
    the requests issued so far (oldest first) and the lines written by
    [this.log] and [console.error]. *)
Record State (W : Type) : Type := mkState {
  env : W;
  requests : list Request;
  apiClient : option string;        (* the [Authorization] header of the cached client *)
  currentUserId : option string;
  internalTimerStartTimes : gmap string Z;
  logged : list string;
  consoleErrors : list string
}.
Arguments mkState {W}.
Arguments env {W}.
Arguments requests {W}.
Arguments apiClient {W}.
Arguments currentUserId {W}.
Arguments internalTimerStartTimes {W}.
Arguments logged {W}.
Arguments consoleErrors {W}.

Definition initialState {W : Type} (e : W) : State W :=
  mkState e [] None None ∅ [] [].

Definition M (W A : Type) : Type := State W → Outcome A * State W.

Definition ret {W A} (a : A) : M W A := λ st, (Return a, st).

Definition bind {W A B} (m : M W A) (k : A → M W B) : M W B :=
  λ st,
    match m st with
    | (Return a, st') => k a st'
    | (Throw e, st') => (Throw e, st')
    | (Diverge, st') => (Diverge, st')
    end.

Definition throw {W A} (e : JsError.t) : M W A := λ st, (Throw e, st).

Definition diverge {W A} : M W A := λ st, (Diverge, st).

(** [try { m }] with the exception, if any, reified. *)
Definition attempt {W A} (m : M W A) : M W (JsError.t + A) :=
  λ st,
    match m st with
    | (Return a, st') => (Return (inr a), st')
    | (Throw e, st') => (Return (inl e), st')
    | (Diverge, st') => (Diverge, st')
    end.

(** [try { m } catch (error) { h error }]. *)
Definition tryCatch {W A} (m : M W A) (h : JsError.t → M W A) : M W A :=
  bind (attempt m) (λ r, match r with inl e => h e | inr a => ret a end).

Definition gets {W A} (f : State W → A) : M W A := λ st, (Return (f st), st).

Definition modify {W} (f : State W → State W) : M W unit := λ st, (Return tt, f st).

Declare Scope js_scope.
Delimit Scope js_scope with js.
Notation "'let*' x ':=' m 'in' k" := (bind m (λ x, k))
  (at level 10, x binder, m at level 100, k at level 200) : js_scope.
Notation "m ';;' k" := (bind m (λ _, k))
  (at level 100, k at level 200, right associativity) : js_scope.
Local Open Scope js_scope.

(** [for (const x of xs) { body x }] and [xs.forEach(body)]. *)
Fixpoint forEach {W A} (xs : list A) (body : A → M W unit) : M W unit :=
  match xs with
  | [] => ret tt
  | x :: rest => body x ;; forEach rest body
  end.

(** A loop over an array that rebuilds each element. *)
Fixpoint forEachMap {W A B} (xs : list A) (body : A → M W B) : M W (list B) :=
  match xs with
  | [] => ret []
  | x :: rest =>
      let* y := body x in
      let* ys := forEachMap rest body in
      ret (y :: ys)
  end.

Definition set_env {W} (e : W) (r : Request) (st : State W) : State W :=
  mkState e (requests st ++ [r]) (apiClient st) (currentUserId st)
          (internalTimerStartTimes st) (logged st) (consoleErrors st).

Definition set_client {W} (tok : string) (st : State W) : State W :=
  mkState (env st) (requests st) (Some tok) None
          (internalTimerStartTimes st) (logged st) (consoleErrors st).

Definition set_currentUserId {W} (u : string) (st : State W) : State W :=
  mkState (env st) (requests st) (apiClient st) (Some u)
          (internalTimerStartTimes st) (logged st) (consoleErrors st).

Definition set_timers {W} (f : gmap string Z → gmap string Z) (st : State W) : State W :=
  mkState (env st) (requests st) (apiClient st) (currentUserId st)
          (f (internalTimerStartTimes st)) (logged st) (consoleErrors st).

Definition add_log {W} (msg : string) (st : State W) : State W :=
  mkState (env st) (requests st) (apiClient st) (currentUserId st)
          (internalTimerStartTimes st) (logged st ++ [msg]) (consoleErrors st).

Definition add_consoleError {W} (msg : string) (st : State W) : State W :=
  mkState (env st) (requests st) (apiClient st) (currentUserId st)
          (internalTimerStartTimes st) (logged st) (consoleErrors st ++ [msg]).

(** [this.log(message)]. *)
Definition log {W} (msg : string) : M W unit := modify (add_log msg).

(** [console.error(message, error)]. *)
Definition consoleError {W} (msg : string) : M W unit := modify (add_consoleError msg).

(** ** [class ClickUpService] *)

Definition notConfigured : JsError.t :=
  newError "ClickUp API token not configured. Please configure it in settings.".

Definition noTeams : JsError.t :=
  newError "No teams found in your ClickUp account".

Definition defaultStatuses : list string :=
  ["in progress"; "active"; "working"; "in-progress"].

Definition pageSize : nat := 100.

(** [parseInt(x, 10) || 0] for a string, [Number(x) || 0] otherwise, and [0]
    when [time_spent] is absent. *)
Definition parseTimeSpent (v : option JsValue) : Z :=
  match v with
  | None => 0
  | Some (JStr s) => default 0 (Js.parseInt s)
  | Some (JNum n) => n
  end.

(** [{ ...task, space: { id: space.id, name: space.name }, timeTracked }]. *)
Definition stamp (space : Ref.t) (task : ApiTask.fields) : ClickUpTask.t :=
  ClickUpTask.mk (ApiTask.id task) (ApiTask.name task) (ApiTask.status task)
    (ApiTask.url task) (ApiTask.assignees task) (ApiTask.due_date task)
    (ApiTask.priority task) (ApiTask.time_estimate task)
    (Some (parseTimeSpent (ApiTask.time_spent task))) None
    (Some (Ref.mk (Ref.id space) (Ref.name space))) (ApiTask.list task).

(** The inner loop of [getTasksFromList] over [task.subtasks]; the pair is
    [processedTaskIds] and [processedTasks]. *)
Fixpoint processSubtasks (space : Ref.t) (subtasks : list ApiTask.fields)
    (acc : gset string * list ClickUpTask.t) : gset string * list ClickUpTask.t :=
  match subtasks with
  | [] => acc
  | subtask :: rest =>
      let '(processedTaskIds, processedTasks) := acc in
      if decide (ApiTask.id subtask ∈ processedTaskIds)
      then processSubtasks space rest acc
      else processSubtasks space rest
             ({[ApiTask.id subtask]} ∪ processedTaskIds,
              processedTasks ++ [stamp space subtask])
  end.

(** The loop of [getTasksFromList] over [allTasks]. *)
Fixpoint processTasks (space : Ref.t) (allTasks : list ApiTask.t)
    (acc : gset string * list ClickUpTask.t) : gset string * list ClickUpTask.t :=
  match allTasks with
  | [] => acc
  | task :: rest =>
      let '(processedTaskIds, processedTasks) := acc in
      let acc1 :=
        if decide (ApiTask.id (ApiTask.own task) ∈ processedTaskIds)
        then acc
        else ({[ApiTask.id (ApiTask.own task)]} ∪ processedTaskIds,
              processedTasks ++ [stamp space (ApiTask.own task)]) in
      let acc2 :=
        match ApiTask.subtasks task with
        | Some subtasks => processSubtasks space subtasks acc1
        | None => acc1
        end in
      processTasks space rest acc2
  end.

(** [String(assignee.id || assignee.user?.id || assignee.user_id || '')]. *)
Definition normalizeAssignee (assignee : Assignee.t) : string :=
  jsString
    (jsOr (jsOr (jsOr (Assignee.id assignee)
                      (match Assignee.user assignee with
                       | Some u => IdRef.id u
                       | None => None
                       end))
                (Assignee.user_id assignee))
          (Some (JStr ""))).

(** [task.assignees?.map(..) || []]. *)
Definition assigneeIds (task : ClickUpTask.t) : list string :=
  match ClickUpTask.assignees task with
  | Some l => map normalizeAssignee l
  | None => []
  end.

Definition isAssignedToMe (currentUserId : string) (task : ClickUpTask.t) : bool :=
  existsb (λ assigneeId, String.eqb assigneeId currentUserId) (assigneeIds task).

(** [String(task.status?.status || task.status || '')]. *)
Definition statusValue (s : Status.t) : string :=
  match s with
  | Status.Object o =>
      if nonEmpty (Status.status o) then Status.status o else "[object Object]"
  | Status.Plain s => if nonEmpty s then s else ""
  | Status.Absent => ""
  end.

(** The status test of the filter. *)
Definition statusMatches (inProgress : list string) (task : ClickUpTask.t) : bool :=
  let status := Js.trim (Js.toLowerCase (statusValue (ClickUpTask.status task))) in
  Js.arrayIncludes inProgress status.

(** The callback of [tasks.filter(..)]. *)
Definition taskFilter (currentUserId : string) (inProgress : list string)
    (task : ClickUpTask.t) : bool :=
  if negb (isAssignedToMe currentUserId task) then false
  else statusMatches inProgress task.

(** [config.get('inProgressStatuses', [...]).map(s => s.toLowerCase())]. *)
Definition configuredStatuses (cfg : Config) : list string :=
  map Js.toLowerCase (default defaultStatuses (inProgressStatuses cfg)).

(** The token [getApiClient] settles on: the setting, else the environment. *)
Definition configuredToken (cfg : Config) : string :=
  if nonEmpty (apiToken cfg) then apiToken cfg
  else strOr (env_CLICKUP_API_KEY cfg) (strOr (env_CLICKUP_API_TOKEN cfg) "").

(** [teamId || teams[0].id]. *)
Definition targetTeam (cfg : Config) (team0 : Ref.t) : string :=
  if nonEmpty (teamId cfg) then teamId cfg else Ref.id team0.

(** A string that may be absent, as a condition: [Some] when truthy. *)
Definition someNonEmpty (o : option string) : option string :=
  match o with
  | Some i => if nonEmpty i then Some i else None
  | None => None
  end.

(** What [getCurrentTimeEntryTaskId] reads in a 2xx answer:
    [timeEntry = response.data?.data || response.data], then
    [timeEntry.task?.id || timeEntry.task_id || timeEntry.taskId], returned
    as a string when truthy. *)
Definition entryTaskId (body : option TimeEntry.body) : option string :=
  let timeEntry :=
    match body with
    | Some b => Some (match TimeEntry.data b with
                      | Some e => e
                      | None => TimeEntry.self b
                      end)
    | None => None
    end in
  match timeEntry with
  | Some e =>
      let taskId :=
        jsOr (jsOr (match TimeEntry.task e with
                    | Some t => IdRef.id t
                    | None => None
                    end)
                   (TimeEntry.task_id e))
             (TimeEntry.taskId e) in
      if truthy taskId then Some (jsString taskId) else None
  | None => None
  end.

(** The remote service and the network, as the methods see them: the answer
    to a request sent with a given [Authorization] header, and the next
    environment. *)
Definition Remote (W : Type) : Type :=
  string → ∀ r : Request, W → (JsError.t + payload r) * W.

(** ** [class ClickUpTasksProvider] *)

(** The fields of the tree provider that [refresh] and [updateTask] touch:
    the snapshot, the loading flag, and two ghost counters, of the
    [_onDidChangeTreeData.fire()] calls and of the full fetches started by
    [refresh] whose promise has not settled yet; [shown] holds the error
    messages displayed. *)
Module Provider.
Record t : Type := mk {
  tasks : list ClickUpTask.t;
  loading : bool;
  fired : nat;
  refreshesInFlight : nat;
  shown : list string
}.
End Provider.

Section Service.
Context {W : Type}.
(** The remote service and the network: the answer to a request sent with
    the given [Authorization] header, and the next environment. *)
Variable http : string → ∀ r : Request, W → (JsError.t + payload r) * W.
(** [Date.now()]. *)
Variable dateNow : W → Z.
Variable cfg : Config.

Local Abbreviation M := (M W).

(** [await client.get(..)], [await client.post(..)]. *)
Definition request (client : string) (r : Request) : M (payload r) :=
  λ st,
    let '(res, e') := http client r (env st) in
    match res with
    | inl error => (Throw error, set_env e' r st)
    | inr v => (Return v, set_env e' r st)
    end.

Definition now : M Z := gets (λ st, dateNow (env st)).

Definition getApiClient : M (option string) :=
  let apiToken := configuredToken cfg in
  if negb (nonEmpty apiToken) then ret None
  else
    let* cached := gets apiClient in
    match cached with
    | Some tok =>
        if String.eqb tok apiToken then ret (Some tok)
        else modify (set_client apiToken) ;; ret (Some apiToken)
    | None => modify (set_client apiToken) ;; ret (Some apiToken)
    end.

Definition getCurrentUserId (client : string) : M string :=
  let* cached := gets currentUserId in
  match someNonEmpty cached with
  | Some u => ret u
  | None =>
      tryCatch
        (let* userId := request client GetUser in
         modify (set_currentUserId (jsString userId)) ;;
         ret (jsString userId))
        (λ error,
           throw (newError ("Failed to get current user: " +:+
             match JsError.response error with
             | Some r => errorMessageOf error r
             | None => JsError.message error
             end)))
  end.

Definition getCurrentTimeEntryTaskId (client teamId : string) : M (option string) :=
  tryCatch
    (let* body := request client (GetCurrentTimeEntry teamId) in
     ret (entryTaskId body))
    (λ error,
       match JsError.response error with
       | Some r =>
           if (JsError.status r =? 404) || (JsError.status r =? 400) then ret None
           else log ("Warning: Could not get current time entry: " +:+ JsError.message error) ;;
                ret None
       | None =>
           log ("Warning: Could not get current time entry: " +:+ JsError.message error) ;;
           ret None
       end).

Definition stopTimeTracking : M (option string) :=
  let* client := getApiClient in
  match client with
  | None => throw notConfigured
  | Some client =>
      tryCatch
        (let* teams := request client GetTeams in
         match teams with
         | None | Some [] => throw noTeams
         | Some (team0 :: _) =>
             let targetTeamId := targetTeam cfg team0 in
             let* currentlyTrackedTaskId := getCurrentTimeEntryTaskId client targetTeamId in
             request client (PostStopTimer targetTeamId) ;;
             (match someNonEmpty currentlyTrackedTaskId with
              | Some tracked =>
                  modify (set_timers (delete tracked)) ;;
                  log ("Stopped and cleared internal timer for task " +:+ tracked +:+
                       " (time_spent updated in ClickUp)")
              | None =>
                  let* timers := gets internalTimerStartTimes in
                  if (0 <? size timers)%nat then
                    modify (set_timers (λ _, ∅)) ;;
                    log "Stopped and cleared all internal timers (could not determine tracked task, time_spent updated)"
                  else ret tt
              end) ;;
             log "Stopped time tracking" ;;
             ret currentlyTrackedTaskId
         end)
        (λ error,
           match JsError.response error with
           | Some r =>
               let errorMessage := errorMessageOf error r in
               if (JsError.status r =? 400) || (JsError.status r =? 404) then
                 log "No timer running to stop" ;; ret None
               else throw (newError ("Failed to stop time tracking: " +:+ errorMessage))
           | None => throw error
           end)
  end.

Fixpoint startTimeTracking (fuel : nat) (taskId : string) : M unit :=
  match fuel with
  | O => diverge
  | S fuel' =>
      let* client := getApiClient in
      match client with
      | None => throw notConfigured
      | Some client =>
          tryCatch
            (let* teams := request client GetTeams in
             match teams with
             | None | Some [] => throw noTeams
             | Some (team0 :: _) =>
                 let targetTeamId := targetTeam cfg team0 in
                 request client (PostStartTimer targetTeamId taskId) ;;
                 let* t := now in
                 modify (set_timers (insert taskId t)) ;;
                 log ("Started time tracking for task " +:+ taskId)
             end)
            (λ error,
               match JsError.response error with
               | Some r =>
                   let errorMessage := errorMessageOf error r in
                   if (JsError.status r =? 400) && Js.includes errorMessage "already running"
                   then
                     log "Timer already running, stopping current timer first..." ;;
                     stopTimeTracking ;;
                     startTimeTracking fuel' taskId
                   else throw (newError ("Failed to start time tracking: " +:+ errorMessage))
               | None => throw error
               end)
      end
  end.

Definition getTask (taskId : string) : M (option ClickUpTask.t) :=
  let* client := getApiClient in
  match client with
  | None => throw notConfigured
  | Some client =>
      tryCatch
        (let* task := request client (GetTask taskId) in
         let timeTracked := parseTimeSpent (ApiTask.time_spent task) in
         let spaceInfo :=
           match ApiTask.space task with
           | Some s => Some (Ref.mk (Ref.id s) (Ref.name s))
           | None => None
           end in
         ret (Some (ClickUpTask.mk (ApiTask.id task) (ApiTask.name task)
                      (ApiTask.status task) (ApiTask.url task)
                      (ApiTask.assignees task) (ApiTask.due_date task)
                      (ApiTask.priority task) (ApiTask.time_estimate task)
                      (Some timeTracked) None spaceInfo (ApiTask.list task))))
        (λ error,
           match JsError.response error with
           | Some r =>
               if JsError.status r =? 404 then
                 log ("Task " +:+ taskId +:+ " not found") ;; ret None
               else throw error
           | None => throw error
           end)
  end.

(** The [while (hasMore)] loop of [getTasksFromList]; one unit of fuel per
    iteration. *)
Fixpoint fetchPages (fuel : nat) (client listId : string) (assignee : option string)
    (page : nat) (allTasks : list ApiTask.t) : M (list ApiTask.t) :=
  match fuel with
  | O => diverge
  | S fuel' =>
      let* tasksField := request client (GetListTasks listId page assignee) in
      let tasks := default [] tasksField in
      let allTasks := allTasks ++ tasks in
      let hasMore := (length tasks =? pageSize)%nat in
      let page := (page + 1)%nat in
      if (100 <? page)%nat then
        log ("WARNING: Reached pagination limit for list " +:+ listId) ;;
        ret allTasks
      else if hasMore then fetchPages fuel' client listId assignee page allTasks
      else ret allTasks
  end.

Definition getTasksFromList (fuel : nat) (client listId : string) (space : Ref.t)
    (assigneeId : option string) : M (list ClickUpTask.t) :=
  tryCatch
    (let* allTasks := fetchPages fuel client listId (someNonEmpty assigneeId) 0 [] in
     ret (snd (processTasks space allTasks (∅, []))))
    (λ error,
       log ("Error fetching tasks from list " +:+ listId +:+ ": " +:+ errorToString error) ;;
       ret []).

(** [for (const list of lists) { tasks.push(...await getTasksFromList(..)) }]. *)
Fixpoint walkLists (fuel : nat) (client : string) (lists : list Ref.t) (space : Ref.t)
    (currentUserId : string) (tasks : list ClickUpTask.t) : M (list ClickUpTask.t) :=
  match lists with
  | [] => ret tasks
  | l :: rest =>
      let* listTasks := getTasksFromList fuel client (Ref.id l) space (Some currentUserId) in
      walkLists fuel client rest space currentUserId (tasks ++ listTasks)
  end.

(** [for (const folder of folders) { .. }].  [tasks] is an array shared with
    the enclosing scope, so what was pushed before an exception stays: the
    loop returns the array together with the exception that ended it. *)
Fixpoint walkFolders (fuel : nat) (client : string) (folders : list Ref.t) (space : Ref.t)
    (currentUserId : string) (tasks : list ClickUpTask.t)
    : M (list ClickUpTask.t * option JsError.t) :=
  match folders with
  | [] => ret (tasks, None)
  | folder :: rest =>
      let* r := attempt (request client (GetFolderLists (Ref.id folder))) in
      match r with
      | inl error => ret (tasks, Some error)
      | inr lists =>
          let* tasks := walkLists fuel client (default [] lists) space currentUserId tasks in
          walkFolders fuel client rest space currentUserId tasks
      end
  end.

Definition spaceError (space : Ref.t) (error : JsError.t) : string :=
  "Error fetching tasks from space " +:+ Ref.id space +:+ ": " +:+ errorToString error.

(** The body of [for (const space of spaces)]: a [try] around the folders,
    their lists and the lists directly in the space. *)
Definition walkSpace (fuel : nat) (client : string) (space : Ref.t)
    (currentUserId : string) (tasks : list ClickUpTask.t) : M (list ClickUpTask.t) :=
  let* r := attempt (request client (GetFolders (Ref.id space))) in
  match r with
  | inl error => consoleError (spaceError space error) ;; ret tasks
  | inr folders =>
      let* '(tasks, thrown) :=
        walkFolders fuel client (default [] folders) space currentUserId tasks in
      match thrown with
      | Some error => consoleError (spaceError space error) ;; ret tasks
      | None =>
          let* r := attempt (request client (GetSpaceLists (Ref.id space))) in
          match r with
          | inl error => consoleError (spaceError space error) ;; ret tasks
          | inr spaceLists =>
              walkLists fuel client (default [] spaceLists) space currentUserId tasks
          end
      end
  end.

Fixpoint walkSpaces (fuel : nat) (client : string) (spaces : list Ref.t)
    (currentUserId : string) (tasks : list ClickUpTask.t) : M (list ClickUpTask.t) :=
  match spaces with
  | [] => ret tasks
  | space :: rest =>
      let* tasks := walkSpace fuel client space currentUserId tasks in
      walkSpaces fuel client rest currentUserId tasks
  end.

(** The body of [filteredTasks.forEach(task => ..)] under a tracked id. *)
Definition markTracked (tracked : string) (task : ClickUpTask.t) : M ClickUpTask.t :=
  let isTracked := String.eqb (ClickUpTask.id task) tracked in
  let task' := ClickUpTask.set_isCurrentlyTracked (Some isTracked) task in
  let* timers := gets internalTimerStartTimes in
  (if isTracked && negb (bool_decide (is_Some (timers !! ClickUpTask.id task)))
   then
     let* t := now in
     modify (set_timers (insert (ClickUpTask.id task) t)) ;;
     log ("Synced internal timer for task " +:+ ClickUpTask.id task +:+ " (started externally)")
   else ret tt) ;;
  ret task'.

(** "Mark which task is currently being tracked": the reconciliation of the
    timers with the remote current timer, at the end of
    [getInProgressTasks]. *)
Definition reconcileTimers (currentlyTrackedTaskId : option string)
    (filteredTasks : list ClickUpTask.t) : M (list ClickUpTask.t) :=
  match someNonEmpty currentlyTrackedTaskId with
  | Some tracked =>
      let* timers := gets internalTimerStartTimes in
      let previousTrackedTasks :=
        List.filter (λ id, negb (String.eqb id tracked)) (elements (dom timers)) in
      forEach previousTrackedTasks (λ prevTaskId,
        modify (set_timers (delete prevTaskId)) ;;
        log ("Cleared internal timer for previous task " +:+ prevTaskId +:+
             " (tracking switched to " +:+ tracked +:+ ", time_spent updated)")) ;;
      forEachMap filteredTasks (markTracked tracked)
  | None =>
      let* timers := gets internalTimerStartTimes in
      (if (0 <? size timers)%nat then
         modify (set_timers (λ _, ∅)) ;;
         log "Cleared all internal timers (no task currently tracked, time_spent updated)"
       else ret tt) ;;
      ret filteredTasks
  end.

Definition getInProgressTasks (fuel : nat) : M (list ClickUpTask.t) :=
  let* client := getApiClient in
  match client with
  | None => throw notConfigured
  | Some client =>
      tryCatch
        (let* teams := request client GetTeams in
         match teams with
         | None | Some [] => throw noTeams
         | Some (team0 :: _) =>
             let targetTeamId := targetTeam cfg team0 in
             let* currentUserId := getCurrentUserId client in
             log ("Current user ID: " +:+ currentUserId +:+ " (type: string)") ;;
             let* currentlyTrackedTaskId := getCurrentTimeEntryTaskId client targetTeamId in
             (match someNonEmpty currentlyTrackedTaskId with
              | Some tracked => log ("Currently tracked task ID: " +:+ tracked)
              | None => ret tt
              end) ;;
             let inProgressStatuses := configuredStatuses cfg in
             log ("Looking for statuses: [" +:+ String.concat ", " inProgressStatuses +:+ "]") ;;
             let* spaces := request client (GetSpaces targetTeamId) in
             let* tasks := walkSpaces fuel client (default [] spaces) currentUserId [] in
             let filteredTasks := List.filter (taskFilter currentUserId inProgressStatuses) tasks in
             reconcileTimers currentlyTrackedTaskId filteredTasks
         end)
        (λ error,
           match JsError.response error with
           | Some r =>
               if JsError.status r =? 401 then
                 throw (newError "Invalid ClickUp API token. Please check your configuration.")
               else throw (newError ("ClickUp API error: " +:+ errorMessageOf error r))
           | None => throw error
           end)
  end.

(** [Date.now() - startTime], or [0] without a (truthy) start time. *)
Definition getInternalTimerElapsed (taskId : string) : M Z :=
  let* timers := gets internalTimerStartTimes in
  match timers !! taskId with
  | Some startTime =>
      if startTime =? 0 then ret 0
      else let* t := now in ret (t - startTime)
  | None => ret 0
  end.

Definition isInternallyTracked (taskId : string) : M bool :=
  let* timers := gets internalTimerStartTimes in
  ret (bool_decide (is_Some (timers !! taskId))).

Definition clearInternalTimer (taskId : string) : M unit :=
  modify (set_timers (delete taskId)).

(** The synchronous part of [refresh()]: the flag, the event, and the call of
    [getInProgressTasks], whose promise is left pending. *)
Definition refresh (p : Provider.t) : Provider.t :=
  Provider.mk (Provider.tasks p) true (Provider.fired p + 1)
              (Provider.refreshesInFlight p + 1) (Provider.shown p).

(** The [.then]/[.catch] of [refresh()], when the pending fetch runs. *)
Definition settleRefresh (fuel : nat) (p : Provider.t) : M Provider.t :=
  let* r := attempt (getInProgressTasks fuel) in
  match r with
  | inr tasks =>
      ret (Provider.mk tasks false (Provider.fired p + 1)
             (Provider.refreshesInFlight p - 1) (Provider.shown p))
  | inl error =>
      consoleError ("ClickUpTasksProvider: Error loading tasks " +:+ errorToString error) ;;
      ret (Provider.mk (Provider.tasks p) false (Provider.fired p + 1)
             (Provider.refreshesInFlight p - 1)
             (Provider.shown p ++
                ["Failed to load ClickUp tasks: " +:+ JsError.message error]))
  end.

(** What [updateTask] stores at [taskIndex]. *)
Definition mergeTask (existingTask updatedTask : ClickUpTask.t) (tracked : bool)
    : ClickUpTask.t :=
  let updatedTask := ClickUpTask.set_list (ClickUpTask.list existingTask) updatedTask in
  let updatedTask :=
    match ClickUpTask.space existingTask, ClickUpTask.space updatedTask with
    | Some s, None => ClickUpTask.set_space (Some s) updatedTask
    | _, _ => updatedTask
    end in
  ClickUpTask.set_isCurrentlyTracked (Some tracked) updatedTask.

Definition updateTask (taskId : string) (p : Provider.t) : M Provider.t :=
  tryCatch
    (let* updatedTask := getTask taskId in
     match updatedTask with
     | None =>
         ret (Provider.mk
                (List.filter (λ t, negb (String.eqb (ClickUpTask.id t) taskId))
                             (Provider.tasks p))
                (Provider.loading p) (Provider.fired p + 1)
                (Provider.refreshesInFlight p) (Provider.shown p))
     | Some updatedTask =>
         match list_find (λ t, ClickUpTask.id t = taskId) (Provider.tasks p) with
         | Some (taskIndex, existingTask) =>
             let* tracked := isInternallyTracked taskId in
             ret (Provider.mk
                    (<[taskIndex := mergeTask existingTask updatedTask tracked]>
                       (Provider.tasks p))
                    (Provider.loading p) (Provider.fired p + 1)
                    (Provider.refreshesInFlight p) (Provider.shown p))
         | None => ret p
         end
     end)
    (λ error,
       consoleError ("ClickUpTasksProvider: Error updating task " +:+ errorToString error) ;;
       ret (refresh p)).

End Service.

Arguments request {W} http client r _.
Arguments now {W} dateNow _.
Arguments getApiClient {W} cfg _.
Arguments getCurrentUserId {W} http client _.
Arguments getCurrentTimeEntryTaskId {W} http client teamId _.
Arguments stopTimeTracking {W} http cfg _.
Arguments startTimeTracking {W} http dateNow cfg fuel taskId _.
Arguments getTask {W} http cfg taskId _.
Arguments fetchPages {W} http fuel client listId assignee page allTasks _.
Arguments getTasksFromList {W} http fuel client listId space assigneeId _.
Arguments walkLists {W} http fuel client lists space currentUserId tasks _.
Arguments walkFolders {W} http fuel client folders space currentUserId tasks _.
Arguments walkSpace {W} http fuel client space currentUserId tasks _.
Arguments walkSpaces {W} http fuel client spaces currentUserId tasks _.
Arguments markTracked {W} dateNow tracked task _.
Arguments reconcileTimers {W} dateNow currentlyTrackedTaskId filteredTasks _.
Arguments getInProgressTasks {W} http dateNow cfg fuel _.
Arguments getInternalTimerElapsed {W} dateNow taskId _.
Arguments isInternallyTracked {W} taskId _.
Arguments clearInternalTimer {W} taskId _.
Arguments settleRefresh {W} http dateNow cfg fuel p _.
Arguments updateTask {W} http cfg taskId p _.

(** ** A reference remote service for the scenarios

    A static hierarchy ([Site]) and a small dynamic part ([World]): a clock
    that advances by one at every request, the task whose timer runs, and a
    script of failures for the next start requests.  The service refuses a
    start while a timer runs. *)
Module Fixture.

Record Site : Type := mkSite {
  user : option JsValue;
  teams : option (list Ref.t);
  spaces : option (list Ref.t);
  folders : string → option (list Ref.t);
  folderLists : string → option (list Ref.t);
  spaceLists : string → option (list Ref.t);
  pages : string → nat → option (list ApiTask.t);
  task : string → option ApiTask.fields;
  broken : list (Request * JsError.t)
}.

Record World : Type := mkWorld {
  clock : Z;
  running : option string;
  startScript : list JsError.t
}.

Definition httpError (status : Z) (err : string) : JsError.t :=
  JsError.mk "AxiosError" ("Request failed with status code " +:+ pretty status)
             (Some (JsError.mkResponse status (Some err))).

Definition networkError : JsError.t :=
  JsError.mk "AxiosError" "Network Error" None.

Definition noEntry : TimeEntry.t := TimeEntry.mk None None None.

Definition currentBody (running : option string) : option TimeEntry.body :=
  match running with
  | Some i =>
      Some (TimeEntry.mkBody
              (Some (TimeEntry.mk (Some (IdRef.mk (Some (JStr i)))) None None))
              noEntry)
  | None => Some (TimeEntry.mkBody None noEntry)
  end.

Fixpoint failureOf (r : Request) (l : list (Request * JsError.t)) : option JsError.t :=
  match l with
  | [] => None
  | (r', e) :: rest => if decide (r = r') then Some e else failureOf r rest
  end.

Definition http (site : Site) (client : string) (r : Request) (w : World)
    : (JsError.t + payload r) * World :=
  let w' := mkWorld (clock w + 1) (running w) (startScript w) in
  match failureOf r (broken site) with
  | Some e => (inl e, w')
  | None =>
      match r as r0 return (JsError.t + payload r0) * World with
      | GetUser => (inr (user site), w')
      | GetTeams => (inr (teams site), w')
      | GetSpaces _ => (inr (spaces site), w')
      | GetFolders s => (inr (folders site s), w')
      | GetFolderLists f => (inr (folderLists site f), w')
      | GetSpaceLists s => (inr (spaceLists site s), w')
      | GetListTasks l p _ => (inr (pages site l p), w')
      | GetTask i =>
          match task site i with
          | Some t => (inr t, w')
          | None => (inl (httpError 404 "Task not found"), w')
          end
      | GetCurrentTimeEntry _ => (inr (currentBody (running w)), w')
      | PostStartTimer _ tid =>
          match startScript w with
          | e :: rest => (inl e, mkWorld (clock w + 1) (running w) rest)
          | [] =>
              match running w with
              | Some _ => (inl (httpError 400 "Timer is already running"), w')
              | None => (inr tt, mkWorld (clock w + 1) (Some tid) [])
              end
          end
      | PostStopTimer _ => (inr tt, mkWorld (clock w + 1) None (startScript w))
      end
  end.

Definition cfg : Config := mkConfig "pk_token" None None "" None.

Definition team : Ref.t := Ref.mk "team1" "Team".

Definition me : Assignee.t := Assignee.mk (Some (JNum 42)) (Some "me") None None.

Definition apiTask (id status : string) (assignees : list Assignee.t) : ApiTask.fields :=
  ApiTask.mkFields id ("Task " +:+ id) (Status.Object (Status.mk status "#fff" None None))
    ("https://app.clickup.com/t/" +:+ id) (Some assignees) None None None None None None.

(** A site without spaces: enough for the timer scenarios. *)
Definition bare : Site :=
  mkSite (Some (JNum 42)) (Some [team]) (Some []) (λ _, None) (λ _, None) (λ _, None)
         (λ _ _, None) (λ _, None) [].

(** One space with the list [L1] in a folder and the list [L2] directly in
    the space; the task [t1] is in both lists. *)
Definition shared : Site :=
  mkSite (Some (JNum 42)) (Some [team]) (Some [Ref.mk "s1" "Space"])
         (λ _, Some [Ref.mk "f1" "Folder"])
         (λ _, Some [Ref.mk "L1" "In folder"])
         (λ _, Some [Ref.mk "L2" "Folderless"])
         (λ _ p, match p with
                 | O => Some [ApiTask.mk (apiTask "t1" "In Progress" [me]) None]
                 | _ => Some []
                 end)
         (λ _, None) [].

(** A list whose pages [0 .. n-1] are full and whose later pages are empty. *)
Definition fullPage : list ApiTask.t :=
  repeat (ApiTask.mk (apiTask "t" "open" []) None) pageSize.

Definition paged (n : nat) : Site :=
  mkSite (Some (JNum 42)) (Some [team]) (Some []) (λ _, None) (λ _, None) (λ _, None)
         (λ _ p, if (p <? n)%nat then Some fullPage else Some [])
         (λ _, None) [].

Definition world0 : World := mkWorld 1000 None [].

Definition start (w : World) : State World := initialState w.

Definition space1 : Ref.t := Ref.mk "s1" "Space".

(** A task whose status label carries capitals and surrounding blanks. *)
Definition spacedTask : ClickUpTask.t :=
  stamp space1 (apiTask "t1" " In Progress " [me]).

(** A task whose status object has an empty label, and a configuration that
    lists the empty string as an in-progress status. *)
Definition emptyLabelTask : ClickUpTask.t :=
  stamp space1 (apiTask "t0" "" [me]).

Definition emptyStatusCfg : Config := mkConfig "pk_token" None None "" (Some [""]).

(** The three shapes of an assignee of identifier [7]. *)
Definition flatId : Assignee.t := Assignee.mk (Some (JNum 7)) None None None.
Definition nestedId : Assignee.t :=
  Assignee.mk None None (Some (IdRef.mk (Some (JStr "7")))) None.
Definition flatUserId : Assignee.t := Assignee.mk None None None (Some (JNum 7)).

(** The service tracks [t1]; the registry still holds a stale entry. *)
Definition trackingT1 : State World :=
  set_timers (insert "old" 1) (start (mkWorld 1000 (Some "t1") [])).

Definition alreadyRunning : JsError.t := httpError 400 "Timer is already running".

(** The service tracks [A], and so does the registry. *)
Definition tracksA : State World :=
  set_timers (insert "A" 5) (start (mkWorld 1000 (Some "A") [])).

(** No timer runs, but the next two start requests are refused as if one
    did. *)
Definition refusingTwice : State World :=
  start (mkWorld 1000 None [alreadyRunning; alreadyRunning]).



(** The current-timer endpoint answers with a server error. *)
Definition brokenTimer : Site :=
  mkSite (Some (JNum 42)) (Some [team]) (Some []) (λ _, None) (λ _, None) (λ _, None)
         (λ _ _, None) (λ _, None)
         [(GetCurrentTimeEntry "team1", httpError 500 "Internal error")].

(** No token in the settings, none in the environment. *)
Definition noTokenCfg : Config := mkConfig "" None (Some "") "" None.

(** A snapshot with the task [X], which the service no longer has. *)
Definition snapshotX : Provider.t :=
  Provider.mk [stamp space1 (apiTask "X" "in progress" [me]);
               stamp space1 (apiTask "Y" "in progress" [me])]
              false 0 0 [].

End Fixture.


(** The status label of a task, as the service sends it: the [status] field
    of the status object, or the status itself when it is a plain string. *)
Definition statusLabel (s : Status.t) : string :=
  match s with
  | Status.Object o => Status.status o
  | Status.Plain l => l
  | Status.Absent => ""
  end.

(** The flags that reconciliation writes on the filtered tasks. *)
Definition flagged (currentlyTrackedTaskId : option string)
    (filteredTasks : list ClickUpTask.t) : list ClickUpTask.t :=
  match someNonEmpty currentlyTrackedTaskId with
  | Some tracked =>
      map (λ task, ClickUpTask.set_isCurrentlyTracked
                     (Some (String.eqb (ClickUpTask.id task) tracked)) task)
          filteredTasks
  | None => filteredTasks
  end.

(** [m] never adds or changes a registry entry. *)
Definition shrinks {W A} (m : M W A) : Prop :=
  ∀ st o st', m st = (o, st') → internalTimerStartTimes st' ⊆ internalTimerStartTimes st.

(** [m] has not added or changed a registry entry when it throws. *)
Definition throwShrinks {W A} (m : M W A) : Prop :=
  ∀ st e st', m st = (Throw e, st') →
    internalTimerStartTimes st' ⊆ internalTimerStartTimes st.

(** How often the identifier [i] occurs in a list of tasks. *)
Definition occurrences (i : string) (tasks : list ClickUpTask.t) : nat :=
  length (List.filter (λ t, String.eqb (ClickUpTask.id t) i) tasks).

Definition isStartRequest (r : Request) : bool :=
  match r with
  | PostStartTimer _ _ => true
  | _ => false
  end.

(** The requests for the pages [from, from + 1, .., from + n - 1] of a list. *)
Definition pageRequests (listId : string) (assignee : option string) (from n : nat)
    : list Request :=
  map (λ p, GetListTasks listId p assignee) (seq from n).

Definition paginationWarning (listId : string) : string :=
  "WARNING: Reached pagination limit for list " +:+ listId.

(** ** The tree view: [clickupTasksProvider.ts] *)

Definition nl : string := String (ascii_of_nat 10) EmptyString.

Definition dquote : string := String (ascii_of_nat 34) EmptyString.

(** [formatTime(milliseconds, includeSeconds)]; [%] is [Z.rem]. *)
Definition formatTime (milliseconds : Z) (includeSeconds : bool) : string :=
  if (milliseconds =? 0) || (milliseconds <=? 0) then ""
  else
    let totalSeconds := milliseconds / 1000 in
    let hours := totalSeconds / 3600 in
    let minutes := Z.rem totalSeconds 3600 / 60 in
    let seconds := Z.rem totalSeconds 60 in
    if includeSeconds && (hours =? 0) && (minutes <? 1) then
      pretty seconds +:+ "s"
    else if includeSeconds && (hours =? 0) && (0 <? minutes) then
      pretty minutes +:+ "m" +:+ pretty seconds +:+ "s"
    else if (0 <? hours) && (0 <? minutes) then
      pretty hours +:+ "h" +:+ pretty minutes +:+ "m"
    else if 0 <? hours then pretty hours +:+ "h"
    else if 0 <? minutes then pretty minutes +:+ "m"
    else if includeSeconds && (0 <? seconds) then pretty seconds +:+ "s"
    else "".

(** [class ClickUpTaskItem]; the collapsible state is always [None]. *)
Module TaskItem.
Record t : Type := mk {
  task : option ClickUpTask.t;
  label : string;
  tooltip : option string;
  description : option string;
  contextValue : option string;
  iconPath : option string;
  command : option string
}.
End TaskItem.

(** [task.status?.status || 'Unknown']. *)
Definition statusText (s : Status.t) : string :=
  match s with
  | Status.Object o => if nonEmpty (Status.status o) then Status.status o else "Unknown"
  | _ => "Unknown"
  end.

(** A number that may be absent, as a condition and as [x && x > 0]. *)
Definition isPositive (x : option Z) : bool :=
  match x with
  | Some n => 0 <? n
  | None => false
  end.

(** [new ClickUpTaskItem(task, label, None)]. *)
Definition newTaskItem (task : option ClickUpTask.t) (label : string) : TaskItem.t :=
  match task with
  | None => TaskItem.mk None label None None None None None
  | Some t =>
      let timeFormatted :=
        match ClickUpTask.timeTracked t with
        | Some n => if n =? 0 then "" else formatTime n false
        | None => ""
        end in
      let tracked := default false (ClickUpTask.isCurrentlyTracked t) in
      let trackingIndicator := if tracked then " (Recording)" else "" in
      TaskItem.mk (Some t) label
        (Some (ClickUpTask.name t +:+ nl +:+ "Status: " +:+ statusText (ClickUpTask.status t) +:+
               (if nonEmpty timeFormatted then nl +:+ "Time Tracked: " +:+ timeFormatted
                else "") +:+
               (if tracked then nl +:+ "Currently recording time" else "") +:+
               nl +:+ ClickUpTask.url t +:+ nl +:+ nl +:+ "Click: Copy task ID" +:+ nl +:+
               "Right-click: " +:+ (if tracked then "Stop" else "Start") +:+
               " time tracking"))
        (Some (statusText (ClickUpTask.status t) +:+ trackingIndicator))
        (Some (if tracked then "clickupTaskTracked" else "clickupTask"))
        (if tracked then Some "circle-filled" else None)
        (Some "clickupTasks.copyTaskIdFromItem")
  end.

(** The time display of [getChildren]: [parts], joined, in brackets, or the
    empty string. *)
Definition timeDisplay (task : ClickUpTask.t) (internalElapsed : Z) : string :=
  let hasInternalTimer := 0 <? internalElapsed in
  let hasTracked := isPositive (ClickUpTask.timeTracked task) in
  let hasEstimate := isPositive (ClickUpTask.time_estimate task) in
  if hasInternalTimer || hasTracked || hasEstimate then
    let parts1 := if hasInternalTimer then [formatTime internalElapsed true] else [] in
    let parts2 :=
      if hasTracked then
        let trackedFormatted := formatTime (default 0 (ClickUpTask.timeTracked task)) false in
        if hasInternalTimer then parts1 ++ ["+" +:+ trackedFormatted]
        else parts1 ++ [trackedFormatted]
      else if hasInternalTimer then parts1 ++ ["+0m"]
      else parts1 in
    let parts3 :=
      if hasEstimate then
        parts2 ++ ["/" +:+ formatTime (default 0 (ClickUpTask.time_estimate task)) false]
      else parts2 in
    "[" +:+ String.concat "" parts3 +:+ "]"
  else "".

(** The label of a task in the tree. *)
Definition taskLabel (task : ClickUpTask.t) (internalElapsed : Z) : string :=
  let display := timeDisplay task internalElapsed in
  if nonEmpty display then ClickUpTask.name task +:+ " " +:+ display
  else ClickUpTask.name task.

Definition loadingLabel : string := "Loading...".

Definition noTasksLabel : string :=
  "No " +:+ dquote +:+ "In Progress" +:+ dquote +:+ " tasks assigned to you".

(** ** The extension: [extension.ts] *)

(** [s.padStart(targetLength, pad)] for a one-character [pad]. *)
Definition padStart (targetLength : nat) (pad : ascii) (s : string) : string :=
  Nat.iter (targetLength - String.length s) (String pad) s.

(** [formatCountdown(seconds)]. *)
Definition formatCountdown (seconds : Z) : string :=
  let minutes := seconds / 60 in
  let secs := Z.rem seconds 60 in
  pretty minutes +:+ ":" +:+ padStart 2 "0" (pretty secs).

(** The title that [updateCountdown] writes, at the instant [now]. *)
Definition countdownTitle (nextRefreshTime now : Z) : string :=
  let timeRemaining := Z.max 0 ((nextRefreshTime - now) / 1000) in
  let countdownText := if 0 <? timeRemaining then formatCountdown timeRemaining else "5:00" in
  "ClickUp Tasks (" +:+ countdownText +:+ ")".

Module Notify.
Inductive t : Type := information | warning | error.
End Notify.

(** What the commands touch besides the service: the tree provider, the
    lines the extension itself appends to the output channel, and the
    notifications shown. *)
Module Ui.
Record t : Type := mk {
  provider : Provider.t;
  channel : list string;
  notifications : list (Notify.t * string)
}.
End Ui.

(** [showAutoDismissNotification(message, type)], without its timers. *)
Definition showAutoDismissNotification (message : string) (type : Notify.t) (ui : Ui.t)
    : Ui.t :=
  Ui.mk (Ui.provider ui) (Ui.channel ui) (Ui.notifications ui ++ [(type, message)]).

(** [outputChannel.appendLine(line)]. *)
Definition appendLine (line : string) (ui : Ui.t) : Ui.t :=
  Ui.mk (Ui.provider ui) (Ui.channel ui ++ [line]) (Ui.notifications ui).

Definition set_provider (p : Provider.t) (ui : Ui.t) : Ui.t :=
  Ui.mk p (Ui.channel ui) (Ui.notifications ui).

(** The argument of the play and stop commands. *)
Inductive TaskOrItem : Type :=
| IsTask (t : ClickUpTask.t)
| IsItem (i : TaskItem.t).

(** ['task' in taskOrItem ? taskOrItem.task : taskOrItem]. *)
Definition taskOf (x : TaskOrItem) : option ClickUpTask.t :=
  match x with
  | IsTask t => Some t
  | IsItem i => TaskItem.task i
  end.

(** [error.message || 'Unknown error']. *)
Definition messageOrUnknown (e : JsError.t) : string :=
  if nonEmpty (JsError.message e) then JsError.message e else "Unknown error".

(** The [catch] of the play command. *)
Definition playFailed (e : JsError.t) (ui : Ui.t) : Ui.t :=
  showAutoDismissNotification ("Failed to start time tracking: " +:+ messageOrUnknown e)
    Notify.error
    (appendLine ("Error starting time tracking: " +:+ messageOrUnknown e) ui).

(** The [catch] of the stop command. *)
Definition stopFailed (e : JsError.t) (ui : Ui.t) : Ui.t :=
  showAutoDismissNotification ("Failed to stop time tracking: " +:+ messageOrUnknown e)
    Notify.error
    (appendLine ("Error stopping time tracking: " +:+ messageOrUnknown e) ui).

Section Views.
Context {W : Type}.
Variable http : Remote W.
Variable dateNow : W → Z.
Variable cfg : Config.

(** [getChildren(element)]. *)
Definition getChildren (p : Provider.t) (element : option TaskItem.t)
    : M W (list TaskItem.t) :=
  if Provider.loading p then ret [newTaskItem None loadingLabel]
  else
    match element with
    | None =>
        match Provider.tasks p with
        | [] => ret [newTaskItem None noTasksLabel]
        | tasks =>
            forEachMap tasks (λ task,
              let* internalElapsed :=
                if default false (ClickUpTask.isCurrentlyTracked task)
                then getInternalTimerElapsed dateNow (ClickUpTask.id task)
                else ret 0 in
              ret (newTaskItem (Some task) (taskLabel task internalElapsed)))
        end
    | Some _ => ret []
    end.

(** The command [clickupTasks.playTask].  The [try] spans the two awaited
    calls; what the handler has written before an exception stays. *)
Definition playTask (fuel : nat) (taskOrItem : option TaskOrItem) (ui : Ui.t) : M W Ui.t :=
  match taskOrItem with
  | None =>
      ret (showAutoDismissNotification
             "No task selected. Please select a task to start time tracking."
             Notify.error ui)
  | Some x =>
      match taskOf x with
      | None =>
          ret (showAutoDismissNotification
                 "Invalid task. Please select a valid task to start time tracking."
                 Notify.error ui)
      | Some task =>
          let taskName :=
            if nonEmpty (ClickUpTask.name task) then ClickUpTask.name task
            else "Unknown Task" in
          let taskId := ClickUpTask.id task in
          if negb (nonEmpty taskId) then
            ret (showAutoDismissNotification
                   "Task ID is missing. Cannot start time tracking." Notify.error ui)
          else
            let ui := appendLine ("Starting time tracking for task: " +:+ taskName +:+
                                  " (" +:+ taskId +:+ ")") ui in
            let* r := attempt (startTimeTracking http dateNow cfg fuel taskId) in
            match r with
            | inl e => ret (playFailed e ui)
            | inr _ =>
                let ui := showAutoDismissNotification
                            ("Started time tracking for: " +:+ taskName)
                            Notify.information ui in
                let* r := attempt (updateTask http cfg taskId (Ui.provider ui)) in
                match r with
                | inl e => ret (playFailed e ui)
                | inr p => ret (set_provider p ui)
                end
            end
      end
  end.

(** The command [clickupTasks.stopTask]. *)
Definition stopTask (taskOrItem : option TaskOrItem) (ui : Ui.t) : M W Ui.t :=
  let task := match taskOrItem with Some x => taskOf x | None => None end in
  let taskId := match task with Some t => Some (ClickUpTask.id t) | None => None end in
  let ui :=
    match task with
    | Some t =>
        appendLine ("Stopping time tracking for task: " +:+
                    (if nonEmpty (ClickUpTask.name t) then ClickUpTask.name t
                     else "Unknown Task")) ui
    | None => ui
    end in
  let ui :=
    match someNonEmpty taskId with
    | Some _ => ui
    | None => appendLine "Stopping time tracking (no task specified)" ui
    end in
  let* r := attempt (stopTimeTracking http cfg) in
  match r with
  | inl e => ret (stopFailed e ui)
  | inr stoppedTaskId =>
      (match someNonEmpty taskId with
       | Some i => clearInternalTimer i
       | None => ret tt
       end) ;;
      let ui := showAutoDismissNotification "Stopped time tracking" Notify.information ui in
      let taskToUpdate :=
        match someNonEmpty stoppedTaskId with
        | Some s => Some s
        | None => taskId
        end in
      match someNonEmpty taskToUpdate with
      | Some i =>
          let* r := attempt (updateTask http cfg i (Ui.provider ui)) in
          match r with
          | inl e => ret (stopFailed e ui)
          | inr p => ret (set_provider p ui)
          end
      | None => ret (set_provider (refresh (Ui.provider ui)) ui)
      end
  end.

End Views.

Arguments getChildren {W} dateNow p element _.
Arguments playTask {W} http dateNow cfg fuel taskOrItem ui _.
Arguments stopTask {W} http cfg taskOrItem ui _.

(** ** The debug walk: what it collects *)

(** An entry of [allMyTasks] in [debugListAllMyTasks]. *)
Module Collected.
Record t : Type := mk {
  task : ApiTask.fields;
  listName : string;
  spaceName : string
}.
End Collected.

(** [(task.assignees || []).map(..)] on a task as the service returns it. *)
Definition rawAssigneeIds (task : ApiTask.fields) : list string :=
  map normalizeAssignee (default [] (ApiTask.assignees task)).

(** The [tasks.forEach(..)] of [debugListAllMyTasks] on one fetched page:
    the triple is [taskIdsSeen], [allMyTasks] and [tasksAssignedToMe]. *)
Fixpoint collectAssigned (currentUserId listName spaceName : string)
    (tasks : list ApiTask.fields) (acc : gset string * list Collected.t * nat)
    : gset string * list Collected.t * nat :=
  match tasks with
  | [] => acc
  | task :: rest =>
      let '(taskIdsSeen, allMyTasks, tasksAssignedToMe) := acc in
      if Js.arrayIncludes (rawAssigneeIds task) currentUserId then
        if decide (ApiTask.id task ∈ taskIdsSeen) then
          collectAssigned currentUserId listName spaceName rest acc
        else
          collectAssigned currentUserId listName spaceName rest
            ({[ApiTask.id task]} ∪ taskIdsSeen,
             allMyTasks ++ [Collected.mk task listName spaceName],
             S tasksAssignedToMe)
      else collectAssigned currentUserId listName spaceName rest acc
  end.

(** ** Further scenarios *)

Module Cases.

(** The team endpoint rejects the token. *)
Definition rejectedToken : Fixture.Site :=
  Fixture.mkSite (Some (JNum 42)) (Some [Fixture.team]) (Some []) (λ _, None) (λ _, None)
    (λ _, None) (λ _ _, None) (λ _, None)
    [(GetTeams, Fixture.httpError 401 "Token invalid")].

(** The user endpoint rejects the token, the team endpoint does not. *)
Definition rejectedUser : Fixture.Site :=
  Fixture.mkSite (Some (JNum 42)) (Some [Fixture.team]) (Some []) (λ _, None) (λ _, None)
    (λ _, None) (λ _ _, None) (λ _, None)
    [(GetUser, Fixture.httpError 401 "Token invalid")].

(** Two spaces; the folders of the first cannot be listed, the second holds
    the task [t2] in a folder-less list. *)
Definition brokenSpace : Fixture.Site :=
  Fixture.mkSite (Some (JNum 42)) (Some [Fixture.team])
    (Some [Ref.mk "s1" "First"; Ref.mk "s2" "Second"])
    (λ _, Some [])
    (λ _, Some [])
    (λ s, if String.eqb s "s2" then Some [Ref.mk "L2" "List"] else Some [])
    (λ _ p, match p with
            | O => Some [ApiTask.mk (Fixture.apiTask "t2" "active" [Fixture.me]) None]
            | _ => Some []
            end)
    (λ _, None)
    [(GetFolders "s1", Fixture.httpError 500 "Internal error")].

(** A registry with a stale entry, before any request. *)
Definition staleRegistry : State Fixture.World :=
  set_timers (insert "old" 1) (Fixture.start Fixture.world0).

(** A provider whose snapshot holds [X] and [Y], an empty channel and no
    notification. *)
Definition ui0 : Ui.t := Ui.mk Fixture.snapshotX [] [].

(** The task [t1] as the tree hands it to a command. *)
Definition taskT1 : ClickUpTask.t :=
  stamp Fixture.space1 (Fixture.apiTask "t1" "in progress" [Fixture.me]).

(** Three tasks of a page: [t1] twice, assigned to the user, and [t9],
    assigned to nobody. *)
Definition debugPage : list ApiTask.fields :=
  [Fixture.apiTask "t1" "open" [Fixture.me];
   Fixture.apiTask "t9" "open" [];
   Fixture.apiTask "t1" "open" [Fixture.me]].

(** The stop endpoint answers that no timer runs. *)
Definition stopNotFound : Fixture.Site :=
  Fixture.mkSite (Some (JNum 42)) (Some [Fixture.team]) (Some []) (λ _, None) (λ _, None)
    (λ _, None) (λ _ _, None) (λ _, None)
    [(PostStopTimer "team1", Fixture.httpError 404 "Not found")].

(** The task [X] as the single-task endpoint returns it: without space,
    with its time as a string. *)
Definition taskX : ApiTask.fields :=
  ApiTask.mkFields "X" "Task X, renamed" (Status.Object (Status.mk "review" "#0f0" None None))
    "https://app.clickup.com/t/X" (Some [Fixture.me]) None None (Some (JStr "90000"))
    (Some 3600000) None (Some (Ref.mk "L9" "Other list")).

Definition withTaskX : Fixture.Site :=
  Fixture.mkSite (Some (JNum 42)) (Some [Fixture.team]) (Some []) (λ _, None) (λ _, None)
    (λ _, None) (λ _ _, None)
    (λ i, if String.eqb i "X" then Some taskX else None) [].

(** The single-task endpoint fails with a server error. *)
Definition brokenTask : Fixture.Site :=
  Fixture.mkSite (Some (JNum 42)) (Some [Fixture.team]) (Some []) (λ _, None) (λ _, None)
    (λ _, None) (λ _ _, None) (λ _, None)
    [(GetTask "X", Fixture.httpError 500 "Internal error")].

(** The registry holds an entry for [X]; no request was sent yet. *)
Definition tracksX : State Fixture.World :=
  set_timers (insert "X" 7) (Fixture.start Fixture.world0).

(** A list of two pages: a full page of the task [t], then a page with the
    task [u], whose subtasks are [s] and, once more, [t]. *)
Definition twoPages : Fixture.Site :=
  Fixture.mkSite (Some (JNum 42)) (Some [Fixture.team]) (Some []) (λ _, None) (λ _, None)
    (λ _, None)
    (λ _ p, match p with
            | O => Some Fixture.fullPage
            | S O => Some [ApiTask.mk (Fixture.apiTask "u" "open" [])
                             (Some [Fixture.apiTask "s" "open" [];
                                    Fixture.apiTask "t" "open" []])]
            | _ => Some []
            end)
    (λ _, None) [].

End Cases.

(** ** The tasks of a listing, flattened *)

(** The tasks of the fetched pages in the order in which [getTasksFromList]
    visits them: every task, followed by its subtasks. *)
Definition withSubtasks (allTasks : list ApiTask.t) : list ApiTask.fields :=
  concat (map (λ task, ApiTask.own task :: default [] (ApiTask.subtasks task)) allTasks).

(** ** The requests of a method *)

(** A request that reads, and that carries the assignee filter [assignee]
    when it lists the tasks of a list. *)
Definition isListingWith (assignee : option string) (r : Request) : bool :=
  match r with
  | GetListTasks _ _ a => bool_decide (a = assignee)
  | PostStartTimer _ _ | PostStopTimer _ => false
  | _ => true
  end.

(** [m] issues requests that satisfy [P] only. *)
Definition issuesOnly {W A} (P : Request → bool) (m : M W A) : Prop :=
  ∀ st o st', m st = (o, st') →
    ∃ l, requests st' = requests st ++ l ∧ forallb P l = true.

(** [m] issues reads only, all listings with one assignee filter. *)
Definition readsWithOneFilter {W A} (m : M W A) : Prop :=
  ∀ st o st', m st = (o, st') →
    ∃ assignee l, requests st' = requests st ++ l ∧
                  forallb (isListingWith assignee) l = true.

(** ** What a method returns *)

(** [Q] holds of the result and the state whenever [m] returns. *)
Definition post {W A} (Q : A → State W → Prop) (m : M W A) : Prop :=
  ∀ st a st', m st = (Return a, st') → Q a st'.

(** No task of the list carries a tracking flag. *)
Definition unflagged (tasks : list ClickUpTask.t) : Prop :=
  Forall (λ t, ClickUpTask.isCurrentlyTracked t = None) tasks.

(** ** The debug operations: their entry *)

Section Debug.
Context {W : Type}.
Variable cfg : Config.
(** The [try] blocks of [debugListAllMyTasks] and [debugFetchRawTasks], which
    walk the hierarchy and write what they find to the log; they are taken as
    they come, for the client they are given. *)
Variable debugListAllMyTasksTry : string → M W unit.
Variable debugFetchRawTasksTry : string → M W unit.

(** [debugListAllMyTasks()]: the credential guard, then the [try] block. *)
Definition debugListAllMyTasks : M W unit :=
  let* client := getApiClient cfg in
  match client with
  | None => throw notConfigured
  | Some client => debugListAllMyTasksTry client
  end.

(** [debugFetchRawTasks()]: the credential guard, then the [try] block. *)
Definition debugFetchRawTasks : M W unit :=
  let* client := getApiClient cfg in
  match client with
  | None => throw notConfigured
  | Some client => debugFetchRawTasksTry client
  end.

End Debug.

Arguments debugListAllMyTasks {W} cfg debugListAllMyTasksTry _.
Arguments debugFetchRawTasks {W} cfg debugFetchRawTasksTry _.

(** ** The pages of a listing *)

(** The tasks of one answer to a page request; none when the request
    failed. *)
Definition pageOf (answer : JsError.t + option (list ApiTask.t)) : list ApiTask.t :=
  match answer with
  | inr tasks => default [] tasks
  | inl _ => []
  end.

(** The tasks of the pages [0 .. last] of a server that answers the request
    for page [p] with [answers p]. *)
Definition pagesUpTo (answers : nat → JsError.t + option (list ApiTask.t)) (last : nat)
    : list ApiTask.t :=
  concat (map (λ p, pageOf (answers p)) (seq 0 (S last))).

(** The state in which a full fetch asks who the current user is: after
    [getApiClient] and the team request. *)
Definition afterTeams {W} (http : Remote W) (cfg : Config) (st : State W) : State W :=
  set_env (snd (http (configuredToken cfg) GetTeams (env st))) GetTeams
          (snd (getApiClient cfg st)).

(** [m] adds or changes no registry entry but that of [taskId]. *)
Definition addsAtMost {W A} (taskId : string) (m : M W A) : Prop :=
  ∀ st o st', m st = (o, st') →
    ∀ other v, other ≠ taskId →
      internalTimerStartTimes st' !! other = Some v →
      internalTimerStartTimes st !! other = Some v.

(** ** Predicates on methods *)

(** [m] leaves the timer registry as it is. *)
Definition keeps {W A} (m : M W A) : Prop :=
  ∀ st o st', m st = (o, st') → internalTimerStartTimes st' = internalTimerStartTimes st.

(** [m] has left the timer registry as it is when it throws. *)
Definition throwKeeps {W A} (m : M W A) : Prop :=
  ∀ st e st', m st = (Throw e, st') →
    internalTimerStartTimes st' = internalTimerStartTimes st.

(** [m] returns, whatever the state. *)
Definition returns {W A} (m : M W A) : Prop :=
  ∀ st, ∃ a st', m st = (Return a, st').

(** The requests a full fetch issues before it walks the spaces. *)
Definition isPreamble (r : Request) : bool :=
  match r with
  | GetTeams | GetUser | GetCurrentTimeEntry _ | GetSpaces _ => true
  | _ => false
  end.

(** [m] does not run on for ever. *)
Definition ends {W A} (m : M W A) : Prop :=
  ∀ st o st', m st = (o, st') → o ≠ Diverge.

(** [m] issues preamble requests only. *)
Definition preambleOnly {W A} (m : M W A) : Prop :=
  ∀ st o st', m st = (o, st') →
    ∃ l, requests st' = requests st ++ l ∧ forallb isPreamble l = true.

(** [m] has issued preamble requests only when it throws. *)
Definition throwPreamble {W A} (m : M W A) : Prop :=
  ∀ st e st', m st = (Throw e, st') →
    ∃ l, requests st' = requests st ++ l ∧ forallb isPreamble l = true.

(** ** Runs of the monad *)

Section Runs.
Context {W : Type}.
Implicit Types st : State W.

Lemma bind_Return {A B} (m : M W A) (k : A → M W B) st a st1 :
  m st = (Return a, st1) → bind m k st = k a st1.
Proof. intros H. unfold bind. by rewrite H. Qed.

Lemma bind_Throw {A B} (m : M W A) (k : A → M W B) st e st1 :
  m st = (Throw e, st1) → bind m k st = (Throw e, st1).
Proof. intros H. unfold bind. by rewrite H. Qed.

Lemma bind_Diverge {A B} (m : M W A) (k : A → M W B) st st1 :
  m st = (Diverge, st1) → bind m k st = (Diverge, st1).
Proof. intros H. unfold bind. by rewrite H. Qed.

Lemma bind_inv {A B} (m : M W A) (k : A → M W B) st o st' :
  bind m k st = (o, st') →
  (∃ a st1, m st = (Return a, st1) ∧ k a st1 = (o, st')) ∨
  (∃ e, m st = (Throw e, st') ∧ o = Throw e) ∨
  (m st = (Diverge, st') ∧ o = Diverge).
Proof.
  unfold bind. destruct (m st) as [[a|e|] st1]; intros H.
  - left. eauto.
  - right. left. exists e. by inversion H.
  - right. right. by inversion H.
Qed.

Lemma bind_Return_inv {A B} (m : M W A) (k : A → M W B) st b st' :
  bind m k st = (Return b, st') →
  ∃ a st1, m st = (Return a, st1) ∧ k a st1 = (Return b, st').
Proof.
  intros H. apply bind_inv in H as [H|[(e & _ & H)|[_ H]]]; [done|done..].
Qed.

Lemma attempt_Return {A} (m : M W A) st a st1 :
  m st = (Return a, st1) → attempt m st = (Return (inr a), st1).
Proof. intros H. unfold attempt. by rewrite H. Qed.

Lemma attempt_Throw {A} (m : M W A) st e st1 :
  m st = (Throw e, st1) → attempt m st = (Return (inl e), st1).
Proof. intros H. unfold attempt. by rewrite H. Qed.

Lemma tryCatch_Return {A} (m : M W A) h st a st1 :
  m st = (Return a, st1) → tryCatch m h st = (Return a, st1).
Proof. intros H. unfold tryCatch. by rewrite (bind_Return _ _ _ _ _ (attempt_Return _ _ _ _ H)). Qed.

Lemma tryCatch_Throw {A} (m : M W A) h st e st1 :
  m st = (Throw e, st1) → tryCatch m h st = h e st1.
Proof. intros H. unfold tryCatch. by rewrite (bind_Return _ _ _ _ _ (attempt_Throw _ _ _ _ H)). Qed.

Lemma tryCatch_Diverge {A} (m : M W A) h st st1 :
  m st = (Diverge, st1) → tryCatch m h st = (Diverge, st1).
Proof. intros H. unfold tryCatch, bind, attempt. by rewrite H. Qed.

Lemma tryCatch_inv {A} (m : M W A) h st o st' :
  tryCatch m h st = (o, st') →
  (∃ a, m st = (Return a, st') ∧ o = Return a) ∨
  (∃ e st1, m st = (Throw e, st1) ∧ h e st1 = (o, st')) ∨
  (m st = (Diverge, st') ∧ o = Diverge).
Proof.
  unfold tryCatch, bind, attempt, ret.
  destruct (m st) as [[a|e|] st1]; intros H.
  - left. exists a. by inversion H.
  - right. left. eauto.
  - right. right. by inversion H.
Qed.

End Runs.

(** ** The two-stage filter *)

Lemma arrayIncludes_elem_of (arr : list string) (x : string) :
  Js.arrayIncludes arr x = true ↔ x ∈ arr.
Proof.
  unfold Js.arrayIncludes. rewrite existsb_exists, list_elem_of_In. split.
  - intros (y & Hin & Heq). apply String.eqb_eq in Heq. by subst.
  - intros Hin. exists x. split; [done | apply String.eqb_refl].
Qed.

Lemma isAssignedToMe_spec (currentUserId : string) (task : ClickUpTask.t) :
  isAssignedToMe currentUserId task = true ↔
  ∃ a, a ∈ default [] (ClickUpTask.assignees task) ∧ normalizeAssignee a = currentUserId.
Proof.
  unfold isAssignedToMe, assigneeIds. rewrite existsb_exists. split.
  - intros (x & Hin & Heq). apply String.eqb_eq in Heq. subst x.
    destruct (ClickUpTask.assignees task) as [l|]; [|done].
    apply in_map_iff in Hin as (a & Ha & Hin). exists a.
    by rewrite list_elem_of_In.
  - intros (a & Hin & Heq).
    destruct (ClickUpTask.assignees task) as [l|]; simpl in Hin.
    + exists currentUserId. split; [|apply String.eqb_refl].
      apply in_map_iff. exists a. by rewrite <- list_elem_of_In.
    + by apply elem_of_nil in Hin.
Qed.

Lemma taskFilter_and (currentUserId : string) (inProgress : list string)
    (task : ClickUpTask.t) :
  taskFilter currentUserId inProgress task =
  isAssignedToMe currentUserId task && statusMatches inProgress task.
Proof. unfold taskFilter. by destruct (isAssignedToMe currentUserId task). Qed.

Lemma statusValue_label (s : Status.t) :
  statusLabel s ≠ "" → statusValue s = statusLabel s.
Proof.
  destruct s as [o|l|]; simpl; [| |done].
  - intros H. unfold nonEmpty. destruct (String.eqb_spec (Status.status o) ""); done.
  - intros H. unfold nonEmpty. destruct (String.eqb_spec l ""); done.
Qed.

(** ** Printed identifiers *)

Lemma pretty_N_go_nonempty (x : N) (s : string) : s ≠ "" → pretty_N_go x s ≠ "".
Proof.
  revert s. induction (N.lt_wf_0 x) as [x _ IH]; intros s Hs.
  destruct (decide (x = 0)%N) as [->|Hx].
  - by rewrite pretty_N_go_0.
  - rewrite pretty_N_go_step by lia. apply IH; [apply N.div_lt; lia | done].
Qed.

Lemma pretty_N_nonempty (x : N) : pretty x ≠ "".
Proof.
  unfold pretty, pretty_N. destruct (decide (x = 0)%N); [done|].
  rewrite pretty_N_go_step by lia. by apply pretty_N_go_nonempty.
Qed.

Lemma pretty_Z_nonempty (x : Z) : pretty x ≠ "".
Proof.
  destruct x as [|p|p]; [done| |done].
  apply (pretty_N_nonempty (Npos p)).
Qed.

(** [String(v)] of a truthy value is a truthy string. *)
Lemma jsString_truthy (v : option JsValue) :
  truthy v = true → nonEmpty (jsString v) = true.
Proof.
  destruct v as [[s|n]|]; simpl; [done| |done].
  intros _. unfold nonEmpty. destruct (String.eqb_spec (pretty n) ""); [|done].
  by destruct (pretty_Z_nonempty n).
Qed.

(** ** Steps of the service *)

Section ServiceFacts.
Context {W : Type}.
Variable http : string → ∀ r : Request, W → (JsError.t + payload r) * W.
Variable dateNow : W → Z.
Variable cfg : Config.
Implicit Types st : State W.

Lemma request_ok client r st v e' :
  http client r (env st) = (inr v, e') →
  request http client r st = (Return v, set_env e' r st).
Proof. intros H. unfold request. by rewrite H. Qed.

Lemma request_err client r st error e' :
  http client r (env st) = (inl error, e') →
  request http client r st = (Throw error, set_env e' r st).
Proof. intros H. unfold request. by rewrite H. Qed.

Lemma request_inv client r st o st' :
  request http client r st = (o, st') →
  ∃ res e', http client r (env st) = (res, e') ∧ st' = set_env e' r st ∧
            o = match res with inl error => Throw error | inr v => Return v end.
Proof.
  unfold request. destruct (http client r (env st)) as [[error|v] e'] eqn:E;
    intros H; inversion H; subst; eauto.
Qed.

(** [getApiClient] touches neither the environment, the trace nor the
    timers, and yields a client exactly when a token is configured. *)
Lemma getApiClient_run st :
  ∃ st1,
    getApiClient cfg st =
      (Return (if nonEmpty (configuredToken cfg) then Some (configuredToken cfg) else None), st1) ∧
    env st1 = env st ∧ requests st1 = requests st ∧
    internalTimerStartTimes st1 = internalTimerStartTimes st ∧
    logged st1 = logged st ∧ consoleErrors st1 = consoleErrors st.
Proof.
  unfold getApiClient. destruct (nonEmpty (configuredToken cfg)) eqn:E; simpl.
  - unfold bind, gets, modify, ret. destruct (apiClient st) as [tok|] eqn:Ec.
    + destruct (String.eqb_spec tok (configuredToken cfg)) as [->|].
      * by exists st.
      * by eexists.
    + by eexists.
  - by exists st.
Qed.

Lemma getCurrentUserId_requests client st u st' :
  getCurrentUserId http client st = (Return u, st') →
  (requests st' = requests st ∨ requests st' = requests st ++ [GetUser]) ∧
  internalTimerStartTimes st' = internalTimerStartTimes st.
Proof.
  unfold getCurrentUserId. unfold bind at 1. unfold gets at 1.
  destruct (someNonEmpty (currentUserId st)).
  - intros H. inversion H; subst. auto.
  - intros H. apply tryCatch_inv in H as [(a & H & _)|[(e & st1 & _ & H)|[_ H]]]; [|done..].
    apply bind_Return_inv in H as (v & st1 & Hreq & H).
    apply request_inv in Hreq as (res & e' & _ & -> & _).
    unfold bind, modify, ret in H. inversion H; subst. simpl. auto.
Qed.

(** The current-timer query never throws: it issues one request and
    returns an identifier or none. *)
Lemma getCurrentTimeEntryTaskId_run client teamId st :
  ∃ cur st',
    getCurrentTimeEntryTaskId http client teamId st = (Return cur, st') ∧
    requests st' = requests st ++ [GetCurrentTimeEntry teamId] ∧
    internalTimerStartTimes st' = internalTimerStartTimes st ∧
    env st' = snd (http client (GetCurrentTimeEntry teamId) (env st)).
Proof.
  unfold getCurrentTimeEntryTaskId, tryCatch, attempt, bind, request, log, modify, ret.
  destruct (http client (GetCurrentTimeEntry teamId) (env st)) as [[error|body] e'] eqn:E;
    simpl.
  - destruct (JsError.response error) as [r|]; [|by eexists _, _].
    destruct ((JsError.status r =? 404) || (JsError.status r =? 400)); by eexists _, _.
  - by eexists _, _.
Qed.

Lemma getCurrentTimeEntryTaskId_ok client teamId st body e' :
  http client (GetCurrentTimeEntry teamId) (env st) = (inr body, e') →
  getCurrentTimeEntryTaskId http client teamId st =
    (Return (entryTaskId body), set_env e' (GetCurrentTimeEntry teamId) st).
Proof.
  intros H. unfold getCurrentTimeEntryTaskId. apply tryCatch_Return.
  by rewrite (bind_Return _ _ _ _ _ (request_ok _ _ _ _ _ H)).
Qed.

(** An identifier returned by the current-timer query is truthy. *)
Lemma getCurrentTimeEntryTaskId_truthy client teamId st cur st' :
  getCurrentTimeEntryTaskId http client teamId st = (Return cur, st') →
  someNonEmpty cur = cur.
Proof.
  unfold getCurrentTimeEntryTaskId, tryCatch, attempt, bind, request, log, modify, ret.
  destruct (http client (GetCurrentTimeEntry teamId) (env st)) as [[error|body] e'] eqn:E;
    simpl.
  - destruct (JsError.response error) as [r|]; [|by intros [= <- _]].
    destruct ((JsError.status r =? 404) || (JsError.status r =? 400)); by intros [= <- _].
  - intros [= <- _]. unfold entryTaskId.
    destruct body as [b|]; [|done].
    match goal with |- context [truthy ?x] => destruct (truthy x) eqn:Ht end; [|done].
    simpl. by rewrite (jsString_truthy _ Ht).
Qed.

End ServiceFacts.

(** ** Reconciliation of the timers *)

Section Reconciliation.
Context {W : Type}.
Variable http : string → ∀ r : Request, W → (JsError.t + payload r) * W.
Variable dateNow : W → Z.
Variable cfg : Config.
Implicit Types st : State W.

Lemma purge_run (msg : string → string) (ks : list string) st :
  ∃ st',
    forEach ks (λ prevTaskId,
      modify (set_timers (delete prevTaskId)) ;; log (msg prevTaskId)) st
      = (Return tt, st') ∧
    (∀ k, internalTimerStartTimes st' !! k =
          if decide (k ∈ ks) then None else internalTimerStartTimes st !! k) ∧
    env st' = env st ∧ requests st' = requests st.
Proof.
  revert st. induction ks as [|x rest IH]; intros st; simpl.
  - exists st. split; [done|]. split; [|done]. intros k.
    destruct (decide (k ∈ [])) as [Hin|]; [by apply elem_of_nil in Hin | done].
  - destruct (IH (add_log (msg x) (set_timers (delete x) st))) as (st' & Hrun & Hk & He & Hr).
    exists st'. split; [|split; [|done]].
    + unfold bind at 1. unfold bind at 1. unfold modify at 1. unfold log, modify at 1.
      exact Hrun.
    + intros k. rewrite Hk. simpl.
      destruct (decide (k ∈ rest)) as [Hin|Hnin].
      * rewrite decide_True; [done | by apply elem_of_cons; right].
      * destruct (decide (k = x)) as [->|Hne].
        -- rewrite decide_True; [|by apply elem_of_cons; left].
           apply lookup_delete_eq.
        -- rewrite decide_False.
           ++ by apply lookup_delete_ne.
           ++ intros [?|?]%elem_of_cons; done.
Qed.

Lemma markTracked_run (tracked : string) (task : ClickUpTask.t) st :
  ∃ st',
    markTracked dateNow tracked task st =
      (Return (ClickUpTask.set_isCurrentlyTracked
                 (Some (String.eqb (ClickUpTask.id task) tracked)) task), st') ∧
    (∀ k, is_Some (internalTimerStartTimes st' !! k) →
          is_Some (internalTimerStartTimes st !! k) ∨ k = tracked) ∧
    env st' = env st ∧ requests st' = requests st.
Proof.
  unfold markTracked, bind, gets, now, modify, log, ret.
  destruct (String.eqb_spec (ClickUpTask.id task) tracked) as [Heq|Hne]; simpl.
  - destruct (bool_decide (is_Some (internalTimerStartTimes st !! ClickUpTask.id task)));
      simpl; eexists; (split; [reflexivity|]); (split; [|done]); simpl; [by left|].
    intros k. rewrite Heq. destruct (decide (k = tracked)) as [->|Hne]; [by right|].
    rewrite lookup_insert_ne by done. by left.
  - eexists. split; [reflexivity|]. split; [|done]. by left.
Qed.

Lemma markAll_run (tracked : string) (tasks : list ClickUpTask.t) st :
  ∃ st',
    forEachMap tasks (markTracked dateNow tracked) st =
      (Return (map (λ task, ClickUpTask.set_isCurrentlyTracked
                              (Some (String.eqb (ClickUpTask.id task) tracked)) task)
                   tasks), st') ∧
    (∀ k, is_Some (internalTimerStartTimes st' !! k) →
          is_Some (internalTimerStartTimes st !! k) ∨ k = tracked) ∧
    env st' = env st ∧ requests st' = requests st.
Proof.
  revert st. induction tasks as [|task rest IH]; intros st; simpl.
  - exists st. split; [done|]. split; [by left | done].
  - destruct (markTracked_run tracked task st) as (st1 & H1 & K1 & E1 & R1).
    destruct (IH st1) as (st2 & H2 & K2 & E2 & R2).
    exists st2. split; [|split].
    + rewrite (bind_Return _ _ _ _ _ H1). by rewrite (bind_Return _ _ _ _ _ H2).
    + intros k Hk. destruct (K2 k Hk) as [Hk1|]; [by apply K1 | by right].
    + split; congruence.
Qed.

(** Reconciliation always completes; afterwards every key of the registry
    is the (truthy) identifier it was given. *)
Lemma reconcileTimers_run (currentlyTrackedTaskId : option string)
    (filteredTasks : list ClickUpTask.t) st :
  ∃ st',
    reconcileTimers dateNow currentlyTrackedTaskId filteredTasks st =
      (Return (flagged currentlyTrackedTaskId filteredTasks), st') ∧
    (∀ k, is_Some (internalTimerStartTimes st' !! k) →
          someNonEmpty currentlyTrackedTaskId = Some k) ∧
    env st' = env st ∧ requests st' = requests st.
Proof.
  unfold reconcileTimers, flagged.
  destruct (someNonEmpty currentlyTrackedTaskId) as [tracked|].
  - unfold bind at 1. unfold gets at 1.
    match goal with |- context [forEach ?ks ?body] =>
      destruct (purge_run
        (λ prevTaskId, "Cleared internal timer for previous task " +:+ prevTaskId +:+
             " (tracking switched to " +:+ tracked +:+ ", time_spent updated)") ks st)
        as (st1 & H1 & K1 & E1 & R1)
    end.
    destruct (markAll_run tracked filteredTasks st1) as (st2 & H2 & K2 & E2 & R2).
    exists st2. split; [|split].
    + by rewrite (bind_Return _ _ _ _ _ H1).
    + intros k Hk. f_equal. destruct (K2 k Hk) as [Hk1|]; [|done].
      rewrite K1 in Hk1.
      destruct (decide (k ∈ _)) as [|Hnin] in Hk1; [by destruct Hk1 as [? ?]|].
      destruct (String.eqb_spec k tracked) as [|Hne]; [done|].
      exfalso. apply Hnin. rewrite list_elem_of_In. apply filter_In. split.
      * rewrite <- list_elem_of_In. apply elem_of_elements. by apply elem_of_dom.
      * by destruct (String.eqb_spec k tracked).
    + split; congruence.
  - unfold bind, gets, modify, log, ret.
    destruct (0 <? size (internalTimerStartTimes st))%nat eqn:Hsz; simpl.
    + eexists. split; [reflexivity|]. split; [|done]. simpl.
      intros k [v Hk]. by rewrite lookup_empty in Hk.
    + exists st. split; [done|]. split; [|done].
      apply Nat.ltb_ge in Hsz. assert (size (internalTimerStartTimes st) = 0%nat) as H0 by lia.
      apply map_size_empty_iff in H0. rewrite H0.
      intros k [v Hk]. by rewrite lookup_empty in Hk.
Qed.

(** A registry whose keys all equal one identifier has at most one entry. *)
Lemma registry_at_most_one (m : gmap string Z) (o : option string) :
  (∀ k, is_Some (m !! k) → o = Some k) →
  (size m ≤ 1)%nat ∧ (o = None → m = ∅).
Proof.
  intros H. split.
  - destruct o as [i|].
    + rewrite <- size_dom. etrans; [apply (subseteq_size _ ({[i]} : gset string))|].
      * intros k Hk%elem_of_dom. apply H in Hk. inversion Hk. set_solver.
      * by rewrite size_singleton.
    + assert (m = ∅) as ->; [|rewrite map_size_empty; lia].
      apply map_empty. intros k. destruct (m !! k) eqn:E; [|done].
      pose proof (H k (mk_is_Some _ _ E)). discriminate.
  - intros ->. apply map_empty. intros k. destruct (m !! k) eqn:E; [|done].
    pose proof (H k (mk_is_Some _ _ E)). discriminate.
Qed.

End Reconciliation.

(** ** A completed full fetch *)

Section FullFetch.
Context {W : Type}.
Variable http : string → ∀ r : Request, W → (JsError.t + payload r) * W.
Variable dateNow : W → Z.
Variable cfg : Config.
Implicit Types st : State W.

(** The phases of a run of [getInProgressTasks] that returns: the team and
    user requests, the current-timer query, the walk, the filter and the
    reconciliation. *)
Lemma getInProgressTasks_inv fuel st tasks st' :
  getInProgressTasks http dateNow cfg fuel st = (Return tasks, st') →
  ∃ client team0 currentUserId remote stu stu' stq stq' walked stw,
    requests stu = requests st ++ [GetTeams] ∧
    getCurrentUserId http client stu = (Return currentUserId, stu') ∧
    (requests stq = requests st ++ [GetTeams] ∨
     requests stq = requests st ++ [GetTeams; GetUser]) ∧
    internalTimerStartTimes stq = internalTimerStartTimes st ∧
    getCurrentTimeEntryTaskId http client (targetTeam cfg team0) stq = (Return remote, stq') ∧
    reconcileTimers dateNow remote
      (List.filter (taskFilter currentUserId (configuredStatuses cfg)) walked) stw
      = (Return tasks, st').
Proof.
  unfold getInProgressTasks. intros H.
  apply bind_Return_inv in H as (oc & st1 & Hc & H).
  destruct (getApiClient_run cfg st) as (st1' & Hc' & _ & R1 & T1 & _).
  rewrite Hc' in Hc. inversion Hc; subst oc st1'. clear Hc Hc'.
  destruct (nonEmpty (configuredToken cfg)); [|done].
  apply tryCatch_inv in H as [(a & H & Ha)|[(e & st2 & _ & H)|[_ H]]]; [| |done].
  2:{ destruct (JsError.response e) as [r|]; [|done].
      by destruct (JsError.status r =? 401). }
  inversion Ha; subst a. clear Ha.
  apply bind_Return_inv in H as (teams & st2 & Hteams & H).
  apply request_inv in Hteams as (res & e2 & _ & -> & _).
  destruct teams as [[|team0 teams]|]; [done| |done].
  apply bind_Return_inv in H as (uid & st3 & Huid & H).
  pose proof (getCurrentUserId_requests _ _ _ _ _ Huid) as [R3 T3].
  apply bind_Return_inv in H as ([] & st4 & Hlog & H).
  unfold log, modify in Hlog. inversion Hlog; subst st4. clear Hlog.
  apply bind_Return_inv in H as (remote & st5 & Hcur & H).
  apply bind_Return_inv in H as ([] & st6 & _ & H).
  apply bind_Return_inv in H as ([] & st7 & _ & H).
  apply bind_Return_inv in H as (spaces & st8 & _ & H).
  apply bind_Return_inv in H as (walked & stw & _ & H).
  exists (configuredToken cfg), team0, uid, remote, (set_env e2 GetTeams st1), st3,
    (add_log ("Current user ID: " +:+ uid +:+ " (type: string)") st3), st5, walked, stw.
  split; [|split; [|split; [|split; [|split]]]]; try done.
  - simpl. by rewrite R1.
  - simpl in *. rewrite R1 in R3.
    destruct R3 as [->| ->]; [by left|right]. by rewrite <- app_assoc.
  - simpl. rewrite T3. simpl. done.
Qed.

(** The tasks a full fetch returns are the walked tasks that pass the
    filter, with the tracking flag written on them. *)
Lemma getInProgressTasks_filtered fuel st tasks st' :
  getInProgressTasks http dateNow cfg fuel st = (Return tasks, st') →
  ∃ client currentUserId stu stu',
    requests stu = requests st ++ [GetTeams] ∧
    getCurrentUserId http client stu = (Return currentUserId, stu') ∧
    ∀ task, task ∈ tasks →
      isAssignedToMe currentUserId task = true ∧
      statusMatches (configuredStatuses cfg) task = true.
Proof.
  intros H.
  apply getInProgressTasks_inv in H
    as (client & team0 & uid & remote & stu & stu' & stq & stq' & walked & stw &
        Ru & Hu & _ & _ & _ & H).
  exists client, uid, stu, stu'. split; [done|]. split; [done|].
  destruct (reconcileTimers_run dateNow remote
              (List.filter (taskFilter uid (configuredStatuses cfg)) walked) stw)
    as (st2 & Hrun & _).
  rewrite Hrun in H. inversion H; subst tasks st2. clear H Hrun.
  assert (∀ task, task ∈ List.filter (taskFilter uid (configuredStatuses cfg)) walked →
            isAssignedToMe uid task = true ∧
            statusMatches (configuredStatuses cfg) task = true) as Hf.
  { intros task Hin. apply list_elem_of_In, filter_In in Hin as [_ Hin].
    rewrite taskFilter_and in Hin. by apply andb_true_iff in Hin. }
  unfold flagged. destruct (someNonEmpty remote) as [tracked|]; [|done].
  intros task Hin. apply list_elem_of_fmap in Hin as (task0 & -> & Hin).
  by apply Hf in Hin.
Qed.

(** [getApiClient] does not invent a user. *)
Lemma getApiClient_no_user st :
  someNonEmpty (currentUserId st) = None →
  someNonEmpty (currentUserId (snd (getApiClient cfg st))) = None.
Proof.
  intros Hnone. unfold getApiClient.
  destruct (nonEmpty (configuredToken cfg)); simpl; [|done].
  unfold bind, gets, modify, ret. destruct (apiClient st) as [tok|]; [|done].
  by destruct (String.eqb tok (configuredToken cfg)).
Qed.

(** The tasks a full fetch returns pass the filter for the user that this
    run's [getCurrentUserId] returns, in the state the run calls it in. *)
Lemma getInProgressTasks_filtered_for fuel st tasks st' :
  getInProgressTasks http dateNow cfg fuel st = (Return tasks, st') →
  ∃ u stu',
    getCurrentUserId http (configuredToken cfg) (afterTeams http cfg st) = (Return u, stu') ∧
    (someNonEmpty (currentUserId st) = None →
     ∃ userId e,
       http (configuredToken cfg) GetUser (env (afterTeams http cfg st)) = (inr userId, e) ∧
       u = jsString userId) ∧
    ∀ task, task ∈ tasks →
      isAssignedToMe u task = true ∧
      statusMatches (configuredStatuses cfg) task = true.
Proof.
  unfold getInProgressTasks. intros H.
  pose proof (getApiClient_no_user st) as Hno.
  apply bind_Return_inv in H as (oc & st1 & Hc & H).
  destruct (getApiClient_run cfg st) as (st1' & Hc' & E1 & _).
  rewrite Hc' in Hc. inversion Hc; subst oc st1'. clear Hc.
  destruct (nonEmpty (configuredToken cfg)); [|done].
  apply tryCatch_inv in H as [(a & H & Ha)|[(e & st2 & _ & H)|[_ H]]]; [| |done].
  2:{ destruct (JsError.response e) as [r|]; [|done].
      by destruct (JsError.status r =? 401). }
  inversion Ha; subst a. clear Ha.
  apply bind_Return_inv in H as (teams & st2 & Hteams & H).
  apply request_inv in Hteams as (res & e2 & Hreq & -> & _).
  assert (afterTeams http cfg st = set_env e2 GetTeams st1) as Hstu.
  { unfold afterTeams. rewrite Hc'. simpl. rewrite <- E1, Hreq. done. }
  rewrite Hc' in Hno. simpl in Hno.
  destruct teams as [[|team0 teams]|]; [done| |done].
  apply bind_Return_inv in H as (uid & st3 & Huid & H).
  rewrite Hstu. exists uid, st3. split; [done|]. split.
  { intros Hnone. specialize (Hno Hnone).
    revert Huid. unfold getCurrentUserId. unfold bind at 1. unfold gets at 1.
    simpl. rewrite Hno. intros Huid.
    apply tryCatch_inv in Huid as [(a & Huid & Ha)|[(e & st4 & _ & Huid)|[_ Huid]]];
      [|done..].
    inversion Ha; subst a. clear Ha.
    apply bind_Return_inv in Huid as (userId & st4 & Hreq' & Huid).
    apply (request_inv http _ GetUser) in Hreq' as (res' & e' & Hhttp & -> & Hres).
    destruct res' as [error|v]; [done|]. inversion Hres; subst v.
    unfold bind, modify, ret in Huid. inversion Huid; subst.
    exists userId, e'. split; [exact Hhttp | done]. }
  apply bind_Return_inv in H as ([] & st4 & _ & H).
  apply bind_Return_inv in H as (remote & st5 & _ & H).
  apply bind_Return_inv in H as ([] & st6 & _ & H).
  apply bind_Return_inv in H as ([] & st7 & _ & H).
  apply bind_Return_inv in H as (spaces & st8 & _ & H).
  apply bind_Return_inv in H as (walked & stw & _ & H).
  destruct (reconcileTimers_run dateNow remote
              (List.filter (taskFilter uid (configuredStatuses cfg)) walked) stw)
    as (stz & Hrun & _).
  rewrite Hrun in H. inversion H; subst tasks stz. clear H Hrun.
  assert (∀ task, task ∈ List.filter (taskFilter uid (configuredStatuses cfg)) walked →
            isAssignedToMe uid task = true ∧
            statusMatches (configuredStatuses cfg) task = true) as Hf.
  { intros task Hin. apply list_elem_of_In, filter_In in Hin as [_ Hin].
    rewrite taskFilter_and in Hin. by apply andb_true_iff in Hin. }
  unfold flagged. destruct (someNonEmpty remote) as [tracked|]; [|done].
  intros task Hin. apply list_elem_of_fmap in Hin as (task0 & -> & Hin).
  by apply Hf in Hin.
Qed.

End FullFetch.

(** * Properties of the specification *)

Lemma someNonEmpty_Some (o : option string) (k : string) :
  someNonEmpty o = Some k → o = Some k.
Proof.
  destruct o as [i|]; simpl; [|done]. by destruct (nonEmpty i).
Qed.

(** C2.  After every full fetch that completes, the reconciliation at its
    end leaves at most one entry in the local timer registry; the key of an
    entry equals the task identifier that the remote service reported as
    currently tracked to this run's current-timer query (the query issued
    right after the run's team and user requests), and when the remote
    reported no current timer the registry is empty. *)
Theorem reconciliation_invariant {W : Type} (http : Remote W) (dateNow : W → Z)
    (cfg : Config) (fuel : nat) (st st' : State W) (tasks : list ClickUpTask.t) :
  getInProgressTasks http dateNow cfg fuel st = (Return tasks, st') →
  ∃ client team stq stq' remote,
    (requests stq = requests st ++ [GetTeams] ∨
     requests stq = requests st ++ [GetTeams; GetUser]) ∧
    getCurrentTimeEntryTaskId http client team stq = (Return remote, stq') ∧
    (size (internalTimerStartTimes st') ≤ 1)%nat ∧
    (∀ k, is_Some (internalTimerStartTimes st' !! k) → remote = Some k) ∧
    (remote = None → internalTimerStartTimes st' = ∅).
Proof.
  intros H.
  apply getInProgressTasks_inv in H
    as (client & team0 & uid & remote & stu & stu' & stq & stq' & walked & stw &
        _ & _ & Rq & _ & Hq & H).
  exists client, (targetTeam cfg team0), stq, stq', remote.
  split; [done|]. split; [done|].
  destruct (reconcileTimers_run dateNow remote
              (List.filter (taskFilter uid (configuredStatuses cfg)) walked) stw)
    as (st2 & Hrun & Hkeys & _).
  rewrite Hrun in H. inversion H; subst st2. clear H Hrun.
  assert (∀ k, is_Some (internalTimerStartTimes st' !! k) → remote = Some k) as Hk.
  { intros k Hs. by apply someNonEmpty_Some, Hkeys. }
  destruct (registry_at_most_one _ _ Hk) as [Hsize Hempty]. done.
Qed.

Lemma reconciliation_invariant_witness :
  ∃ tasks st',
    getInProgressTasks (Fixture.http Fixture.shared) Fixture.clock Fixture.cfg 101
      Fixture.trackingT1 = (Return tasks, st') ∧
    (size (internalTimerStartTimes st') ≤ 1)%nat ∧
    internalTimerStartTimes st' !! "old" = None.
Proof.
  assert (∃ tasks st',
    getInProgressTasks (Fixture.http Fixture.shared) Fixture.clock Fixture.cfg 101
      Fixture.trackingT1 = (Return tasks, st')) as (tasks & st' & H).
  { vm_compute. eexists _, _. reflexivity. }
  exists tasks, st'. split; [exact H|].
  destruct (reconciliation_invariant _ _ _ _ _ _ _ H)
    as (client & team & stq & stq' & remote & _ & _ & Hsize & Hkeys & _).
  split; [exact Hsize|].
  destruct (internalTimerStartTimes st' !! "old") eqn:E; [|reflexivity].
  exfalso.
  assert (remote = Some "old") as Hold by (apply Hkeys; eauto).
  assert (is_Some (internalTimerStartTimes st' !! "t1")) as Ht1.
  { revert H. vm_compute. intros H. inversion H. subst st'. vm_compute. eauto. }
  apply Hkeys in Ht1. congruence.
Defined.

(** The precondition of the status test below.  A status object whose label
    is the empty string is tested on the text "[object Object]", not on its
    label: with the empty string configured as an in-progress status the
    label is a member of the configured set, and the test fails.  The
    statuses of the service carry a name. *)
Lemma empty_label_object_is_not_tested_on_its_label :
  ¬ (statusMatches (configuredStatuses Fixture.emptyStatusCfg) Fixture.emptyLabelTask = true ↔
     Js.trim (Js.toLowerCase (statusLabel (ClickUpTask.status Fixture.emptyLabelTask)))
       ∈ map Js.toLowerCase
           (default defaultStatuses (inProgressStatuses Fixture.emptyStatusCfg))).
Proof.
  intros [_ H].
  assert (statusMatches (configuredStatuses Fixture.emptyStatusCfg) Fixture.emptyLabelTask
          = false) as Hf by reflexivity.
  rewrite H in Hf; [discriminate|]. vm_compute. constructor.
Qed.

(** C6.  A fetched task (its status carries a label, which is not the empty
    string) passes the status test if and only if the label, lower-cased and
    trimmed, is a member of the configured in-progress statuses, each
    lower-cased; the configured set defaults to in progress, active, working,
    in-progress; the filter is the conjunction of the assignment test and the
    status test, and every task a full fetch returns passes both, the
    assignment test being that of the user this very run has asked for:
    the user the service names in its answer to the run's user request,
    when the run starts without a remembered user. *)
Theorem status_test_iff_label_member {W : Type} (http : Remote W) (dateNow : W → Z)
    (cfg : Config) :
  (∀ task, statusLabel (ClickUpTask.status task) ≠ "" →
     (statusMatches (configuredStatuses cfg) task = true ↔
      Js.trim (Js.toLowerCase (statusLabel (ClickUpTask.status task)))
        ∈ map Js.toLowerCase (default defaultStatuses (inProgressStatuses cfg)))) ∧
  (inProgressStatuses cfg = None →
     configuredStatuses cfg = ["in progress"; "active"; "working"; "in-progress"]) ∧
  (∀ currentUserId task,
     taskFilter currentUserId (configuredStatuses cfg) task =
     isAssignedToMe currentUserId task && statusMatches (configuredStatuses cfg) task) ∧
  (∀ fuel st tasks st',
     getInProgressTasks http dateNow cfg fuel st = (Return tasks, st') →
     ∃ me stu',
       getCurrentUserId http (configuredToken cfg) (afterTeams http cfg st)
         = (Return me, stu') ∧
       (someNonEmpty (currentUserId st) = None →
        ∃ userId e,
          http (configuredToken cfg) GetUser (env (afterTeams http cfg st))
            = (inr userId, e) ∧
          me = jsString userId) ∧
       ∀ task, task ∈ tasks →
         isAssignedToMe me task = true ∧
         statusMatches (configuredStatuses cfg) task = true).
Proof.
  split; [|split; [|split]].
  - intros task Hne. unfold statusMatches.
    rewrite (statusValue_label _ Hne). apply arrayIncludes_elem_of.
  - intros H. unfold configuredStatuses. by rewrite H.
  - intros. apply taskFilter_and.
  - intros fuel st tasks st' H.
    exact (getInProgressTasks_filtered_for http dateNow cfg fuel st tasks st' H).
Qed.

Lemma status_test_iff_label_member_witness :
  statusLabel (ClickUpTask.status Fixture.spacedTask) = " In Progress " ∧
  statusMatches (configuredStatuses (mkConfig "pk_token" None None "" (Some ["In Progress"])))
                Fixture.spacedTask = true ∧
  statusMatches (configuredStatuses Fixture.cfg) Fixture.spacedTask = true ∧
  ∃ tasks st',
    getInProgressTasks (Fixture.http Fixture.shared) Fixture.clock Fixture.cfg 101
      (Fixture.start Fixture.world0) = (Return tasks, st') ∧
    Forall (λ task, isAssignedToMe "42" task = true ∧
                    statusMatches (configuredStatuses Fixture.cfg) task = true) tasks.
Proof.
  split; [reflexivity|]. split; [|split].
  - apply (status_test_iff_label_member (Fixture.http Fixture.bare) Fixture.clock
             (mkConfig "pk_token" None None "" (Some ["In Progress"]))).
    + vm_compute. discriminate.
    + vm_compute. constructor.
  - apply (status_test_iff_label_member (Fixture.http Fixture.bare) Fixture.clock
             Fixture.cfg).
    + vm_compute. discriminate.
    + vm_compute. constructor.
  - destruct (getInProgressTasks (Fixture.http Fixture.shared) Fixture.clock Fixture.cfg 101
                (Fixture.start Fixture.world0)) as [o st'] eqn:Hrun.
    assert (∃ tasks, o = Return tasks) as (tasks & ->).
    { revert Hrun. vm_compute. intros [= <- _]. by eexists. }
    exists tasks, st'. split; [reflexivity|].
    destruct (status_test_iff_label_member (Fixture.http Fixture.shared) Fixture.clock
                Fixture.cfg) as (_ & _ & _ & Hfetch).
    destruct (Hfetch _ _ _ _ Hrun) as (me & stu' & _ & Hme & Hall).
    destruct (Hme eq_refl) as (userId & e & Hhttp & ->).
    vm_compute in Hhttp. inversion Hhttp; subst userId.
    apply Forall_forall. exact Hall.
Defined.

(** C7.  A task is classified as assigned to the current user if and only
    if one of its assignees, normalised to a string from the flat [id], the
    nested [user.id] or the flat [user_id], equals the current user's
    identifier string; a task without such an assignee is not in the filtered
    result, whatever its status, and every task a full fetch returns has
    one. *)
Theorem assigned_iff_normalized_assignee {W : Type} (http : Remote W) (dateNow : W → Z)
    (cfg : Config) (currentUserId : string) :
  (∀ task,
     isAssignedToMe currentUserId task = true ↔
     ∃ a, a ∈ default [] (ClickUpTask.assignees task) ∧
          normalizeAssignee a = currentUserId) ∧
  (∀ v username, truthy (Some v) = true →
     normalizeAssignee (Assignee.mk (Some v) username None None) = jsString (Some v) ∧
     normalizeAssignee (Assignee.mk None username (Some (IdRef.mk (Some v))) None)
       = jsString (Some v) ∧
     normalizeAssignee (Assignee.mk None username None (Some v)) = jsString (Some v)) ∧
  (∀ inProgress tasks task,
     (∀ a, a ∈ default [] (ClickUpTask.assignees task) →
           normalizeAssignee a ≠ currentUserId) →
     task ∉ List.filter (taskFilter currentUserId inProgress) tasks) ∧
  (∀ fuel st tasks st',
     getInProgressTasks http dateNow cfg fuel st = (Return tasks, st') →
     ∃ client me stu stu',
       requests stu = requests st ++ [GetTeams] ∧
       getCurrentUserId http client stu = (Return me, stu') ∧
       ∀ task, task ∈ tasks →
         ∃ a, a ∈ default [] (ClickUpTask.assignees task) ∧ normalizeAssignee a = me).
Proof.
  split; [|split; [|split]].
  - intros task. apply isAssignedToMe_spec.
  - intros v username Hv. unfold normalizeAssignee, jsOr.
    cbn [Assignee.id Assignee.user Assignee.user_id IdRef.id].
    repeat (first [rewrite Hv | progress change (truthy None) with false]; cbv iota).
    done.
  - intros inProgress tasks task Hnone Hin.
    apply list_elem_of_In, filter_In in Hin as [_ Hin].
    rewrite taskFilter_and in Hin. apply andb_true_iff in Hin as [Hin _].
    apply isAssignedToMe_spec in Hin as (a & Ha & Heq). by apply (Hnone a).
  - intros fuel st tasks st' H.
    apply getInProgressTasks_filtered in H as (client & me & stu & stu' & R & Hu & Hall).
    exists client, me, stu, stu'. split; [done|]. split; [done|].
    intros task Hin. apply isAssignedToMe_spec. by apply Hall.
Qed.

Lemma assigned_iff_normalized_assignee_witness :
  normalizeAssignee Fixture.flatId = "7" ∧
  normalizeAssignee Fixture.nestedId = "7" ∧
  normalizeAssignee Fixture.flatUserId = "7" ∧
  isAssignedToMe "42" Fixture.spacedTask = true ∧
  Fixture.spacedTask ∉ List.filter (taskFilter "7" defaultStatuses) [Fixture.spacedTask].
Proof.
  destruct (assigned_iff_normalized_assignee (Fixture.http Fixture.bare) Fixture.clock
              Fixture.cfg "42") as (Hiff & Hshape & _).
  destruct (assigned_iff_normalized_assignee (Fixture.http Fixture.bare) Fixture.clock
              Fixture.cfg "7") as (_ & _ & Hout & _).
  destruct (Hshape (JNum 7) None eq_refl) as (H1 & _ & H3).
  destruct (Hshape (JStr "7") None eq_refl) as (_ & H2 & _).
  split; [exact H1|]. split; [exact H2|]. split; [exact H3|]. split.
  - apply Hiff. exists Fixture.me. split; [vm_compute; constructor | reflexivity].
  - apply Hout. intros a Ha. vm_compute in Ha.
    apply list_elem_of_singleton in Ha. subst a. vm_compute. discriminate.
Defined.

(** ** Pagination *)

Section Pagination.
Context {W : Type}.
Variable http : Remote W.
Variables (client listId : string) (assignee : option string).
Implicit Types st : State W.

Lemma pageRequests_S (from n : nat) :
  pageRequests listId assignee from (S n) =
  GetListTasks listId from assignee :: pageRequests listId assignee (S from) n.
Proof. reflexivity. Qed.

(** Whatever the server answers, the loop ends within its first 101
    iterations. *)
Lemma fetchPages_ends (k : nat) :
  ∀ p fuel all st, (p + k = 100)%nat → (k < fuel)%nat →
  ∃ o st' n,
    fetchPages http fuel client listId assignee p all st = (o, st') ∧
    o ≠ Diverge ∧ (1 ≤ n ≤ k + 1)%nat ∧
    requests st' = requests st ++ pageRequests listId assignee p n.
Proof.
  induction k as [|k IH]; intros p fuel all st Hp Hfuel;
    (destruct fuel as [|fuel]; [lia|]); simpl.
  - unfold bind at 1.
    destruct (request http client (GetListTasks listId p assignee) st)
      as [[tasksField|error|] st1] eqn:E;
      apply request_inv in E as (res & e' & _ & -> & Ho).
    + replace (100 <? p + 1)%nat with true by (symmetry; apply Nat.ltb_lt; lia).
      eexists _, _, 1%nat. split; [reflexivity|]. split; [done|]. split; [lia|]. done.
    + eexists _, _, 1%nat. split; [reflexivity|]. split; [done|]. split; [lia|]. done.
    + by destruct res.
  - unfold bind at 1.
    destruct (request http client (GetListTasks listId p assignee) st)
      as [[tasksField|error|] st1] eqn:E;
      apply request_inv in E as (res & e' & _ & -> & Ho).
    + replace (100 <? p + 1)%nat with false by (symmetry; apply Nat.ltb_ge; lia).
      destruct (length (default [] tasksField) =? pageSize)%nat.
      * destruct (IH (p + 1)%nat fuel (all ++ default [] tasksField)
                     (set_env e' (GetListTasks listId p assignee) st))
          as (o & st' & n & Hrun & Ho' & Hn & Hreq); [lia..|].
        exists o, st', (S n). split; [exact Hrun|]. split; [done|]. split; [lia|].
        rewrite Hreq. simpl. rewrite <- app_assoc. simpl.
        rewrite pageRequests_S. by replace (S p) with (p + 1)%nat by lia.
      * eexists _, _, 1%nat. split; [reflexivity|]. split; [done|]. split; [lia|]. done.
    + eexists _, _, 1%nat. split; [reflexivity|]. split; [done|]. split; [lia|]. done.
    + by destruct res.
Qed.

(** A server that answers the listing of this list by page number. *)
Variable pg : nat → option (list ApiTask.t).
Hypothesis Hpg : ∀ w p, fst (http client (GetListTasks listId p assignee) w) = inr (pg p).

Lemma request_page p st :
  ∃ e', request http client (GetListTasks listId p assignee) st =
        (Return (pg p), set_env e' (GetListTasks listId p assignee) st).
Proof.
  destruct (http client (GetListTasks listId p assignee) (env st)) as [res e'] eqn:E.
  pose proof (Hpg (env st) p) as H. rewrite E in H. simpl in H. subst res.
  exists e'. by apply request_ok.
Qed.

(** Against such a server the loop stops at the first short page, or, when
    the pages up to page 99 are all full, after page 100 with a warning. *)
Lemma fetchPages_paged (k : nat) :
  ∀ p fuel all st, (p + k = 100)%nat → (k < fuel)%nat →
  ∃ all' st',
    fetchPages http fuel client listId assignee p all st = (Return all', st') ∧
    ((∃ q, (p ≤ q < 100)%nat ∧
           (∀ r, (p ≤ r < q)%nat → length (default [] (pg r)) = pageSize) ∧
           length (default [] (pg q)) ≠ pageSize ∧
           requests st' = requests st ++ pageRequests listId assignee p (q + 1 - p) ∧
           logged st' = logged st) ∨
     ((∀ r, (p ≤ r < 100)%nat → length (default [] (pg r)) = pageSize) ∧
      requests st' = requests st ++ pageRequests listId assignee p (101 - p) ∧
      logged st' = logged st ++ [paginationWarning listId])).
Proof.
  induction k as [|k IH]; intros p fuel all st Hp Hfuel;
    (destruct fuel as [|fuel]; [lia|]); simpl;
    destruct (request_page p st) as (e' & Hreq);
    rewrite (bind_Return _ _ _ _ _ Hreq).
  - replace (100 <? p + 1)%nat with true by (symmetry; apply Nat.ltb_lt; lia).
    eexists _, _. split; [reflexivity|]. right. split; [intros; lia|].
    replace (101 - p)%nat with 1%nat by lia. done.
  - replace (100 <? p + 1)%nat with false by (symmetry; apply Nat.ltb_ge; lia).
    destruct (length (default [] (pg p)) =? pageSize)%nat eqn:Hfull.
    + apply Nat.eqb_eq in Hfull.
      destruct (IH (p + 1)%nat fuel (all ++ default [] (pg p))
                   (set_env e' (GetListTasks listId p assignee) st))
        as (all' & st' & Hrun & Hcases); [lia..|].
      exists all', st'. split; [exact Hrun|].
      destruct Hcases as [(q & Hq & Hbelow & Hshort & Hr & Hl)|(Hall & Hr & Hl)].
      * left. exists q. split; [lia|]. split; [|split; [done|split; [|done]]].
        -- intros r Hrq. destruct (decide (r = p)) as [->|]; [done|]. apply Hbelow. lia.
        -- rewrite Hr. simpl. rewrite <- app_assoc. simpl.
           replace (q + 1 - p)%nat with (S (q + 1 - (p + 1))) by lia.
           rewrite pageRequests_S. by replace (S p) with (p + 1)%nat by lia.
      * right. split; [|split; [|done]].
        -- intros r Hrq. destruct (decide (r = p)) as [->|]; [done|]. apply Hall. lia.
        -- rewrite Hr. simpl. rewrite <- app_assoc. simpl.
           replace (101 - p)%nat with (S (101 - (p + 1))) by lia.
           rewrite pageRequests_S. by replace (S p) with (p + 1)%nat by lia.
    + apply Nat.eqb_neq in Hfull.
      eexists _, _. split; [reflexivity|]. left. exists p. split; [lia|].
      split; [intros; lia|]. split; [done|].
      replace (p + 1 - p)%nat with 1%nat by lia. done.
Qed.

End Pagination.

(** C3 (as stated, refuted).  Against a server whose pages 0 to 100 are full
    (101 full pages) and whose page 101 is short, the paginator issues 101
    requests, not 101 + 1: the loop is cut after the request for page 100,
    so that the ceiling is 101 pages, not 100. *)
Lemma pagination_ceiling_counterexample :
  (∀ p, (p < 101)%nat →
        length (default [] (Fixture.pages (Fixture.paged 101) "L" p)) = pageSize) ∧
  length (default [] (Fixture.pages (Fixture.paged 101) "L" 101)) ≠ pageSize ∧
  length (requests (snd (fetchPages (Fixture.http (Fixture.paged 101)) 200
                           "pk_token" "L" None 0 [] (Fixture.start Fixture.world0))))
    = 101%nat ∧
  ¬ (length (requests (snd (fetchPages (Fixture.http (Fixture.paged 101)) 200
                              "pk_token" "L" None 0 [] (Fixture.start Fixture.world0))))
       = (101 + 1)%nat ∨
     length (requests (snd (fetchPages (Fixture.http (Fixture.paged 101)) 200
                              "pk_token" "L" None 0 [] (Fixture.start Fixture.world0))))
       ≤ 100)%nat.
Proof.
  split; [|split; [|split]].
  - intros p Hp. simpl. replace (p <? 101)%nat with true; [reflexivity|].
    symmetry. apply Nat.ltb_lt. lia.
  - vm_compute. discriminate.
  - vm_compute. reflexivity.
  - assert (length (requests (snd (fetchPages (Fixture.http (Fixture.paged 101)) 200
                              "pk_token" "L" None 0 [] (Fixture.start Fixture.world0))))
            = 101%nat) as -> by (vm_compute; reflexivity).
    lia.
Qed.

(** C3 (amended).  For every list, pagination starts at page 0 with a page
    size of 100, continues while the returned page is exactly full, and stops
    on the first short page: a server returning N full pages followed by a
    short page receives exactly min (N + 1, 101) requests, that is N + 1 for
    N up to 100.  Against any server the loop ends, without running on, after
    at most 101 requests (pages 0 to 100), and [getTasksFromList] returns;
    against a server that always returns full pages it ends after exactly 101
    requests with the warning logged and no error. *)
Theorem pagination_requests {W : Type} (http : Remote W) (fuel : nat)
    (client listId : string) :
  (101 ≤ fuel)%nat →
  (∀ assignee st, ∃ o st' n,
     fetchPages http fuel client listId assignee 0 [] st = (o, st') ∧
     o ≠ Diverge ∧ (1 ≤ n ≤ 101)%nat ∧
     requests st' = requests st ++ pageRequests listId assignee 0 n) ∧
  (∀ space assigneeId st, ∃ tasks st',
     getTasksFromList http fuel client listId space assigneeId st = (Return tasks, st')) ∧
  (∀ assignee pg N st,
     (∀ w p, fst (http client (GetListTasks listId p assignee) w) = inr (pg p)) →
     (∀ p, (p < N)%nat → length (default [] (pg p)) = pageSize) →
     length (default [] (pg N)) ≠ pageSize →
     ∃ all st',
       fetchPages http fuel client listId assignee 0 [] st = (Return all, st') ∧
       requests st' = requests st ++ pageRequests listId assignee 0 (Nat.min (N + 1) 101) ∧
       logged st' = logged st ++
                    (if (100 <=? N)%nat then [paginationWarning listId] else [])) ∧
  (∀ assignee pg st,
     (∀ w p, fst (http client (GetListTasks listId p assignee) w) = inr (pg p)) →
     (∀ p, length (default [] (pg p)) = pageSize) →
     ∃ all st',
       fetchPages http fuel client listId assignee 0 [] st = (Return all, st') ∧
       requests st' = requests st ++ pageRequests listId assignee 0 101 ∧
       logged st' = logged st ++ [paginationWarning listId]).
Proof.
  intros Hfuel. split; [|split; [|split]].
  - intros assignee st.
    destruct (fetchPages_ends http client listId assignee 100 0%nat fuel [] st)
      as (o & st' & n & H & Ho & Hn & Hr); [lia..|].
    exists o, st', n. split; [done|]. split; [done|]. split; [lia|done].
  - intros space assigneeId st. unfold getTasksFromList.
    destruct (fetchPages_ends http client listId (someNonEmpty assigneeId) 100 0%nat fuel [] st)
      as (o & st' & n & H & Ho & _); [lia..|].
    destruct o as [all|error|]; [| |done].
    + eexists _, _. apply tryCatch_Return. by rewrite (bind_Return _ _ _ _ _ H).
    + eexists _, _. rewrite (tryCatch_Throw _ _ _ _ _ (bind_Throw _ _ _ _ _ H)).
      reflexivity.
  - intros assignee pg N st Hpg Hfull Hshort.
    destruct (fetchPages_paged http client listId assignee pg Hpg 100 0%nat fuel [] st)
      as (all & st' & H & Hcases); [lia..|].
    exists all, st'. split; [done|].
    destruct Hcases as [(q & Hq & Hbelow & Hq' & Hr & Hl)|(Hall & Hr & Hl)].
    + assert (q = N) as ->.
      { destruct (decide (q < N)%nat); [by specialize (Hfull q ltac:(lia))|].
        destruct (decide (N < q)%nat); [|lia].
        by specialize (Hbelow N ltac:(lia)). }
      replace (Nat.min (N + 1) 101) with (N + 1 - 0)%nat by lia.
      replace (100 <=? N)%nat with false by (symmetry; apply Nat.leb_gt; lia).
      by rewrite Hl, app_nil_r.
    + assert (100 ≤ N)%nat.
      { destruct (decide (N < 100)%nat); [|lia]. by specialize (Hall N ltac:(lia)). }
      replace (Nat.min (N + 1) 101) with (101 - 0)%nat by lia.
      by replace (100 <=? N)%nat with true by (symmetry; apply Nat.leb_le; lia).
  - intros assignee pg st Hpg Hfull.
    destruct (fetchPages_paged http client listId assignee pg Hpg 100 0%nat fuel [] st)
      as (all & st' & H & Hcases); [lia..|].
    exists all, st'. split; [done|].
    destruct Hcases as [(q & Hq & Hbelow & Hq' & Hr & Hl)|(Hall & Hr & Hl)]; [|done].
    by specialize (Hfull q).
Qed.

Lemma pagination_requests_witness :
  ∃ all st',
    fetchPages (Fixture.http (Fixture.paged 2)) 101 "pk_token" "L" None 0 []
               (Fixture.start Fixture.world0) = (Return all, st') ∧
    requests st' = [GetListTasks "L" 0 None; GetListTasks "L" 1 None; GetListTasks "L" 2 None] ∧
    logged st' = [].
Proof.
  destruct (pagination_requests (Fixture.http (Fixture.paged 2)) 101 "pk_token" "L")
    as (_ & _ & H & _); [lia|].
  destruct (H None (Fixture.pages (Fixture.paged 2) "L") 2%nat (Fixture.start Fixture.world0))
    as (all & st' & Hrun & Hr & Hl).
  - intros w p. reflexivity.
  - intros p Hp. simpl. replace (p <? 2)%nat with true; [reflexivity|].
    symmetry. apply Nat.ltb_lt. lia.
  - vm_compute. discriminate.
  - exists all, st'. split; [exact Hrun|]. split; [exact Hr | exact Hl].
Defined.

(** ** Starting and stopping the timer *)

Section Timers.
Context {W : Type}.
Variable http : Remote W.
Variable dateNow : W → Z.
Variable cfg : Config.
Implicit Types st : State W.

(** A run of [stopTimeTracking] once the credential and the team are there:
    the current-timer query, then the stop request, then the registry. *)
Lemma stopTimeTracking_run st team0 teams e1 :
  nonEmpty (configuredToken cfg) = true →
  http (configuredToken cfg) GetTeams (env st) = (inr (Some (team0 :: teams)), e1) →
  ∃ stq cur stq' res e3 o st',
    env stq = e1 ∧
    getCurrentTimeEntryTaskId http (configuredToken cfg) (targetTeam cfg team0) stq
      = (Return cur, stq') ∧
    someNonEmpty cur = cur ∧
    http (configuredToken cfg) (PostStopTimer (targetTeam cfg team0)) (env stq') = (res, e3) ∧
    stopTimeTracking http cfg st = (o, st') ∧
    requests st' = requests st ++ [GetTeams; GetCurrentTimeEntry (targetTeam cfg team0);
                                   PostStopTimer (targetTeam cfg team0)] ∧
    env st' = e3 ∧
    match res with
    | inr _ =>
        o = Return cur ∧
        internalTimerStartTimes st' =
          match cur with
          | Some tracked => delete tracked (internalTimerStartTimes st)
          | None => ∅
          end
    | inl error =>
        internalTimerStartTimes st' = internalTimerStartTimes st ∧
        match JsError.response error with
        | Some r =>
            if (JsError.status r =? 400) || (JsError.status r =? 404)
            then o = Return None
            else o = Throw (newError ("Failed to stop time tracking: " +:+
                                      errorMessageOf error r))
        | None => o = Throw error
        end
    end.
Proof.
  intros Htok Hteams.
  destruct (getApiClient_run cfg st) as (st1 & Hc & E1 & R1 & T1 & _).
  rewrite Htok in Hc. rewrite <- E1 in Hteams.
  pose proof (request_ok http _ _ _ _ _ Hteams) as Hreq.
  set (team := targetTeam cfg team0) in *.
  destruct (getCurrentTimeEntryTaskId_run http (configuredToken cfg) team
              (set_env e1 GetTeams st1)) as (cur & stq' & Hq & Rq & Tq & Eq).
  pose proof (getCurrentTimeEntryTaskId_truthy http _ _ _ _ _ Hq) as Hcur.
  destruct (http (configuredToken cfg) (PostStopTimer team) (env stq')) as [res e3] eqn:Hstop.
  exists (set_env e1 GetTeams st1), cur, stq', res, e3.
  unfold stopTimeTracking. rewrite (bind_Return _ _ _ _ _ Hc).
  destruct res as [error|[]].
  - pose proof (request_err http _ _ _ _ _ Hstop) as Hpost.
    erewrite tryCatch_Throw;
      [|rewrite (bind_Return _ _ _ _ _ Hreq); fold team;
        rewrite (bind_Return _ _ _ _ _ Hq); by rewrite (bind_Throw _ _ _ _ _ Hpost)].
    destruct (JsError.response error) as [r|] eqn:Hr.
    + destruct ((JsError.status r =? 400) || (JsError.status r =? 404)) eqn:Hs.
      * eexists _, _. split; [done|]. split; [done|]. split; [done|]. split; [done|].
        split; [reflexivity|]. simpl. rewrite Rq, Tq. simpl. rewrite R1, T1.
        rewrite ?Hr, ?Hs. split; [by rewrite <- !app_assoc|]. done.
      * eexists _, _. split; [done|]. split; [done|]. split; [done|]. split; [done|].
        split; [reflexivity|]. simpl. rewrite Rq, Tq. simpl. rewrite R1, T1.
        rewrite ?Hr, ?Hs. split; [by rewrite <- !app_assoc|]. done.
    + eexists _, _. split; [done|]. split; [done|]. split; [done|]. split; [done|].
      split; [reflexivity|]. simpl. rewrite Rq, Tq. simpl. rewrite R1, T1.
      rewrite ?Hr. split; [by rewrite <- !app_assoc|]. done.
  - pose proof (request_ok http _ _ _ _ _ Hstop) as Hpost.
    destruct cur as [tracked|].
    + rewrite Hcur in *.
      eexists _, _. split; [done|]. split; [done|]. split; [done|]. split; [done|].
      split.
      { apply tryCatch_Return. rewrite (bind_Return _ _ _ _ _ Hreq). fold team.
        rewrite (bind_Return _ _ _ _ _ Hq). rewrite (bind_Return _ _ _ _ _ Hpost).
        rewrite Hcur. reflexivity. }
      simpl. rewrite Rq, Tq. simpl. rewrite R1, T1.
      split; [by rewrite <- !app_assoc|]. done.
    + destruct (0 <? size (internalTimerStartTimes
                  (set_env e3 (PostStopTimer team) stq')))%nat eqn:Hsz.
      * eexists _, _. split; [done|]. split; [done|]. split; [done|]. split; [done|].
        split.
        { apply tryCatch_Return. rewrite (bind_Return _ _ _ _ _ Hreq). fold team.
          rewrite (bind_Return _ _ _ _ _ Hq). rewrite (bind_Return _ _ _ _ _ Hpost).
          simpl. unfold bind, gets, modify, log, ret. rewrite Hsz. reflexivity. }
        simpl. rewrite Rq. simpl. rewrite R1.
        split; [by rewrite <- !app_assoc|]. done.
      * eexists _, _. split; [done|]. split; [done|]. split; [done|]. split; [done|].
        split.
        { apply tryCatch_Return. rewrite (bind_Return _ _ _ _ _ Hreq). fold team.
          rewrite (bind_Return _ _ _ _ _ Hq). rewrite (bind_Return _ _ _ _ _ Hpost).
          simpl. unfold bind, gets, modify, log, ret. rewrite Hsz. reflexivity. }
        simpl. rewrite Rq. simpl. rewrite R1.
        split; [by rewrite <- !app_assoc|]. split; [done|]. split; [done|].
        simpl in Hsz. apply Nat.ltb_ge in Hsz.
        assert (size (internalTimerStartTimes stq') = 0%nat) as H0 by lia.
        by apply map_size_empty_iff in H0.
Qed.

(** A run of [startTimeTracking] once the credential and the team are
    there, by the answer to the start request. *)
Lemma startTimeTracking_run fuel taskId st team0 teams e1 res e2 :
  nonEmpty (configuredToken cfg) = true →
  http (configuredToken cfg) GetTeams (env st) = (inr (Some (team0 :: teams)), e1) →
  http (configuredToken cfg) (PostStartTimer (targetTeam cfg team0) taskId) e1 = (res, e2) →
  ∃ st2,
    env st2 = e2 ∧
    requests st2 = requests st ++ [GetTeams; PostStartTimer (targetTeam cfg team0) taskId] ∧
    internalTimerStartTimes st2 = internalTimerStartTimes st ∧
    logged st2 = logged st ∧
    match res with
    | inr _ =>
        startTimeTracking http dateNow cfg (S fuel) taskId st =
          (Return tt,
           add_log ("Started time tracking for task " +:+ taskId)
                   (set_timers (insert taskId (dateNow e2)) st2))
    | inl error =>
        match JsError.response error with
        | Some r =>
            if (JsError.status r =? 400) &&
               Js.includes (errorMessageOf error r) "already running"
            then
              startTimeTracking http dateNow cfg (S fuel) taskId st =
                (stopTimeTracking http cfg ;;
                 startTimeTracking http dateNow cfg fuel taskId)
                  (add_log "Timer already running, stopping current timer first..." st2)
            else
              startTimeTracking http dateNow cfg (S fuel) taskId st =
                (Throw (newError ("Failed to start time tracking: " +:+
                                  errorMessageOf error r)), st2)
        | None =>
            startTimeTracking http dateNow cfg (S fuel) taskId st = (Throw error, st2)
        end
    end.
Proof.
  intros Htok Hteams Hstart.
  destruct (getApiClient_run cfg st) as (st1 & Hc & E1 & R1 & T1 & L1 & _).
  rewrite Htok in Hc. rewrite <- E1 in Hteams.
  pose proof (request_ok http _ _ _ _ _ Hteams) as Hreq.
  set (team := targetTeam cfg team0) in *.
  exists (set_env e2 (PostStartTimer team taskId) (set_env e1 GetTeams st1)).
  split; [done|]. split; [by simpl; rewrite R1, <- app_assoc|].
  split; [done|]. split; [done|].
  destruct res as [error|[]].
  - assert (request http (configuredToken cfg) (PostStartTimer team taskId)
              (set_env e1 GetTeams st1)
            = (Throw error, set_env e2 (PostStartTimer team taskId) (set_env e1 GetTeams st1)))
      as Hpost by (by apply request_err).
    destruct (JsError.response error) as [r|] eqn:Hr.
    + destruct ((JsError.status r =? 400) &&
                Js.includes (errorMessageOf error r) "already running") eqn:Hs.
      * simpl. rewrite (bind_Return _ _ _ _ _ Hc).
        erewrite tryCatch_Throw;
          [|rewrite (bind_Return _ _ _ _ _ Hreq); fold team;
            by rewrite (bind_Throw _ _ _ _ _ Hpost)].
        rewrite Hr, Hs. reflexivity.
      * simpl. rewrite (bind_Return _ _ _ _ _ Hc).
        erewrite tryCatch_Throw;
          [|rewrite (bind_Return _ _ _ _ _ Hreq); fold team;
            by rewrite (bind_Throw _ _ _ _ _ Hpost)].
        rewrite Hr, Hs. reflexivity.
    + simpl. rewrite (bind_Return _ _ _ _ _ Hc).
      erewrite tryCatch_Throw;
        [|rewrite (bind_Return _ _ _ _ _ Hreq); fold team;
          by rewrite (bind_Throw _ _ _ _ _ Hpost)].
      rewrite Hr. reflexivity.
  - assert (request http (configuredToken cfg) (PostStartTimer team taskId)
              (set_env e1 GetTeams st1)
            = (Return tt, set_env e2 (PostStartTimer team taskId) (set_env e1 GetTeams st1)))
      as Hpost by (by apply request_ok).
    simpl. rewrite (bind_Return _ _ _ _ _ Hc).
    apply tryCatch_Return. rewrite (bind_Return _ _ _ _ _ Hreq). fold team.
    rewrite (bind_Return _ _ _ _ _ Hpost). reflexivity.
Qed.

(** Start then switch: the registry holds [taskA], which the remote tracks;
    the start of [taskB] is refused with "already running", the stop
    resolves and clears [taskA], and the retried start succeeds. *)
Lemma start_then_switch fuel taskA taskB t0 st team0 teams error r body
    e1 e2 e3 e4 e5 e6 e7 :
  nonEmpty (configuredToken cfg) = true →
  internalTimerStartTimes st = {[taskA := t0]} →
  http (configuredToken cfg) GetTeams (env st) = (inr (Some (team0 :: teams)), e1) →
  http (configuredToken cfg) (PostStartTimer (targetTeam cfg team0) taskB) e1
    = (inl error, e2) →
  JsError.response error = Some r → JsError.status r = 400 →
  Js.includes (errorMessageOf error r) "already running" = true →
  http (configuredToken cfg) GetTeams e2 = (inr (Some (team0 :: teams)), e3) →
  http (configuredToken cfg) (GetCurrentTimeEntry (targetTeam cfg team0)) e3
    = (inr body, e4) →
  entryTaskId body = Some taskA →
  http (configuredToken cfg) (PostStopTimer (targetTeam cfg team0)) e4 = (inr tt, e5) →
  http (configuredToken cfg) GetTeams e5 = (inr (Some (team0 :: teams)), e6) →
  http (configuredToken cfg) (PostStartTimer (targetTeam cfg team0) taskB) e6
    = (inr tt, e7) →
  ∃ st',
    startTimeTracking http dateNow cfg (S (S fuel)) taskB st = (Return tt, st') ∧
    internalTimerStartTimes st' = {[taskB := dateNow e7]} ∧
    requests st' = requests st ++
      [GetTeams; PostStartTimer (targetTeam cfg team0) taskB;
       GetTeams; GetCurrentTimeEntry (targetTeam cfg team0);
       PostStopTimer (targetTeam cfg team0);
       GetTeams; PostStartTimer (targetTeam cfg team0) taskB].
Proof.
  intros Htok Hreg H1 H2 Hresp Hs Hinc H3 H4 Hid H5 H6 H7.
  set (team := targetTeam cfg team0) in *.
  destruct (startTimeTracking_run (S fuel) taskB st team0 teams e1 _ e2 Htok H1 H2)
    as (st2 & E2 & R2 & T2 & _ & Hfirst).
  assert ((JsError.status r =? 400) &&
          Js.includes (errorMessageOf error r) "already running" = true) as Hcond
    by (by rewrite Hs, Hinc).
  rewrite Hresp, Hcond in Hfirst.
  set (stA := add_log "Timer already running, stopping current timer first..." st2) in *.
  assert (env stA = e2) as EA by done.
  rewrite <- EA in H3.
  destruct (stopTimeTracking_run stA team0 teams e3 Htok H3)
    as (stq & cur & stq' & res & e5' & o & st3 & Eq & Hq & _ & Hstop & Hrun & R3 & E3 & Hres).
  fold team in Hq, Hstop, R3.
  rewrite <- Eq in H4.
  rewrite (getCurrentTimeEntryTaskId_ok http _ _ _ _ _ H4) in Hq.
  injection Hq as Hcur Hstq'. rewrite <- Hstq' in Hstop. rewrite <- Hcur in Hres.
  simpl in Hstop. rewrite H5 in Hstop. injection Hstop as Hres' He5.
  rewrite <- Hres' in Hres. rewrite Hid in Hres. destruct Hres as [-> T3].
  rewrite He5, <- E3 in H6.
  destruct (startTimeTracking_run fuel taskB st3 team0 teams e6 _ e7 Htok H6 H7)
    as (st4 & E4 & R4 & T4 & _ & Hsecond).
  eexists. split; [|split].
  - rewrite Hfirst. rewrite (bind_Return _ _ _ _ _ Hrun). exact Hsecond.
  - simpl. rewrite T4, T3. unfold stA. simpl. rewrite T2, Hreg.
    rewrite delete_singleton_eq. apply insert_empty.
  - simpl. fold team in R2, R4. rewrite R4, R3. unfold stA. simpl. rewrite R2.
    by rewrite <- !app_assoc.
Qed.

(** *** Methods that only remove entries from the registry *)

Lemma shrinks_ret {A} (a : A) : shrinks (ret a : M W A).
Proof. intros st o st' [= _ <-]. done. Qed.

Lemma shrinks_throw {A} e : shrinks (throw e : M W A).
Proof. intros st o st' [= _ <-]. done. Qed.

Lemma shrinks_gets {A} (f : State W → A) : shrinks (gets f).
Proof. intros st o st' [= _ <-]. done. Qed.

Lemma shrinks_log msg : shrinks (log msg : M W unit).
Proof. intros st o st' [= _ <-]. done. Qed.

Lemma shrinks_set_timers (f : gmap string Z → gmap string Z) :
  (∀ m, f m ⊆ m) → shrinks (modify (set_timers f) : M W unit).
Proof. intros Hf st o st' [= _ <-]. apply Hf. Qed.

Lemma shrinks_request client r : shrinks (request http client r).
Proof. intros st o st' H. by apply request_inv in H as (res & e' & _ & -> & _). Qed.

Lemma shrinks_bind {A B} (m : M W A) (k : A → M W B) :
  shrinks m → (∀ a, shrinks (k a)) → shrinks (bind m k).
Proof.
  intros Hm Hk st o st' H.
  apply bind_inv in H as [(a & st1 & H1 & H2)|[(e & H1 & _)|[H1 _]]].
  - etrans; [by eapply Hk | by eapply Hm].
  - by eapply Hm.
  - by eapply Hm.
Qed.

Lemma shrinks_tryCatch {A} (m : M W A) h :
  shrinks m → (∀ e, shrinks (h e)) → shrinks (tryCatch m h).
Proof.
  intros Hm Hh st o st' H.
  apply tryCatch_inv in H as [(a & H1 & _)|[(e & st1 & H1 & H2)|[H1 _]]].
  - by eapply Hm.
  - etrans; [by eapply Hh | by eapply Hm].
  - by eapply Hm.
Qed.

Lemma shrinks_getApiClient : shrinks (getApiClient (W:=W) cfg).
Proof.
  intros st o st' H. destruct (getApiClient_run cfg st) as (st1 & H1 & _ & _ & T & _).
  rewrite H1 in H. inversion H; subst. by rewrite T.
Qed.

Lemma shrinks_getCurrentTimeEntryTaskId client teamId :
  shrinks (getCurrentTimeEntryTaskId http client teamId).
Proof.
  intros st o st' H.
  destruct (getCurrentTimeEntryTaskId_run http client teamId st) as (cur & st1 & H1 & _ & T & _).
  rewrite H1 in H. inversion H; subst. by rewrite T.
Qed.

(** Whatever its outcome, [stopTimeTracking] only removes entries. *)
Lemma shrinks_stopTimeTracking : shrinks (stopTimeTracking http cfg).
Proof.
  unfold stopTimeTracking.
  apply shrinks_bind; [apply shrinks_getApiClient|]. intros [client|]; [|apply shrinks_throw].
  apply shrinks_tryCatch.
  - apply shrinks_bind; [apply shrinks_request|].
    intros [[|team0 teams]|]; [apply shrinks_throw| |apply shrinks_throw].
    apply shrinks_bind; [apply shrinks_getCurrentTimeEntryTaskId|]. intros cur.
    apply shrinks_bind; [apply shrinks_request|]. intros _.
    apply shrinks_bind.
    + destruct (someNonEmpty cur) as [tracked|].
      * apply shrinks_bind; [|intros; apply shrinks_log].
        apply shrinks_set_timers. intros m. apply delete_subseteq.
      * apply shrinks_bind; [apply shrinks_gets|]. intros timers.
        destruct (0 <? size timers)%nat; [|apply shrinks_ret].
        apply shrinks_bind; [|intros; apply shrinks_log].
        apply shrinks_set_timers. intros m. apply map_empty_subseteq.
    + intros _. apply shrinks_bind; [apply shrinks_log|]. intros _. apply shrinks_ret.
  - intros error. destruct (JsError.response error) as [r|]; [|apply shrinks_throw].
    destruct ((JsError.status r =? 400) || (JsError.status r =? 404)); [|apply shrinks_throw].
    apply shrinks_bind; [apply shrinks_log|]. intros _. apply shrinks_ret.
Qed.

Lemma shrinks_throwShrinks {A} (m : M W A) : shrinks m → throwShrinks m.
Proof. intros Hm st e st' H. by eapply Hm. Qed.

Lemma throwShrinks_bind {A B} (m : M W A) (k : A → M W B) :
  shrinks m → (∀ a, throwShrinks (k a)) → throwShrinks (bind m k).
Proof.
  intros Hm Hk st e st' H.
  apply bind_inv in H as [(a & st1 & H1 & H2)|[(e' & H1 & _)|[H1 Habs]]].
  - etrans; [by eapply Hk | by eapply Hm].
  - by eapply Hm.
  - done.
Qed.

Lemma throwShrinks_tryCatch {A} (m : M W A) h :
  throwShrinks m → (∀ e, throwShrinks (h e)) → throwShrinks (tryCatch m h).
Proof.
  intros Hm Hh st e st' H.
  apply tryCatch_inv in H as [(a & H1 & Habs)|[(e' & st1 & H1 & H2)|[H1 Habs]]]; [done| |done].
  etrans; [by eapply Hh | by eapply Hm].
Qed.

(** A call of [startTimeTracking] that throws has only removed entries: the
    entry of the task is inserted after the start request succeeded, and
    nothing throws after that. *)
Lemma throwShrinks_startTimeTracking fuel taskId :
  throwShrinks (startTimeTracking http dateNow cfg fuel taskId).
Proof.
  induction fuel as [|fuel IH]; simpl.
  - intros st e st' H. done.
  - apply throwShrinks_bind; [apply shrinks_getApiClient|].
    intros [client|]; [|apply shrinks_throwShrinks, shrinks_throw].
    apply throwShrinks_tryCatch.
    + apply throwShrinks_bind; [apply (shrinks_request client GetTeams)|].
      intros [[|team0 teams]|]; [apply shrinks_throwShrinks, shrinks_throw|
                                 |apply shrinks_throwShrinks, shrinks_throw].
      apply throwShrinks_bind;
        [apply (shrinks_request client (PostStartTimer (targetTeam cfg team0) taskId))|].
      intros _.
      intros st e st' H. unfold bind, now, gets, modify, log in H. done.
    + intros error. destruct (JsError.response error) as [r|];
        [|apply shrinks_throwShrinks, shrinks_throw].
      destruct ((JsError.status r =? 400) &&
                Js.includes (errorMessageOf error r) "already running");
        [|apply shrinks_throwShrinks, shrinks_throw].
      apply throwShrinks_bind; [apply shrinks_log|]. intros _.
      apply throwShrinks_bind; [apply shrinks_stopTimeTracking|]. intros _.
      apply IH.
Qed.

End Timers.

(** C5 (as stated, refuted).  The service tracks [A], the registry holds
    [A], and the stop endpoint answers 404.  The call resolves [A], sends the
    stop request and returns none; after the stop call the entry of [A] is
    still in the registry.  Likewise, with nothing resolved and a registry
    that holds a stale entry, the registry is not cleared. *)
Lemma stop_not_found_keeps_entry_counterexample :
  (fst (getCurrentTimeEntryTaskId (Fixture.http Cases.stopNotFound) "pk_token" "team1"
          (afterTeams (Fixture.http Cases.stopNotFound) Fixture.cfg Fixture.tracksA))
     = Return (Some "A") ∧
   ∃ st',
     stopTimeTracking (Fixture.http Cases.stopNotFound) Fixture.cfg Fixture.tracksA
       = (Return None, st') ∧
     requests st' = [GetTeams; GetCurrentTimeEntry "team1"; PostStopTimer "team1"] ∧
     internalTimerStartTimes st' !! "A" = Some 5 ∧
     internalTimerStartTimes st' ≠ delete "A" (internalTimerStartTimes Fixture.tracksA)) ∧
  (fst (getCurrentTimeEntryTaskId (Fixture.http Cases.stopNotFound) "pk_token" "team1"
          (afterTeams (Fixture.http Cases.stopNotFound) Fixture.cfg Cases.staleRegistry))
     = Return None ∧
   ∃ st',
     stopTimeTracking (Fixture.http Cases.stopNotFound) Fixture.cfg Cases.staleRegistry
       = (Return None, st') ∧
     internalTimerStartTimes st' !! "old" = Some 1 ∧
     internalTimerStartTimes st' ≠ ∅).
Proof.
  split.
  - split; [vm_compute; reflexivity|].
    eexists. split; [vm_compute; reflexivity|]. split; [reflexivity|].
    split; [reflexivity|].
    intros H. apply (f_equal (λ m : gmap string Z, m !! "A")) in H.
    vm_compute in H. discriminate.
  - split; [vm_compute; reflexivity|].
    eexists. split; [vm_compute; reflexivity|]. split; [reflexivity|].
    intros H. apply (f_equal (λ m : gmap string Z, m !! "old")) in H.
    vm_compute in H. discriminate.
Qed.

(** C5 (amended).  [stopTimeTracking] asks the remote which task is tracked
    before it issues the stop request.  When the stop request succeeds, the registry
    entry of the resolved identifier is deleted, or, when none was resolved,
    the registry is emptied, and the call returns what the query resolved
    (an identifier or none).  When the stop endpoint answers 400 or 404 the
    call returns none, raises no error and leaves the registry as it was. *)
Theorem stop_resolves_then_stops {W : Type} (http : Remote W) (cfg : Config)
    (st : State W) (team0 : Ref.t) (teams : list Ref.t) (e1 : W) :
  nonEmpty (configuredToken cfg) = true →
  http (configuredToken cfg) GetTeams (env st) = (inr (Some (team0 :: teams)), e1) →
  ∃ stq cur stq' res e3 o st',
    env stq = e1 ∧
    getCurrentTimeEntryTaskId http (configuredToken cfg) (targetTeam cfg team0) stq
      = (Return cur, stq') ∧
    http (configuredToken cfg) (PostStopTimer (targetTeam cfg team0)) (env stq') = (res, e3) ∧
    stopTimeTracking http cfg st = (o, st') ∧
    requests st' = requests st ++ [GetTeams; GetCurrentTimeEntry (targetTeam cfg team0);
                                   PostStopTimer (targetTeam cfg team0)] ∧
    (res = inr tt →
       o = Return cur ∧
       match cur with
       | Some tracked =>
           internalTimerStartTimes st' = delete tracked (internalTimerStartTimes st)
       | None => internalTimerStartTimes st' = ∅
       end) ∧
    (∀ error r, res = inl error → JsError.response error = Some r →
       JsError.status r = 400 ∨ JsError.status r = 404 →
       o = Return None ∧ internalTimerStartTimes st' = internalTimerStartTimes st).
Proof.
  intros Htok Hteams.
  destruct (stopTimeTracking_run http cfg st team0 teams e1 Htok Hteams)
    as (stq & cur & stq' & res & e3 & o & st' & He & Hq & _ & Hstop & Hrun & Hr & _ & Hres).
  exists stq, cur, stq', res, e3, o, st'.
  split; [done|]. split; [done|]. split; [done|]. split; [done|]. split; [done|]. split.
  - intros ->. destruct Hres as [-> Ht]. split; [done|]. by destruct cur.
  - intros error r -> Hresp Hstatus. destruct Hres as [Ht Ho]. split; [|done].
    rewrite Hresp in Ho.
    destruct Hstatus as [Hs|Hs]; rewrite Hs in Ho; simpl in Ho; done.
Qed.

Lemma stop_resolves_then_stops_witness :
  ∃ st',
    stopTimeTracking (Fixture.http Fixture.bare) Fixture.cfg Fixture.tracksA
      = (Return (Some "A"), st') ∧
    requests st' = [GetTeams; GetCurrentTimeEntry "team1"; PostStopTimer "team1"] ∧
    internalTimerStartTimes st' = delete "A" (internalTimerStartTimes Fixture.tracksA).
Proof.
  destruct (stop_resolves_then_stops (Fixture.http Fixture.bare) Fixture.cfg
              Fixture.tracksA Fixture.team [] (Fixture.mkWorld 1001 (Some "A") []))
    as (stq & cur & stq' & res & e3 & o & st' & He & Hq & Hstop & Hrun & Hr & Hok & _).
  - reflexivity.
  - reflexivity.
  - assert (cur = Some "A") as ->.
    { destruct stq as [w rq ac cu tm lg ce]. simpl in He. subst w.
      revert Hq. vm_compute. by intros [= <- _]. }
    assert (res = inr tt) as Hres.
    { destruct stq as [w rq ac cu tm lg ce]. simpl in He. subst w.
      revert Hq. vm_compute. intros [= <-]. revert Hstop. vm_compute. by intros [= <- _]. }
    destruct (Hok Hres) as [-> Ht].
    exists st'. split; [exact Hrun|]. split; [exact Hr | exact Ht].
Defined.

(** C4 (as stated, refuted).  The retry is a new call of
    [startTimeTracking], with its own recovery: against a service that
    answers the first two start requests with 400 "already running", the
    call stops twice, sends three start requests and succeeds, instead of
    retrying once and surfacing the second refusal. *)
Lemma start_retries_more_than_once_counterexample :
  fst (startTimeTracking (Fixture.http Fixture.bare) Fixture.clock Fixture.cfg 5 "B"
         Fixture.refusingTwice) = Return tt ∧
  List.filter isStartRequest
    (requests (snd (startTimeTracking (Fixture.http Fixture.bare) Fixture.clock
                      Fixture.cfg 5 "B" Fixture.refusingTwice)))
  = [PostStartTimer "team1" "B"; PostStartTimer "team1" "B"; PostStartTimer "team1" "B"] ∧
  ¬ (length (List.filter isStartRequest
       (requests (snd (startTimeTracking (Fixture.http Fixture.bare) Fixture.clock
                         Fixture.cfg 5 "B" Fixture.refusingTwice)))) ≤ 2)%nat.
Proof.
  split; [vm_compute; reflexivity|]. split; [vm_compute; reflexivity|].
  assert (length (List.filter isStartRequest
       (requests (snd (startTimeTracking (Fixture.http Fixture.bare) Fixture.clock
                         Fixture.cfg 5 "B" Fixture.refusingTwice)))) = 3%nat) as ->
    by (vm_compute; reflexivity).
  lia.
Qed.

(** C4 (amended).  With a credential and a team, [startTimeTracking(taskId)]
    sends the start request.  On success it inserts the registry entry of
    [taskId] with the current instant.  When the start endpoint answers 400
    with a message containing "already running", it calls
    [stopTimeTracking] and then calls [startTimeTracking(taskId)] again (a
    retry that is itself subject to the same recovery).  Any other failure
    of the start request is thrown to the caller.  So starting B while the
    remote tracks A and the registry holds A, with a retry that succeeds,
    resolves and clears A and leaves a registry containing exactly B. *)
Theorem start_recovers_by_stop_then_restart {W : Type} (http : Remote W)
    (dateNow : W → Z) (cfg : Config) (fuel : nat) (taskId : string) (st : State W)
    (team0 : Ref.t) (teams : list Ref.t) (e1 e2 : W)
    (res : JsError.t + payload (PostStartTimer (targetTeam cfg team0) taskId)) :
  nonEmpty (configuredToken cfg) = true →
  http (configuredToken cfg) GetTeams (env st) = (inr (Some (team0 :: teams)), e1) →
  http (configuredToken cfg) (PostStartTimer (targetTeam cfg team0) taskId) e1 = (res, e2) →
  ∃ st2,
    env st2 = e2 ∧
    requests st2 = requests st ++ [GetTeams; PostStartTimer (targetTeam cfg team0) taskId] ∧
    internalTimerStartTimes st2 = internalTimerStartTimes st ∧
    (res = inr tt →
       ∃ st', startTimeTracking http dateNow cfg (S fuel) taskId st = (Return tt, st') ∧
              requests st' = requests st2 ∧
              internalTimerStartTimes st' =
                <[taskId := dateNow e2]> (internalTimerStartTimes st)) ∧
    (∀ error r, res = inl error → JsError.response error = Some r →
       JsError.status r = 400 →
       Js.includes (errorMessageOf error r) "already running" = true →
       startTimeTracking http dateNow cfg (S fuel) taskId st =
         (stopTimeTracking http cfg ;; startTimeTracking http dateNow cfg fuel taskId)
           (add_log "Timer already running, stopping current timer first..." st2)) ∧
    (∀ error, res = inl error →
       (∀ r, JsError.response error = Some r →
             (JsError.status r =? 400) &&
             Js.includes (errorMessageOf error r) "already running" = false) →
       ∃ thrown, startTimeTracking http dateNow cfg (S fuel) taskId st = (Throw thrown, st2) ∧
                 JsError.message thrown =
                   match JsError.response error with
                   | Some r => "Failed to start time tracking: " +:+ errorMessageOf error r
                   | None => JsError.message error
                   end) ∧
    (∀ taskA t0 error r body e3 e4 e5 e6 e7,
       internalTimerStartTimes st = {[taskA := t0]} →
       res = inl error → JsError.response error = Some r → JsError.status r = 400 →
       Js.includes (errorMessageOf error r) "already running" = true →
       http (configuredToken cfg) GetTeams e2 = (inr (Some (team0 :: teams)), e3) →
       http (configuredToken cfg) (GetCurrentTimeEntry (targetTeam cfg team0)) e3
         = (inr body, e4) →
       entryTaskId body = Some taskA →
       http (configuredToken cfg) (PostStopTimer (targetTeam cfg team0)) e4 = (inr tt, e5) →
       http (configuredToken cfg) GetTeams e5 = (inr (Some (team0 :: teams)), e6) →
       http (configuredToken cfg) (PostStartTimer (targetTeam cfg team0) taskId) e6
         = (inr tt, e7) →
       ∃ st',
         startTimeTracking http dateNow cfg (S (S fuel)) taskId st = (Return tt, st') ∧
         internalTimerStartTimes st' = {[taskId := dateNow e7]} ∧
         requests st' = requests st ++
           [GetTeams; PostStartTimer (targetTeam cfg team0) taskId;
            GetTeams; GetCurrentTimeEntry (targetTeam cfg team0);
            PostStopTimer (targetTeam cfg team0);
            GetTeams; PostStartTimer (targetTeam cfg team0) taskId]).
Proof.
  intros Htok Hteams Hstart.
  destruct (startTimeTracking_run http dateNow cfg fuel taskId st team0 teams e1 res e2
              Htok Hteams Hstart) as (st2 & He & Hr & Ht & Hl & Hres).
  exists st2. split; [done|]. split; [done|]. split; [done|]. split; [|split; [|split]].
  - intros ->. eexists. split; [exact Hres|]. split; [done|]. simpl. by rewrite Ht.
  - intros error r -> Hresp Hs Hinc. rewrite Hresp, Hs, Hinc in Hres. exact Hres.
  - intros error -> Hnot. destruct (JsError.response error) as [r|] eqn:Hresp.
    + rewrite (Hnot r eq_refl) in Hres. eexists. split; [exact Hres|]. done.
    + eexists. split; [exact Hres|]. done.
  - intros taskA t0 error r body e3 e4 e5 e6 e7 Hreg -> Hresp Hs Hinc H3 H4 Hid H5 H6 H7.
    exact (start_then_switch http dateNow cfg fuel taskA taskId t0 st team0 teams error r
             body e1 e2 e3 e4 e5 e6 e7 Htok Hreg Hteams Hstart Hresp Hs Hinc H3 H4 Hid
             H5 H6 H7).
Qed.

Lemma start_recovers_by_stop_then_restart_witness :
  ∃ st',
    startTimeTracking (Fixture.http Fixture.bare) Fixture.clock Fixture.cfg 2 "B"
      Fixture.tracksA = (Return tt, st') ∧
    internalTimerStartTimes st' = {["B" := 1007]} ∧
    requests st' = [GetTeams; PostStartTimer "team1" "B"; GetTeams;
                    GetCurrentTimeEntry "team1"; PostStopTimer "team1";
                    GetTeams; PostStartTimer "team1" "B"].
Proof.
  destruct (start_recovers_by_stop_then_restart (Fixture.http Fixture.bare) Fixture.clock
              Fixture.cfg 0 "B" Fixture.tracksA Fixture.team []
              (Fixture.mkWorld 1001 (Some "A") []) (Fixture.mkWorld 1002 (Some "A") [])
              (inl Fixture.alreadyRunning))
    as (st2 & _ & _ & _ & _ & _ & _ & Hswitch).
  - reflexivity.
  - reflexivity.
  - reflexivity.
  - exact (Hswitch "A" 5 Fixture.alreadyRunning
             (JsError.mkResponse 400 (Some "Timer is already running"))
             (Fixture.currentBody (Some "A"))
             (Fixture.mkWorld 1003 (Some "A") []) (Fixture.mkWorld 1004 (Some "A") [])
             (Fixture.mkWorld 1005 None []) (Fixture.mkWorld 1006 None [])
             (Fixture.mkWorld 1007 (Some "B") [])
             eq_refl eq_refl eq_refl eq_refl eq_refl eq_refl eq_refl eq_refl eq_refl
             eq_refl eq_refl).
Defined.




(** ** Credentials and the current-timer query *)

Lemma configuredToken_empty (cfg : Config) :
  nonEmpty (apiToken cfg) = false →
  someNonEmpty (env_CLICKUP_API_KEY cfg) = None →
  someNonEmpty (env_CLICKUP_API_TOKEN cfg) = None →
  nonEmpty (configuredToken cfg) = false.
Proof.
  intros Ha Hk Ht. unfold configuredToken, strOr. rewrite Ha.
  destruct (env_CLICKUP_API_KEY cfg) as [k|]; simpl in Hk.
  - destruct (nonEmpty k); [done|].
    destruct (env_CLICKUP_API_TOKEN cfg) as [t|]; simpl in Ht; [|done].
    by destruct (nonEmpty t).
  - destruct (env_CLICKUP_API_TOKEN cfg) as [t|]; simpl in Ht; [|done].
    by destruct (nonEmpty t).
Qed.

Lemma getApiClient_none {W : Type} (cfg : Config) (st : State W) :
  nonEmpty (configuredToken cfg) = false → getApiClient cfg st = (Return None, st).
Proof. intros H. unfold getApiClient. by rewrite H. Qed.

(** C8 (as stated, refuted).  When the current-timer endpoint answers 500,
    the query returns no identifier and logs a warning; no error reaches the
    caller, and the full fetch that runs the query returns normally.  And
    the three public operations on the local registry read no configuration:
    in a service that was given no credential they return, and raise no
    configuration error. *)
Lemma current_timer_error_swallowed_counterexample :
  (isInternallyTracked "A" (Fixture.start Fixture.world0)
     = (Return false, Fixture.start Fixture.world0) ∧
   getInternalTimerElapsed Fixture.clock "A" (Fixture.start Fixture.world0)
     = (Return 0, Fixture.start Fixture.world0) ∧
   fst (clearInternalTimer "A" (Fixture.start Fixture.world0)) = Return tt ∧
   fst (stopTimeTracking (Fixture.http Fixture.bare) Fixture.noTokenCfg
          (Fixture.start Fixture.world0)) = Throw notConfigured) ∧
  (∃ st',
     getCurrentTimeEntryTaskId (Fixture.http Fixture.brokenTimer) "pk_token" "team1"
       (Fixture.start Fixture.world0) = (Return None, st') ∧
     logged st' =
       ["Warning: Could not get current time entry: Request failed with status code 500"]) ∧
  fst (getInProgressTasks (Fixture.http Fixture.brokenTimer) Fixture.clock Fixture.cfg 101
         (Fixture.start Fixture.world0)) = Return [] ∧
  ¬ (∃ e, fst (getCurrentTimeEntryTaskId (Fixture.http Fixture.brokenTimer) "pk_token"
                 "team1" (Fixture.start Fixture.world0)) = Throw e).
Proof.
  split; [|split; [|split]].
  - split; [reflexivity|]. split; [reflexivity|]. split; reflexivity.
  - vm_compute. eexists. split; reflexivity.
  - vm_compute. reflexivity.
  - intros [e H]. vm_compute in H. discriminate.
Qed.

(** C8 (amended).  Without a configured credential (neither the setting nor
    the environment variables), every public operation that addresses the
    remote service, [startTimeTracking], [stopTimeTracking], [getTask],
    [getInProgressTasks], [debugListAllMyTasks] and [debugFetchRawTasks],
    throws the configuration error and leaves the state untouched; the
    three public operations on the local registry check no credential and
    return.  The current-timer query returns no identifier and raises no
    error whenever its request fails: silently on a 400 or 404 answer, and
    with a logged warning on any other failure. *)
Theorem unauthenticated_and_current_timer {W : Type} (http : Remote W) (dateNow : W → Z)
    (cfg : Config) :
  (nonEmpty (apiToken cfg) = false →
   someNonEmpty (env_CLICKUP_API_KEY cfg) = None →
   someNonEmpty (env_CLICKUP_API_TOKEN cfg) = None →
   ∀ fuel taskId st,
     startTimeTracking http dateNow cfg (S fuel) taskId st = (Throw notConfigured, st) ∧
     stopTimeTracking http cfg st = (Throw notConfigured, st) ∧
     getTask http cfg taskId st = (Throw notConfigured, st) ∧
     getInProgressTasks http dateNow cfg fuel st = (Throw notConfigured, st) ∧
     (∀ listTry, debugListAllMyTasks cfg listTry st = (Throw notConfigured, st)) ∧
     (∀ rawTry, debugFetchRawTasks cfg rawTry st = (Throw notConfigured, st))) ∧
  (∀ taskId (st : State W),
     (∃ elapsed, getInternalTimerElapsed dateNow taskId st = (Return elapsed, st)) ∧
     (∃ tracked, isInternallyTracked taskId st = (Return tracked, st)) ∧
     (∃ st', clearInternalTimer taskId st = (Return tt, st'))) ∧
  (∀ client team st error e',
     http client (GetCurrentTimeEntry team) (env st) = (inl error, e') →
     ∃ st',
       getCurrentTimeEntryTaskId http client team st = (Return None, st') ∧
       requests st' = requests st ++ [GetCurrentTimeEntry team] ∧
       (∀ r, JsError.response error = Some r →
             JsError.status r = 400 ∨ JsError.status r = 404 →
             logged st' = logged st) ∧
       ((∀ r, JsError.response error = Some r →
              JsError.status r ≠ 400 ∧ JsError.status r ≠ 404) →
        logged st' = logged st ++
          ["Warning: Could not get current time entry: " +:+ JsError.message error])).
Proof.
  split; [|split].
  - intros Ha Hk Ht fuel taskId st.
    pose proof (configuredToken_empty cfg Ha Hk Ht) as Hnone.
    pose proof (getApiClient_none cfg st Hnone) as Hc.
    split; [|split; [|split; [|split; [|split]]]].
    + simpl. by rewrite (bind_Return _ _ _ _ _ Hc).
    + unfold stopTimeTracking. by rewrite (bind_Return _ _ _ _ _ Hc).
    + unfold getTask. by rewrite (bind_Return _ _ _ _ _ Hc).
    + unfold getInProgressTasks. by rewrite (bind_Return _ _ _ _ _ Hc).
    + intros listTry. unfold debugListAllMyTasks. by rewrite (bind_Return _ _ _ _ _ Hc).
    + intros rawTry. unfold debugFetchRawTasks. by rewrite (bind_Return _ _ _ _ _ Hc).
  - intros taskId st. split; [|split].
    + unfold getInternalTimerElapsed, bind, gets, now, ret.
      destruct (internalTimerStartTimes st !! taskId) as [t|]; [|by eexists].
      destruct (t =? 0); by eexists.
    + by eexists.
    + by eexists.
  - intros client team st error e' Hreq.
    pose proof (request_err http _ _ _ _ _ Hreq) as Hthrow.
    unfold getCurrentTimeEntryTaskId.
    erewrite tryCatch_Throw; [|by rewrite (bind_Throw _ _ _ _ _ Hthrow)].
    destruct (JsError.response error) as [r|] eqn:Hr.
    + destruct (Z.eqb_spec (JsError.status r) 404) as [H404|H404];
        [|destruct (Z.eqb_spec (JsError.status r) 400) as [H400|H400]]; simpl.
      * eexists. split; [reflexivity|]. split; [done|]. split; [done|].
        intros Hnot. destruct (Hnot r eq_refl). done.
      * eexists. split; [reflexivity|]. split; [done|]. split; [done|].
        intros Hnot. destruct (Hnot r eq_refl). done.
      * eexists. split; [reflexivity|]. split; [done|]. split; [|done].
        intros r' [= <-] [?|?]; done.
    + eexists. split; [reflexivity|]. split; [done|]. split; [|done].
      intros r' Hr'. done.
Qed.

Lemma unauthenticated_and_current_timer_witness :
  stopTimeTracking (Fixture.http Fixture.bare) Fixture.noTokenCfg
    (Fixture.start Fixture.world0) = (Throw notConfigured, Fixture.start Fixture.world0) ∧
  getInProgressTasks (Fixture.http Fixture.bare) Fixture.clock Fixture.noTokenCfg 101
    (Fixture.start Fixture.world0) = (Throw notConfigured, Fixture.start Fixture.world0) ∧
  debugListAllMyTasks Fixture.noTokenCfg (λ _, log "=== DEBUG ===")
    (Fixture.start Fixture.world0) = (Throw notConfigured, Fixture.start Fixture.world0) ∧
  ∃ st',
    getCurrentTimeEntryTaskId (Fixture.http Fixture.brokenTimer) "pk_token" "team1"
      (Fixture.start Fixture.world0) = (Return None, st') ∧
    logged st' =
      ["Warning: Could not get current time entry: Request failed with status code 500"].
Proof.
  destruct (unauthenticated_and_current_timer (Fixture.http Fixture.bare) Fixture.clock
              Fixture.noTokenCfg) as [Hcred _].
  destruct (Hcred eq_refl eq_refl eq_refl 100%nat "B" (Fixture.start Fixture.world0))
    as (_ & Hstop & _ & Hfetch & Hlist & _).
  split; [exact Hstop|]. split; [exact Hfetch|]. split; [apply Hlist|].
  destruct (unauthenticated_and_current_timer (Fixture.http Fixture.brokenTimer)
              Fixture.clock Fixture.cfg) as (_ & _ & Hquery).
  destruct (Hquery "pk_token" "team1" (Fixture.start Fixture.world0)
              (Fixture.httpError 500 "Internal error") (Fixture.mkWorld 1001 None []) eq_refl)
    as (st' & Hrun & _ & _ & Hlog).
  exists st'. split; [exact Hrun|]. rewrite Hlog; [reflexivity|].
  intros r [= <-]. split; discriminate.
Defined.

(** ** The single-task refresh *)

(** [getTask] returns or throws. *)
Lemma getTask_ends {W : Type} (http : Remote W) (cfg : Config) (taskId : string)
    (st st' : State W) (o : Outcome (option ClickUpTask.t)) :
  getTask http cfg taskId st = (o, st') → o ≠ Diverge.
Proof.
  unfold getTask. intros H.
  apply bind_inv in H as [(client & st0 & Hc & H)|[(e & _ & ->)|[Hc _]]]; [|done|].
  - destruct client as [client|]; [|by inversion H].
    apply tryCatch_inv in H as [(a & _ & ->)|[(e & st1 & _ & H)|[H _]]]; [done| |].
    + destruct (JsError.response e) as [r|]; [|by inversion H].
      destruct (JsError.status r =? 404); [|by inversion H].
      unfold bind, log, modify, ret in H. by inversion H.
    + apply bind_inv in H as [(a & st1 & _ & H)|[(e & _ & Habs)|[H _]]];
        [by inversion H|done|].
      apply request_inv in H as (res & e' & _ & _ & Ho). by destruct res.
  - destruct (getApiClient_run cfg st) as (st0 & Hc' & _). by rewrite Hc' in Hc.
Qed.

(** C9.  [updateTask(taskId)], by the answer of the service to the request for
    the task.  When it answers 404 (not found), every entry with this
    identifier is removed from the snapshot and no error is raised.  When it
    answers with the task and the snapshot has an entry with this
    identifier, the first such entry is replaced by the task as fetched
    (identifier, name, status, url, assignees, due date, priority, estimate
    and the time spent, parsed), with the entry's owning list, with the
    entry's space when the answer carries none, and with
    [isCurrentlyTracked] set to the registry's membership test for the
    identifier; a task that is not in the snapshot is not added.  On any
    other failure of the request, and without a credential, no error is
    raised and a full refresh is started.  In every case the call
    returns. *)
Theorem update_task_merges_or_refreshes {W : Type} (http : Remote W) (cfg : Config)
    (taskId : string) (p : Provider.t) (st : State W) :
  (nonEmpty (configuredToken cfg) = true →
   (∀ error r e',
      http (configuredToken cfg) (GetTask taskId) (env st) = (inl error, e') →
      JsError.response error = Some r → JsError.status r = 404 →
      ∃ p' st1,
        updateTask http cfg taskId p st = (Return p', st1) ∧
        requests st1 = requests st ++ [GetTask taskId] ∧
        consoleErrors st1 = consoleErrors st ∧
        Provider.tasks p' =
          List.filter (λ t, negb (String.eqb (ClickUpTask.id t) taskId)) (Provider.tasks p) ∧
        occurrences taskId (Provider.tasks p') = 0%nat ∧
        Provider.loading p' = Provider.loading p ∧
        Provider.refreshesInFlight p' = Provider.refreshesInFlight p) ∧
   (∀ task e',
      http (configuredToken cfg) (GetTask taskId) (env st) = (inr task, e') →
      ∃ p' st1,
        updateTask http cfg taskId p st = (Return p', st1) ∧
        requests st1 = requests st ++ [GetTask taskId] ∧
        consoleErrors st1 = consoleErrors st ∧
        internalTimerStartTimes st1 = internalTimerStartTimes st ∧
        Provider.loading p' = Provider.loading p ∧
        Provider.refreshesInFlight p' = Provider.refreshesInFlight p ∧
        match list_find (λ t, ClickUpTask.id t = taskId) (Provider.tasks p) with
        | Some (taskIndex, existingTask) =>
            ClickUpTask.id existingTask = taskId ∧
            Provider.tasks p' =
              <[taskIndex :=
                  ClickUpTask.mk (ApiTask.id task) (ApiTask.name task) (ApiTask.status task)
                    (ApiTask.url task) (ApiTask.assignees task) (ApiTask.due_date task)
                    (ApiTask.priority task) (ApiTask.time_estimate task)
                    (Some (parseTimeSpent (ApiTask.time_spent task)))
                    (Some (bool_decide (is_Some (internalTimerStartTimes st !! taskId))))
                    (match ApiTask.space task with
                     | Some s => Some (Ref.mk (Ref.id s) (Ref.name s))
                     | None => ClickUpTask.space existingTask
                     end)
                    (ClickUpTask.list existingTask)]>
                (Provider.tasks p)
        | None => Provider.tasks p' = Provider.tasks p
        end) ∧
   (∀ error e',
      http (configuredToken cfg) (GetTask taskId) (env st) = (inl error, e') →
      (∀ r, JsError.response error = Some r → JsError.status r ≠ 404) →
      ∃ st2,
        updateTask http cfg taskId p st = (Return (refresh p), st2) ∧
        requests st2 = requests st ++ [GetTask taskId] ∧
        consoleErrors st2 = consoleErrors st ++
          ["ClickUpTasksProvider: Error updating task " +:+ errorToString error])) ∧
  (nonEmpty (configuredToken cfg) = false →
   ∃ st2,
     updateTask http cfg taskId p st = (Return (refresh p), st2) ∧
     requests st2 = requests st ∧
     consoleErrors st2 = consoleErrors st ++
       ["ClickUpTasksProvider: Error updating task " +:+ errorToString notConfigured]) ∧
  (Provider.tasks (refresh p) = Provider.tasks p ∧
   Provider.loading (refresh p) = true ∧
   Provider.refreshesInFlight (refresh p) = S (Provider.refreshesInFlight p)) ∧
  (∃ p' st', updateTask http cfg taskId p st = (Return p', st')).
Proof.
  split; [|split; [|split]].
  - intros Htok.
    destruct (getApiClient_run cfg st) as (st0 & Hc & E0 & R0 & T0 & _ & C0).
    rewrite Htok in Hc. split; [|split].
    + intros error r e' Hreq Hresp H404. rewrite <- E0 in Hreq.
      pose proof (request_err http _ _ _ _ _ Hreq) as Hthrow.
      assert (getTask http cfg taskId st =
              (Return None,
               add_log ("Task " +:+ taskId +:+ " not found")
                       (set_env e' (GetTask taskId) st0))) as Hget.
      { unfold getTask. rewrite (bind_Return _ _ _ _ _ Hc).
        erewrite tryCatch_Throw; [|by rewrite (bind_Throw _ _ _ _ _ Hthrow)].
        rewrite Hresp, H404. reflexivity. }
      eexists _, _. split.
      { unfold updateTask. apply tryCatch_Return. rewrite (bind_Return _ _ _ _ _ Hget).
        reflexivity. }
      simpl. rewrite R0, C0. repeat split; try done.
      unfold occurrences.
      induction (Provider.tasks p) as [|t l IH]; [done|]. simpl.
      destruct (String.eqb_spec (ClickUpTask.id t) taskId) as [Heq|Hne]; simpl; [done|].
      destruct (String.eqb_spec (ClickUpTask.id t) taskId); [done|]. exact IH.
    + intros task e' Hreq. rewrite <- E0 in Hreq.
      pose proof (request_ok http _ _ _ _ _ Hreq) as Hok.
      assert (getTask http cfg taskId st =
              (Return (Some (ClickUpTask.mk (ApiTask.id task) (ApiTask.name task)
                               (ApiTask.status task) (ApiTask.url task)
                               (ApiTask.assignees task) (ApiTask.due_date task)
                               (ApiTask.priority task) (ApiTask.time_estimate task)
                               (Some (parseTimeSpent (ApiTask.time_spent task))) None
                               (match ApiTask.space task with
                                | Some s => Some (Ref.mk (Ref.id s) (Ref.name s))
                                | None => None
                                end)
                               (ApiTask.list task))),
               set_env e' (GetTask taskId) st0)) as Hget.
      { unfold getTask. rewrite (bind_Return _ _ _ _ _ Hc).
        apply tryCatch_Return. by rewrite (bind_Return _ _ _ _ _ Hok). }
      destruct (list_find (λ t, ClickUpTask.id t = taskId) (Provider.tasks p))
        as [[taskIndex existingTask]|] eqn:Hfind.
      * eexists _, _. split.
        { unfold updateTask. apply tryCatch_Return. rewrite (bind_Return _ _ _ _ _ Hget).
          rewrite Hfind. reflexivity. }
        simpl. rewrite R0, C0, T0. repeat split; try done.
        { by apply list_find_Some in Hfind as (_ & ? & _). }
        f_equal. unfold mergeTask. simpl.
        destruct (ClickUpTask.space existingTask), (ApiTask.space task); reflexivity.
      * eexists _, _. split.
        { unfold updateTask. apply tryCatch_Return. rewrite (bind_Return _ _ _ _ _ Hget).
          rewrite Hfind. reflexivity. }
        simpl. rewrite R0, C0, T0. done.
    + intros error e' Hreq Hnot. rewrite <- E0 in Hreq.
      pose proof (request_err http _ _ _ _ _ Hreq) as Hthrow.
      assert (getTask http cfg taskId st = (Throw error, set_env e' (GetTask taskId) st0))
        as Hget.
      { unfold getTask. rewrite (bind_Return _ _ _ _ _ Hc).
        erewrite tryCatch_Throw; [|by rewrite (bind_Throw _ _ _ _ _ Hthrow)].
        destruct (JsError.response error) as [r|] eqn:Hr; [|done].
        destruct (Z.eqb_spec (JsError.status r) 404) as [H404|_]; [|done].
        by destruct (Hnot r eq_refl). }
      eexists. split.
      { unfold updateTask. rewrite (tryCatch_Throw _ _ _ _ _ (bind_Throw _ _ _ _ _ Hget)).
        reflexivity. }
      simpl. by rewrite R0, C0.
  - intros Hnone. pose proof (getApiClient_none cfg st Hnone) as Hc.
    assert (getTask http cfg taskId st = (Throw notConfigured, st)) as Hget.
    { unfold getTask. by rewrite (bind_Return _ _ _ _ _ Hc). }
    eexists. split.
    { unfold updateTask. rewrite (tryCatch_Throw _ _ _ _ _ (bind_Throw _ _ _ _ _ Hget)).
      reflexivity. }
    done.
  - split; [done|]. split; [done|]. simpl. lia.
  - unfold updateTask.
    destruct (getTask http cfg taskId st) as [[[updatedTask|]|error|] st1] eqn:Hget.
    + destruct (list_find (λ t, ClickUpTask.id t = taskId) (Provider.tasks p))
        as [[taskIndex existingTask]|] eqn:Hfind.
      * eexists _, _. apply tryCatch_Return. rewrite (bind_Return _ _ _ _ _ Hget).
        reflexivity.
      * eexists _, _. apply tryCatch_Return. rewrite (bind_Return _ _ _ _ _ Hget).
        reflexivity.
    + eexists _, _. apply tryCatch_Return. rewrite (bind_Return _ _ _ _ _ Hget).
      reflexivity.
    + eexists _, _. rewrite (tryCatch_Throw _ _ _ _ _ (bind_Throw _ _ _ _ _ Hget)).
      reflexivity.
    + by destruct (getTask_ends _ _ _ _ _ _ Hget).
Qed.

Lemma update_task_merges_or_refreshes_witness :
  (∃ p' st1,
     updateTask (Fixture.http Fixture.bare) Fixture.cfg "X" Fixture.snapshotX
       (Fixture.start Fixture.world0) = (Return p', st1) ∧
     map ClickUpTask.id (Provider.tasks p') = ["Y"]) ∧
  (∃ p' st1,
     updateTask (Fixture.http Cases.withTaskX) Fixture.cfg "X" Fixture.snapshotX
       Cases.tracksX = (Return p', st1) ∧
     map ClickUpTask.name (Provider.tasks p') = ["Task X, renamed"; "Task Y"] ∧
     map ClickUpTask.isCurrentlyTracked (Provider.tasks p') = [Some true; None] ∧
     map ClickUpTask.timeTracked (Provider.tasks p') = [Some 90000; Some 0] ∧
     map ClickUpTask.space (Provider.tasks p') = [Some Fixture.space1; Some Fixture.space1]) ∧
  (∃ st2,
     updateTask (Fixture.http Cases.brokenTask) Fixture.cfg "X" Fixture.snapshotX
       (Fixture.start Fixture.world0) = (Return (refresh Fixture.snapshotX), st2) ∧
     consoleErrors st2 =
       ["ClickUpTasksProvider: Error updating task AxiosError: Request failed with status code 500"]).
Proof.
  split; [|split].
  - destruct (update_task_merges_or_refreshes (Fixture.http Fixture.bare) Fixture.cfg "X"
                Fixture.snapshotX (Fixture.start Fixture.world0)) as (Htok & _).
    destruct (Htok eq_refl) as (H404 & _).
    destruct (H404 (Fixture.httpError 404 "Task not found")
                   (JsError.mkResponse 404 (Some "Task not found"))
                   (Fixture.mkWorld 1001 None []) eq_refl eq_refl eq_refl)
      as (p' & st1 & Hrun & _ & _ & Htasks & _).
    exists p', st1. split; [exact Hrun|]. rewrite Htasks. reflexivity.
  - destruct (update_task_merges_or_refreshes (Fixture.http Cases.withTaskX) Fixture.cfg "X"
                Fixture.snapshotX Cases.tracksX) as (Htok & _).
    destruct (Htok eq_refl) as (_ & Hfound & _).
    destruct (Hfound Cases.taskX (Fixture.mkWorld 1001 None []) eq_refl)
      as (p' & st1 & Hrun & _ & _ & _ & _ & _ & Hmerged).
    exists p', st1. split; [exact Hrun|].
    destruct p' as [tasks' loading' fired' inFlight' shown']. simpl in Hmerged |- *.
    vm_compute in Hmerged. destruct Hmerged as [_ ->].
    split; [reflexivity|]. split; [reflexivity|]. split; reflexivity.
  - destruct (update_task_merges_or_refreshes (Fixture.http Cases.brokenTask) Fixture.cfg "X"
                Fixture.snapshotX (Fixture.start Fixture.world0)) as (Htok & _).
    destruct (Htok eq_refl) as (_ & _ & Hfail).
    destruct (Hfail (Fixture.httpError 500 "Internal error")
                    (Fixture.mkWorld 1001 None []) eq_refl) as (st2 & Hrun & _ & Hlog).
    { intros r [= <-]. discriminate. }
    exists st2. split; [exact Hrun|]. rewrite Hlog. reflexivity.
Defined.

(** ** Tasks that are in several lists *)

(** Within one list, [getTasksFromList] keeps one task per identifier. *)
Lemma processSubtasks_NoDup space subtasks seen out :
  (∀ i, i ∈ map ClickUpTask.id out → i ∈ seen) →
  NoDup (map ClickUpTask.id out) →
  (∀ i, i ∈ map ClickUpTask.id (snd (processSubtasks space subtasks (seen, out))) →
        i ∈ fst (processSubtasks space subtasks (seen, out))) ∧
  NoDup (map ClickUpTask.id (snd (processSubtasks space subtasks (seen, out)))).
Proof.
  revert seen out. induction subtasks as [|sub rest IH]; intros seen out Hseen Hnd; [done|].
  simpl. destruct (decide (ApiTask.id sub ∈ seen)) as [Hin|Hnin]; [by apply IH|].
  apply IH.
  - intros i. rewrite map_app, elem_of_app. simpl. intros [Hi|Hi].
    + apply elem_of_union. right. by apply Hseen.
    + apply list_elem_of_singleton in Hi. subst i. apply elem_of_union. left.
      by apply elem_of_singleton.
  - rewrite map_app. apply NoDup_app. split; [done|]. split; [|apply NoDup_singleton].
    intros i Hi Hi'. simpl in Hi'. apply list_elem_of_singleton in Hi'. subst i.
    apply Hnin. by apply Hseen.
Qed.

Lemma processTasks_NoDup space allTasks seen out :
  (∀ i, i ∈ map ClickUpTask.id out → i ∈ seen) →
  NoDup (map ClickUpTask.id out) →
  NoDup (map ClickUpTask.id (snd (processTasks space allTasks (seen, out)))).
Proof.
  revert seen out. induction allTasks as [|task rest IH]; intros seen out Hseen Hnd; [done|].
  simpl.
  assert (∃ seen1 out1,
    (if decide (ApiTask.id (ApiTask.own task) ∈ seen) then (seen, out)
     else ({[ApiTask.id (ApiTask.own task)]} ∪ seen,
           out ++ [stamp space (ApiTask.own task)])) = (seen1, out1) ∧
    (∀ i, i ∈ map ClickUpTask.id out1 → i ∈ seen1) ∧
    NoDup (map ClickUpTask.id out1)) as (seen1 & out1 & -> & Hseen1 & Hnd1).
  { destruct (decide (ApiTask.id (ApiTask.own task) ∈ seen)) as [Hin|Hnin].
    - by exists seen, out.
    - eexists _, _. split; [reflexivity|]. split.
      + intros i. rewrite map_app, elem_of_app. simpl. intros [Hi|Hi].
        * apply elem_of_union. right. by apply Hseen.
        * apply list_elem_of_singleton in Hi. subst i. apply elem_of_union. left.
          by apply elem_of_singleton.
      + rewrite map_app. apply NoDup_app. split; [done|]. split; [|apply NoDup_singleton].
        intros i Hi Hi'. simpl in Hi'. apply list_elem_of_singleton in Hi'. subst i.
        apply Hnin. by apply Hseen. }
  destruct (ApiTask.subtasks task) as [subtasks|]; [|by apply IH].
  destruct (processSubtasks_NoDup space subtasks seen1 out1 Hseen1 Hnd1) as [Hs Hn].
  destruct (processSubtasks space subtasks (seen1, out1)) as [seen2 out2].
  by apply IH.
Qed.

Lemma getTasksFromList_NoDup {W : Type} (http : Remote W) (fuel : nat)
    (client listId : string) (space : Ref.t) (assigneeId : option string)
    (st st' : State W) (tasks : list ClickUpTask.t) :
  getTasksFromList http fuel client listId space assigneeId st = (Return tasks, st') →
  NoDup (map ClickUpTask.id tasks).
Proof.
  unfold getTasksFromList. intros H.
  apply tryCatch_inv in H as [(a & H & Ha)|[(e & st1 & _ & H)|[_ H]]]; [| |done].
  - inversion Ha; subst a. clear Ha.
    apply bind_Return_inv in H as (allTasks & st1 & _ & H).
    inversion H; subst. apply processTasks_NoDup; [|constructor].
    intros i Hi. by apply elem_of_nil in Hi.
  - unfold bind, log, modify, ret in H. inversion H; subst. constructor.
Qed.

(** C1 (the code at the failing input).  One space holds the list [L1] in a
    folder and the list [L2] directly; both return the task [t1].  The full
    fetch returns [t1] twice: the set of identifiers already seen is created
    anew for every list, and nothing merges the lists' results. *)
Theorem walk_returns_shared_task_twice :
  ∃ tasks st',
    getInProgressTasks (Fixture.http Fixture.shared) Fixture.clock Fixture.cfg 101
      (Fixture.start Fixture.world0) = (Return tasks, st') ∧
    map ClickUpTask.id tasks = ["t1"; "t1"] ∧
    occurrences "t1" tasks = 2%nat ∧
    requests st' = [GetTeams; GetUser; GetCurrentTimeEntry "team1"; GetSpaces "team1";
                    GetFolders "s1"; GetFolderLists "f1"; GetListTasks "L1" 0 (Some "42");
                    GetSpaceLists "s1"; GetListTasks "L2" 0 (Some "42")].
Proof.
  vm_compute. eexists _, _. split; [reflexivity|]. split; [reflexivity|].
  split; reflexivity.
Qed.

(** * Further properties of the code *)

(** ** Durations in the tree view *)

Lemma append_nonempty_r (s t : string) : t ≠ "" → s +:+ t ≠ "".
Proof. intros Ht. destruct s; simpl; [done|discriminate]. Qed.

Lemma append_empty_r (s : string) : s +:+ "" = s.
Proof. induction s as [|c s IH]; [done|]. exact (f_equal (String c) IH). Qed.

Lemma append_cancel_l (s t : string) : s +:+ t = s → t = "".
Proof. induction s as [|c s IH]; simpl; [done|]. intros [= H]. auto. Qed.

(** X1.  Without seconds, [formatTime] yields the empty string exactly for
    durations below one minute (60000 ms), non-positive ones included; with
    seconds it yields the empty string exactly for non-positive durations
    (a positive duration below one second reads 0s). *)
Theorem formatTime_empty_iff (ms : Z) :
  (formatTime ms false = "" ↔ ms < 60000) ∧ (formatTime ms true = "" ↔ ms ≤ 0).
Proof.
  unfold formatTime.
  destruct (Z.eqb_spec ms 0) as [->|Hne]; simpl; [split; split; intros; (done || lia)|].
  destruct (Z.leb_spec ms 0) as [Hle|Hpos]; [split; split; intros; (done || lia)|].
  set (h := ms / 1000 / 3600). set (m := Z.rem (ms / 1000) 3600 / 60).
  set (sec := Z.rem (ms / 1000) 60).
  assert (0 ≤ h ∧ 0 ≤ m ∧ 0 ≤ sec ∧ (h = 0 ∧ m = 0 ↔ ms < 60000)) as (Hh & Hm & Hs & Hiff).
  { unfold h, m, sec. Z.to_euclidean_division_equations. lia. }
  split.
  - destruct (Z.ltb_spec 0 h), (Z.ltb_spec 0 m); simpl; split; intros Hx;
      try lia; try done;
      try (exfalso; revert Hx; repeat apply append_nonempty_r; done).
    all: destruct (Z.eqb_spec h 0); simpl in *; try lia; try done.
  - destruct (Z.eqb_spec h 0), (Z.ltb_spec m 1), (Z.ltb_spec 0 m), (Z.ltb_spec 0 h); simpl;
      split; intros Hx; try lia;
      try (exfalso; revert Hx; repeat apply append_nonempty_r; done).
Qed.

(** X2.  For a positive duration, [formatTime] shows the whole hours and the
    minutes of the hour from one hour on, never the seconds, whatever the
    flag; below one hour it shows the minutes and, with the flag, the
    seconds; a zero minute part is left out next to hours. *)
Theorem formatTime_shape (ms : Z) (includeSeconds : bool) :
  0 < ms →
  formatTime ms includeSeconds =
    let hours := ms / 3600000 in
    let minutes := (ms / 60000) mod 60 in
    let seconds := (ms / 1000) mod 60 in
    if 0 <? hours then
      pretty hours +:+ "h" +:+ (if 0 <? minutes then pretty minutes +:+ "m" else "")
    else if includeSeconds then
      (if 0 <? minutes then pretty minutes +:+ "m" +:+ pretty seconds +:+ "s"
       else pretty seconds +:+ "s")
    else if 0 <? minutes then pretty minutes +:+ "m" else "".
Proof.
  intros Hpos. unfold formatTime.
  destruct (Z.eqb_spec ms 0) as [->|Hne]; [lia|].
  destruct (Z.leb_spec ms 0) as [Hle|_]; [lia|]. cbv zeta. simpl orb. cbv iota.
  assert (ms / 1000 / 3600 = ms / 3600000) as ->
    by (Z.to_euclidean_division_equations; lia).
  assert (Z.rem (ms / 1000) 3600 / 60 = (ms / 60000) mod 60) as ->
    by (Z.to_euclidean_division_equations; lia).
  assert (Z.rem (ms / 1000) 60 = (ms / 1000) mod 60) as ->
    by (Z.to_euclidean_division_equations; lia).
  assert (0 ≤ ms / 3600000 ∧ 0 ≤ (ms / 60000) mod 60) as [Hh Hm]
    by (Z.to_euclidean_division_equations; lia).
  destruct (Z.ltb_spec 0 (ms / 3600000)) as [Hh1|Hh0].
  - replace (ms / 3600000 =? 0) with false by (symmetry; apply Z.eqb_neq; lia).
    rewrite !andb_false_r. simpl.
    destruct (Z.ltb_spec 0 ((ms / 60000) mod 60)); simpl; done.
  - replace (ms / 3600000 =? 0) with true by (symmetry; apply Z.eqb_eq; lia).
    rewrite !andb_true_r. destruct includeSeconds; simpl.
    + destruct (Z.ltb_spec 0 ((ms / 60000) mod 60)) as [Hm1|Hm0].
      * replace ((ms / 60000) mod 60 <? 1) with false by (symmetry; apply Z.ltb_ge; lia).
        done.
      * by replace ((ms / 60000) mod 60 <? 1) with true by (symmetry; apply Z.ltb_lt; lia).
    + done.
Qed.

Lemma formatTime_shape_witness :
  formatTime 12180000 false = "3h23m" ∧ formatTime 150000 true = "2m30s".
Proof.
  split.
  - rewrite (formatTime_shape 12180000 false); [reflexivity | lia].
  - rewrite (formatTime_shape 150000 true); [reflexivity | lia].
Defined.

Lemma formatTime_below_minute (n : Z) : n < 60000 → formatTime n false = "".
Proof.
  intros Hn. unfold formatTime.
  destruct (Z.eqb_spec n 0) as [->|Hne]; [done|].
  destruct (Z.leb_spec n 0) as [Hle|Hpos]; [done|]. simpl.
  assert (n / 1000 / 3600 = 0 ∧ Z.rem (n / 1000) 3600 / 60 = 0) as [-> ->]
    by (Z.to_euclidean_division_equations; lia).
  reflexivity.
Qed.

(** The elapsed time [getChildren] reads for a task: that of the registry
    entry when the task is flagged as tracked, else [0]. *)
Lemma getInternalTimerElapsed_run {W : Type} (dateNow : W → Z) (taskId : string)
    (st : State W) :
  getInternalTimerElapsed dateNow taskId st =
    (Return (match internalTimerStartTimes st !! taskId with
             | Some startTime => if startTime =? 0 then 0 else dateNow (env st) - startTime
             | None => 0
             end), st).
Proof.
  unfold getInternalTimerElapsed, bind, gets, now, ret.
  destruct (internalTimerStartTimes st !! taskId) as [t|]; [|done].
  by destruct (t =? 0).
Qed.

(** X3.  The label of a task in the tree starts with the task's name; it is
    the bare name exactly when no internal timer has elapsed time and neither
    the tracked time nor the estimate is positive; a task whose only time is
    a tracked time below one minute is labelled with its name and empty
    brackets. *)
Theorem taskLabel_name_and_times (task : ClickUpTask.t) (internalElapsed : Z) :
  (∃ suffix, taskLabel task internalElapsed = ClickUpTask.name task +:+ suffix) ∧
  (taskLabel task internalElapsed = ClickUpTask.name task ↔
     internalElapsed ≤ 0 ∧
     isPositive (ClickUpTask.timeTracked task) = false ∧
     isPositive (ClickUpTask.time_estimate task) = false) ∧
  (∀ n, internalElapsed ≤ 0 →
        isPositive (ClickUpTask.time_estimate task) = false →
        ClickUpTask.timeTracked task = Some n → 0 < n < 60000 →
        taskLabel task internalElapsed = ClickUpTask.name task +:+ " []").
Proof.
  unfold taskLabel, timeDisplay.
  destruct (Z.ltb_spec 0 internalElapsed) as [He|He];
    destruct (isPositive (ClickUpTask.timeTracked task)) eqn:Ht;
    destruct (isPositive (ClickUpTask.time_estimate task)) eqn:Hest; simpl.
  all: split; [first [by eexists | exists ""; by rewrite append_empty_r]|].
  all: split;
    [split;
       [intros Heq;
        first [apply append_cancel_l in Heq; discriminate Heq
              |repeat split; (done || lia)]
       |intros (? & ? & ?); first [done | lia]]|].
  all: intros n Hle Hnone Hsome Hn; try lia; try done.
  - rewrite Hsome. simpl. by rewrite (formatTime_below_minute n) by lia.
  - rewrite Hsome in Ht. simpl in Ht. apply Z.ltb_ge in Ht. lia.
Qed.

Lemma taskLabel_name_and_times_witness :
  taskLabel (stamp Fixture.space1
               (ApiTask.mkFields "a" "Fix login" Status.Absent "u" None None None
                                 (Some (JNum 30000)) None None None)) 0
  = "Fix login []".
Proof.
  destruct (taskLabel_name_and_times
              (stamp Fixture.space1
                 (ApiTask.mkFields "a" "Fix login" Status.Absent "u" None None None
                                   (Some (JNum 30000)) None None None)) 0)
    as (_ & _ & H).
  apply (H 30000); [lia | reflexivity | reflexivity | lia].
Defined.

(** X4.  [getChildren] never throws and changes nothing: while loading it
    yields the single row "Loading...", for a given element no row, at the
    root of an empty snapshot the single placeholder row, and otherwise one
    row per snapshot task, in order, labelled with the elapsed time of the
    registry entry when the task is flagged as tracked. *)
Theorem getChildren_rows {W : Type} (dateNow : W → Z) (p : Provider.t)
    (element : option TaskItem.t) (st : State W) :
  ∃ items,
    getChildren dateNow p element st = (Return items, st) ∧
    items =
      (if Provider.loading p then [newTaskItem None loadingLabel]
       else match element with
            | Some _ => []
            | None =>
                match Provider.tasks p with
                | [] => [newTaskItem None noTasksLabel]
                | tasks =>
                    map (λ task,
                           newTaskItem (Some task)
                             (taskLabel task
                                (if default false (ClickUpTask.isCurrentlyTracked task)
                                 then match internalTimerStartTimes st !! ClickUpTask.id task with
                                      | Some startTime =>
                                          if startTime =? 0 then 0
                                          else dateNow (env st) - startTime
                                      | None => 0
                                      end
                                 else 0)))
                        tasks
                end
            end) ∧
    (element = None → items ≠ []).
Proof.
  unfold getChildren. destruct (Provider.loading p).
  { eexists. split; [reflexivity|]. split; [reflexivity|]. done. }
  destruct element as [e|].
  { eexists. split; [reflexivity|]. split; [reflexivity|]. done. }
  destruct (Provider.tasks p) as [|task0 rest] eqn:Htasks.
  { eexists. split; [reflexivity|]. split; [reflexivity|]. done. }
  eexists. split; [|split; [reflexivity|done]].
  generalize (task0 :: rest). intros tasks. induction tasks as [|task tasks IH]; [done|].
  cbn [forEachMap map].
  match goal with |- bind ?m _ _ = _ =>
    assert (∃ item, m st = (Return item, st) ∧
              item = newTaskItem (Some task)
                (taskLabel task
                   (if default false (ClickUpTask.isCurrentlyTracked task)
                    then match internalTimerStartTimes st !! ClickUpTask.id task with
                         | Some startTime =>
                             if startTime =? 0 then 0 else dateNow (env st) - startTime
                         | None => 0
                         end
                    else 0))) as (item & Hitem & ->)
  end.
  { destruct (default false (ClickUpTask.isCurrentlyTracked task)).
    - eexists. split; [|reflexivity].
      by rewrite (bind_Return _ _ _ _ _ (getInternalTimerElapsed_run dateNow _ st)).
    - eexists. split; reflexivity. }
  rewrite (bind_Return _ _ _ _ _ Hitem). rewrite (bind_Return _ _ _ _ _ IH). reflexivity.
Qed.

(** ** The refresh countdown *)

Lemma two_digits (n : nat) :
  (n < 60)%nat → String.length (padStart 2 "0" (pretty (Z.of_nat n))) = 2%nat.
Proof.
  intros Hn. do 60 (destruct n as [|n]; [reflexivity|]). lia.
Qed.

(** X5.  For a non-negative number of seconds, [formatCountdown] writes the
    whole minutes, a colon and the seconds of the minute on exactly two
    characters.  The title shows the countdown while at least one whole
    second remains, and "5:00" from then on, the same text as for 300
    remaining seconds. *)
Theorem formatCountdown_two_digit_seconds (seconds : Z) :
  0 ≤ seconds →
  (∃ ss, formatCountdown seconds = pretty (seconds / 60) +:+ ":" +:+ ss ∧
         ss = padStart 2 "0" (pretty (seconds mod 60)) ∧
         String.length ss = 2%nat) ∧
  (∀ nextRefreshTime now,
     nextRefreshTime - now < 1000 →
     countdownTitle nextRefreshTime now = "ClickUp Tasks (5:00)") ∧
  (∀ nextRefreshTime now,
     1000 ≤ nextRefreshTime - now →
     countdownTitle nextRefreshTime now =
       "ClickUp Tasks (" +:+ formatCountdown ((nextRefreshTime - now) / 1000) +:+ ")").
Proof.
  intros Hs. split; [|split].
  - unfold formatCountdown.
    assert (Z.rem seconds 60 = seconds mod 60) as -> by (apply Z.rem_mod_nonneg; lia).
    eexists. split; [reflexivity|]. split; [reflexivity|].
    assert (0 ≤ seconds mod 60 < 60) as Hr by (apply Z.mod_pos_bound; lia).
    rewrite <- (Z2Nat.id (seconds mod 60)) by lia. apply two_digits. lia.
  - intros next now Hlt. unfold countdownTitle.
    assert (Z.max 0 ((next - now) / 1000) = 0) as ->
      by (Z.to_euclidean_division_equations; lia).
    reflexivity.
  - intros next now Hge. unfold countdownTitle.
    assert (0 < (next - now) / 1000) as Hpos by (Z.to_euclidean_division_equations; lia).
    rewrite Z.max_r by lia.
    by replace (0 <? (next - now) / 1000) with true by (symmetry; apply Z.ltb_lt; lia).
Qed.

Lemma formatCountdown_two_digit_seconds_witness :
  formatCountdown 65 = "1:05" ∧ countdownTitle 1500 1000 = "ClickUp Tasks (5:00)".
Proof.
  destruct (formatCountdown_two_digit_seconds 65) as ((ss & Hf & Hss & _) & Hend & _); [lia|].
  split.
  - rewrite Hf, Hss. reflexivity.
  - apply Hend. lia.
Defined.

(** ** What the methods leave untouched *)

Section Invariants.
Context {W : Type}.
Variable http : Remote W.
Variable dateNow : W → Z.
Variable cfg : Config.
Implicit Types st : State W.

Lemma keeps_ret {A} (a : A) : keeps (ret a : M W A).
Proof. by intros st o st' [= _ <-]. Qed.

Lemma keeps_throw {A} e : keeps (throw e : M W A).
Proof. by intros st o st' [= _ <-]. Qed.

Lemma keeps_diverge {A} : keeps (diverge : M W A).
Proof. by intros st o st' [= _ <-]. Qed.

Lemma keeps_gets {A} (f : State W → A) : keeps (gets f).
Proof. by intros st o st' [= _ <-]. Qed.

Lemma keeps_modify (f : State W → State W) :
  (∀ st, internalTimerStartTimes (f st) = internalTimerStartTimes st) →
  keeps (modify f).
Proof. intros Hf st o st' [= _ <-]. apply Hf. Qed.

Lemma keeps_log msg : keeps (log msg : M W unit).
Proof. by apply keeps_modify. Qed.

Lemma keeps_consoleError msg : keeps (consoleError msg : M W unit).
Proof. by apply keeps_modify. Qed.

Lemma keeps_request client r : keeps (request http client r).
Proof. intros st o st' H. by apply request_inv in H as (res & e' & _ & -> & _). Qed.

Lemma keeps_bind {A B} (m : M W A) (k : A → M W B) :
  keeps m → (∀ a, keeps (k a)) → keeps (bind m k).
Proof.
  intros Hm Hk st o st' H.
  apply bind_inv in H as [(a & st1 & H1 & H2)|[(e & H1 & _)|[H1 _]]].
  - etrans; [by eapply Hk | by eapply Hm].
  - by eapply Hm.
  - by eapply Hm.
Qed.

Lemma keeps_attempt {A} (m : M W A) : keeps m → keeps (attempt m).
Proof.
  intros Hm st o st' H. unfold attempt in H.
  destruct (m st) as [[a|e|] st1] eqn:E; inversion H; subst; by eapply Hm.
Qed.

Lemma keeps_tryCatch {A} (m : M W A) h :
  keeps m → (∀ e, keeps (h e)) → keeps (tryCatch m h).
Proof.
  intros Hm Hh. apply keeps_bind; [by apply keeps_attempt|].
  intros [e|a]; [apply Hh | apply keeps_ret].
Qed.

Lemma keeps_throwKeeps {A} (m : M W A) : keeps m → throwKeeps m.
Proof. intros Hm st e st' H. by eapply Hm. Qed.

Lemma throwKeeps_bind {A B} (m : M W A) (k : A → M W B) :
  keeps m → (∀ a, throwKeeps (k a)) → throwKeeps (bind m k).
Proof.
  intros Hm Hk st e st' H.
  apply bind_inv in H as [(a & st1 & H1 & H2)|[(e' & H1 & _)|[H1 Habs]]].
  - etrans; [by eapply Hk | by eapply Hm].
  - by eapply Hm.
  - done.
Qed.

Lemma throwKeeps_tryCatch {A} (m : M W A) h :
  throwKeeps m → (∀ e, throwKeeps (h e)) → throwKeeps (tryCatch m h).
Proof.
  intros Hm Hh st e st' H.
  apply tryCatch_inv in H as [(a & H1 & Habs)|[(e' & st1 & H1 & H2)|[H1 Habs]]]; [done| |done].
  etrans; [by eapply Hh | by eapply Hm].
Qed.

Lemma keeps_getApiClient : keeps (getApiClient (W:=W) cfg).
Proof.
  intros st o st' H. destruct (getApiClient_run cfg st) as (st1 & H1 & _ & _ & T & _).
  rewrite H1 in H. inversion H; subst. by rewrite T.
Qed.

Lemma keeps_getCurrentUserId client : keeps (getCurrentUserId http client).
Proof.
  unfold getCurrentUserId. apply keeps_bind; [apply keeps_gets|]. intros cached.
  destruct (someNonEmpty cached); [apply keeps_ret|].
  apply keeps_tryCatch; [|intros; apply keeps_throw].
  apply keeps_bind; [apply keeps_request|]. intros userId.
  apply keeps_bind; [by apply keeps_modify | intros; apply keeps_ret].
Qed.

Lemma keeps_getCurrentTimeEntryTaskId client teamId :
  keeps (getCurrentTimeEntryTaskId http client teamId).
Proof.
  intros st o st' H.
  destruct (getCurrentTimeEntryTaskId_run http client teamId st) as (cur & st1 & H1 & _ & T & _).
  rewrite H1 in H. inversion H; subst. by rewrite T.
Qed.

Lemma keeps_fetchPages fuel client listId assignee :
  ∀ page allTasks, keeps (fetchPages http fuel client listId assignee page allTasks).
Proof.
  induction fuel as [|fuel IH]; intros page allTasks; simpl; [apply keeps_diverge|].
  apply keeps_bind; [apply (keeps_request client (GetListTasks listId page assignee))|].
  intros tasksField.
  destruct (100 <? page + 1)%nat.
  - apply keeps_bind; [apply keeps_log | intros; apply keeps_ret].
  - destruct (length (default [] tasksField) =? pageSize)%nat; [apply IH | apply keeps_ret].
Qed.

Lemma keeps_getTasksFromList fuel client listId space assigneeId :
  keeps (getTasksFromList http fuel client listId space assigneeId).
Proof.
  unfold getTasksFromList. apply keeps_tryCatch.
  - apply keeps_bind; [apply keeps_fetchPages | intros; apply keeps_ret].
  - intros e. apply keeps_bind; [apply keeps_log | intros; apply keeps_ret].
Qed.

Lemma keeps_walkLists fuel client lists space currentUserId :
  ∀ tasks, keeps (walkLists http fuel client lists space currentUserId tasks).
Proof.
  induction lists as [|l rest IH]; intros tasks; simpl; [apply keeps_ret|].
  apply keeps_bind; [apply keeps_getTasksFromList | intros; apply IH].
Qed.

Lemma keeps_walkFolders fuel client folders space currentUserId :
  ∀ tasks, keeps (walkFolders http fuel client folders space currentUserId tasks).
Proof.
  induction folders as [|folder rest IH]; intros tasks; simpl; [apply keeps_ret|].
  apply keeps_bind;
    [apply keeps_attempt, (keeps_request client (GetFolderLists (Ref.id folder)))|].
  intros [e|lists]; [apply keeps_ret|].
  apply keeps_bind; [apply keeps_walkLists | intros; apply IH].
Qed.

Lemma keeps_walkSpace fuel client space currentUserId tasks :
  keeps (walkSpace http fuel client space currentUserId tasks).
Proof.
  unfold walkSpace. apply keeps_bind; [apply keeps_attempt, keeps_request|].
  intros [e|folders].
  { apply keeps_bind; [apply keeps_consoleError | intros; apply keeps_ret]. }
  apply keeps_bind; [apply keeps_walkFolders|]. intros [tasks' [e|]].
  { apply keeps_bind; [apply keeps_consoleError | intros; apply keeps_ret]. }
  apply keeps_bind; [apply keeps_attempt, keeps_request|].
  intros [e|spaceLists]; [|apply keeps_walkLists].
  apply keeps_bind; [apply keeps_consoleError | intros; apply keeps_ret].
Qed.

Lemma keeps_walkSpaces fuel client spaces currentUserId :
  ∀ tasks, keeps (walkSpaces http fuel client spaces currentUserId tasks).
Proof.
  induction spaces as [|space rest IH]; intros tasks; simpl; [apply keeps_ret|].
  apply keeps_bind; [apply keeps_walkSpace | intros; apply IH].
Qed.

Lemma keeps_getTask taskId : keeps (getTask http cfg taskId).
Proof.
  unfold getTask. apply keeps_bind; [apply keeps_getApiClient|].
  intros [client|]; [|apply keeps_throw].
  apply keeps_tryCatch.
  - apply keeps_bind; [apply keeps_request | intros; apply keeps_ret].
  - intros e. destruct (JsError.response e) as [r|]; [|apply keeps_throw].
    destruct (JsError.status r =? 404); [|apply keeps_throw].
    apply keeps_bind; [apply keeps_log | intros; apply keeps_ret].
Qed.

Lemma keeps_updateTask taskId p : keeps (updateTask http cfg taskId p).
Proof.
  unfold updateTask. apply keeps_tryCatch.
  - apply keeps_bind; [apply keeps_getTask|]. intros [updatedTask|]; [|apply keeps_ret].
    destruct (list_find _ _) as [[taskIndex existingTask]|]; [|apply keeps_ret].
    apply keeps_bind; [|intros; apply keeps_ret].
    unfold isInternallyTracked. apply keeps_bind; [apply keeps_gets | intros; apply keeps_ret].
  - intros e. apply keeps_bind; [apply keeps_consoleError | intros; apply keeps_ret].
Qed.

End Invariants.

(** ** The walk never aborts *)

Section Walk.
Context {W : Type}.
Variable http : Remote W.
Variable dateNow : W → Z.
Variable cfg : Config.
Implicit Types st : State W.

Lemma returns_ret {A} (a : A) : returns (ret a : M W A).
Proof. intros st. by eexists _, _. Qed.

Lemma returns_bind {A B} (m : M W A) (k : A → M W B) :
  returns m → (∀ a, returns (k a)) → returns (bind m k).
Proof.
  intros Hm Hk st. destruct (Hm st) as (a & st1 & H1). destruct (Hk a st1) as (b & st2 & H2).
  exists b, st2. by rewrite (bind_Return _ _ _ _ _ H1).
Qed.

Lemma returns_modify (f : State W → State W) : returns (modify f).
Proof. intros st. by eexists _, _. Qed.

Lemma returns_attempt_request client r : returns (attempt (request http client r)).
Proof.
  intros st. unfold attempt, request.
  destruct (http client r (env st)) as [[e|v] e']; by eexists _, _.
Qed.

Lemma returns_ends {A} (m : M W A) : returns m → ends m.
Proof. intros Hm st o st' H. destruct (Hm st) as (a & st1 & H1). congruence. Qed.

Lemma ends_ret {A} (a : A) : ends (ret a : M W A).
Proof. by intros st o st' [= <- _]. Qed.

Lemma ends_throw {A} e : ends (throw e : M W A).
Proof. by intros st o st' [= <- _]. Qed.

Lemma ends_gets {A} (f : State W → A) : ends (gets f).
Proof. by intros st o st' [= <- _]. Qed.

Lemma ends_modify (f : State W → State W) : ends (modify f).
Proof. by intros st o st' [= <- _]. Qed.

Lemma ends_request client r : ends (request http client r).
Proof.
  intros st o st' H. apply request_inv in H as (res & e' & _ & _ & ->). by destruct res.
Qed.

Lemma ends_bind {A B} (m : M W A) (k : A → M W B) :
  ends m → (∀ a, ends (k a)) → ends (bind m k).
Proof.
  intros Hm Hk st o st' H.
  apply bind_inv in H as [(a & st1 & H1 & H2)|[(e & H1 & ->)|[H1 ->]]].
  - exact (Hk _ _ _ _ H2).
  - done.
  - by destruct (Hm _ _ _ H1).
Qed.

Lemma ends_tryCatch {A} (m : M W A) h :
  ends m → (∀ e, ends (h e)) → ends (tryCatch m h).
Proof.
  intros Hm Hh st o st' H.
  apply tryCatch_inv in H as [(a & H1 & ->)|[(e & st1 & H1 & H2)|[H1 ->]]].
  - done.
  - exact (Hh _ _ _ _ H2).
  - exact (Hm _ _ _ H1).
Qed.

Lemma ends_getCurrentUserId client : ends (getCurrentUserId http client).
Proof.
  unfold getCurrentUserId. apply ends_bind; [apply ends_gets|]. intros cached.
  destruct (someNonEmpty cached); [apply ends_ret|].
  apply ends_tryCatch; [|intros; apply ends_throw].
  apply ends_bind; [apply ends_request|]. intros userId.
  apply ends_bind; [apply ends_modify | intros; apply ends_ret].
Qed.

Lemma returns_getApiClient : returns (getApiClient (W:=W) cfg).
Proof. intros st. destruct (getApiClient_run cfg st) as (st1 & H & _). by eexists _, _. Qed.

Lemma returns_getCurrentTimeEntryTaskId client teamId :
  returns (getCurrentTimeEntryTaskId http client teamId).
Proof.
  intros st. destruct (getCurrentTimeEntryTaskId_run http client teamId st)
    as (cur & st1 & H & _). by eexists _, _.
Qed.

Lemma returns_reconcileTimers tracked filtered :
  returns (reconcileTimers dateNow tracked filtered : M W _).
Proof.
  intros st. destruct (reconcileTimers_run dateNow tracked filtered st) as (st1 & H & _).
  by eexists _, _.
Qed.

(** With enough fuel for the 101 iterations of the page loop, the listing
    of a list always returns. *)
Lemma returns_getTasksFromList fuel client listId space assigneeId :
  (101 ≤ fuel)%nat → returns (getTasksFromList http fuel client listId space assigneeId).
Proof.
  intros Hfuel st. unfold getTasksFromList.
  destruct (fetchPages_ends http client listId (someNonEmpty assigneeId) 100 0%nat fuel [] st)
    as (o & st' & n & H & Ho & _); [lia..|].
  destruct o as [all|e|]; [| |done].
  - eexists _, _. apply tryCatch_Return. by rewrite (bind_Return _ _ _ _ _ H).
  - eexists _, _. rewrite (tryCatch_Throw _ _ _ _ _ (bind_Throw _ _ _ _ _ H)). reflexivity.
Qed.

Lemma walkLists_run fuel client lists space currentUserId :
  (101 ≤ fuel)%nat →
  ∀ tasks st, ∃ more st',
    walkLists http fuel client lists space currentUserId tasks st
      = (Return (tasks ++ more), st').
Proof.
  intros Hfuel. induction lists as [|l rest IH]; intros tasks st; simpl.
  - exists [], st. by rewrite app_nil_r.
  - destruct (returns_getTasksFromList fuel client (Ref.id l) space (Some currentUserId)
                Hfuel st) as (listTasks & st1 & H1).
    destruct (IH (tasks ++ listTasks) st1) as (more & st2 & H2).
    exists (listTasks ++ more), st2. rewrite (bind_Return _ _ _ _ _ H1), H2.
    by rewrite app_assoc.
Qed.

Lemma walkFolders_run fuel client folders space currentUserId :
  (101 ≤ fuel)%nat →
  ∀ tasks st, ∃ more thrown st',
    walkFolders http fuel client folders space currentUserId tasks st
      = (Return (tasks ++ more, thrown), st').
Proof.
  intros Hfuel. induction folders as [|folder rest IH]; intros tasks st; simpl.
  - exists [], None, st. by rewrite app_nil_r.
  - destruct (returns_attempt_request client (GetFolderLists (Ref.id folder)) st)
      as ([e|lists] & st1 & H1); rewrite (bind_Return _ _ _ _ _ H1).
    + exists [], (Some e), st1. by rewrite app_nil_r.
    + destruct (walkLists_run fuel client (default [] lists) space currentUserId Hfuel
                  tasks st1) as (more1 & st2 & H2).
      destruct (IH (tasks ++ more1) st2) as (more2 & thrown & st3 & H3).
      exists (more1 ++ more2), thrown, st3. rewrite (bind_Return _ _ _ _ _ H2), H3.
      by rewrite app_assoc.
Qed.

Lemma walkSpace_run fuel client space currentUserId :
  (101 ≤ fuel)%nat →
  ∀ tasks st, ∃ more st',
    walkSpace http fuel client space currentUserId tasks st = (Return (tasks ++ more), st').
Proof.
  intros Hfuel tasks st. unfold walkSpace.
  destruct (returns_attempt_request client (GetFolders (Ref.id space)) st)
    as ([e|folders] & st1 & H1); rewrite (bind_Return _ _ _ _ _ H1).
  { exists [], (add_consoleError (spaceError space e) st1). by rewrite app_nil_r. }
  destruct (walkFolders_run fuel client (default [] folders) space currentUserId Hfuel
              tasks st1) as (more1 & thrown & st2 & H2).
  rewrite (bind_Return _ _ _ _ _ H2). destruct thrown as [e|].
  { by exists more1, (add_consoleError (spaceError space e) st2). }
  destruct (returns_attempt_request client (GetSpaceLists (Ref.id space)) st2)
    as ([e|spaceLists] & st3 & H3); rewrite (bind_Return _ _ _ _ _ H3).
  { by exists more1, (add_consoleError (spaceError space e) st3). }
  destruct (walkLists_run fuel client (default [] spaceLists) space currentUserId Hfuel
              (tasks ++ more1) st3) as (more2 & st4 & H4).
  exists (more1 ++ more2), st4. rewrite H4. by rewrite app_assoc.
Qed.

Lemma walkSpaces_run fuel client spaces currentUserId :
  (101 ≤ fuel)%nat →
  ∀ tasks st, ∃ more st',
    walkSpaces http fuel client spaces currentUserId tasks st = (Return (tasks ++ more), st').
Proof.
  intros Hfuel. induction spaces as [|space rest IH]; intros tasks st; simpl.
  - exists [], st. by rewrite app_nil_r.
  - destruct (walkSpace_run fuel client space currentUserId Hfuel tasks st)
      as (more1 & st1 & H1).
    destruct (IH (tasks ++ more1) st1) as (more2 & st2 & H2).
    exists (more1 ++ more2), st2. rewrite (bind_Return _ _ _ _ _ H1), H2.
    by rewrite app_assoc.
Qed.

Lemma preambleOnly_ret {A} (a : A) : preambleOnly (ret a : M W A).
Proof. intros st o st' [= _ <-]. exists []. by rewrite app_nil_r. Qed.

Lemma preambleOnly_throw {A} e : preambleOnly (throw e : M W A).
Proof. intros st o st' [= _ <-]. exists []. by rewrite app_nil_r. Qed.

Lemma preambleOnly_gets {A} (f : State W → A) : preambleOnly (gets f).
Proof. intros st o st' [= _ <-]. exists []. by rewrite app_nil_r. Qed.

Lemma preambleOnly_modify (f : State W → State W) :
  (∀ st, requests (f st) = requests st) → preambleOnly (modify f).
Proof. intros Hf st o st' [= _ <-]. exists []. by rewrite app_nil_r, Hf. Qed.

Lemma preambleOnly_request client r :
  isPreamble r = true → preambleOnly (request http client r).
Proof.
  intros Hr st o st' H. apply request_inv in H as (res & e' & _ & -> & _).
  exists [r]. split; [done|]. simpl. by rewrite Hr.
Qed.

Lemma preambleOnly_bind {A B} (m : M W A) (k : A → M W B) :
  preambleOnly m → (∀ a, preambleOnly (k a)) → preambleOnly (bind m k).
Proof.
  intros Hm Hk st o st' H.
  apply bind_inv in H as [(a & st1 & H1 & H2)|[(e & H1 & _)|[H1 _]]].
  - destruct (Hm _ _ _ H1) as (l1 & R1 & P1). destruct (Hk _ _ _ _ H2) as (l2 & R2 & P2).
    exists (l1 ++ l2). split; [by rewrite R2, R1, app_assoc|].
    by rewrite forallb_app, P1, P2.
  - by eapply Hm.
  - by eapply Hm.
Qed.

Lemma preambleOnly_tryCatch {A} (m : M W A) h :
  preambleOnly m → (∀ e, preambleOnly (h e)) → preambleOnly (tryCatch m h).
Proof.
  intros Hm Hh st o st' H.
  apply tryCatch_inv in H as [(a & H1 & _)|[(e & st1 & H1 & H2)|[H1 _]]].
  - by eapply Hm.
  - destruct (Hm _ _ _ H1) as (l1 & R1 & P1). destruct (Hh _ _ _ _ H2) as (l2 & R2 & P2).
    exists (l1 ++ l2). split; [by rewrite R2, R1, app_assoc|].
    by rewrite forallb_app, P1, P2.
  - by eapply Hm.
Qed.

Lemma preambleOnly_throwPreamble {A} (m : M W A) : preambleOnly m → throwPreamble m.
Proof. intros Hm st e st' H. by eapply Hm. Qed.

Lemma returns_throwPreamble {A} (m : M W A) : returns m → throwPreamble m.
Proof. intros Hm st e st' H. destruct (Hm st) as (a & st1 & H1). congruence. Qed.

Lemma throwPreamble_bind {A B} (m : M W A) (k : A → M W B) :
  preambleOnly m → (∀ a, throwPreamble (k a)) → throwPreamble (bind m k).
Proof.
  intros Hm Hk st e st' H.
  apply bind_inv in H as [(a & st1 & H1 & H2)|[(e' & H1 & _)|[H1 Habs]]]; [| |done].
  - destruct (Hm _ _ _ H1) as (l1 & R1 & P1). destruct (Hk _ _ _ _ H2) as (l2 & R2 & P2).
    exists (l1 ++ l2). split; [by rewrite R2, R1, app_assoc|].
    by rewrite forallb_app, P1, P2.
  - by eapply Hm.
Qed.

Lemma throwPreamble_tryCatch {A} (m : M W A) h :
  throwPreamble m → (∀ e, preambleOnly (h e)) → throwPreamble (tryCatch m h).
Proof.
  intros Hm Hh st e st' H.
  apply tryCatch_inv in H as [(a & H1 & Habs)|[(e' & st1 & H1 & H2)|[H1 Habs]]]; [done| |done].
  destruct (Hm _ _ _ H1) as (l1 & R1 & P1). destruct (Hh _ _ _ _ H2) as (l2 & R2 & P2).
  exists (l1 ++ l2). split; [by rewrite R2, R1, app_assoc|].
  by rewrite forallb_app, P1, P2.
Qed.

Lemma preambleOnly_getApiClient : preambleOnly (getApiClient (W:=W) cfg).
Proof.
  intros st o st' H. destruct (getApiClient_run cfg st) as (st1 & H1 & _ & R & _).
  rewrite H1 in H. inversion H; subst. exists []. by rewrite app_nil_r.
Qed.

Lemma preambleOnly_getCurrentUserId client : preambleOnly (getCurrentUserId http client).
Proof.
  unfold getCurrentUserId. apply preambleOnly_bind; [apply preambleOnly_gets|]. intros cached.
  destruct (someNonEmpty cached); [apply preambleOnly_ret|].
  apply preambleOnly_tryCatch; [|intros; apply preambleOnly_throw].
  apply preambleOnly_bind; [by apply preambleOnly_request|]. intros userId.
  apply preambleOnly_bind; [by apply preambleOnly_modify | intros; apply preambleOnly_ret].
Qed.

Lemma preambleOnly_getCurrentTimeEntryTaskId client teamId :
  preambleOnly (getCurrentTimeEntryTaskId http client teamId).
Proof.
  intros st o st' H.
  destruct (getCurrentTimeEntryTaskId_run http client teamId st) as (cur & st1 & H1 & R & _).
  rewrite H1 in H. inversion H; subst. by exists [GetCurrentTimeEntry teamId].
Qed.

(** The part of [getInProgressTasks] after the spaces are known. *)
Lemma returns_walk_and_reconcile fuel client spaces currentUserId remote inProgress :
  (101 ≤ fuel)%nat →
  returns (let* tasks := walkSpaces http fuel client spaces currentUserId [] in
           reconcileTimers dateNow remote
             (List.filter (taskFilter currentUserId inProgress) tasks)).
Proof.
  intros Hfuel. apply returns_bind.
  - intros st. destruct (walkSpaces_run fuel client spaces currentUserId Hfuel [] st)
      as (more & st' & H). by eexists _, _.
  - intros tasks. apply returns_reconcileTimers.
Qed.

End Walk.

(** ** A full fetch that fails, and one that does not *)

Section FetchOutcome.
Context {W : Type}.
Variable http : Remote W.
Variable dateNow : W → Z.
Variable cfg : Config.
Implicit Types st : State W.

Lemma returns_throwKeeps {A} (m : M W A) : returns m → throwKeeps m.
Proof. intros Hm st e st' H. destruct (Hm st) as (a & st1 & H1). congruence. Qed.

(** The [catch] of [getInProgressTasks] throws again, in the same state. *)
Lemma fetch_handler_run (e : JsError.t) st :
  (match JsError.response e with
   | Some r =>
       if JsError.status r =? 401 then
         throw (newError "Invalid ClickUp API token. Please check your configuration.")
       else throw (newError ("ClickUp API error: " +:+ errorMessageOf e r))
   | None => throw e
   end : M W (list ClickUpTask.t)) st
  = (Throw (match JsError.response e with
            | Some r =>
                if JsError.status r =? 401 then
                  newError "Invalid ClickUp API token. Please check your configuration."
                else newError ("ClickUp API error: " +:+ errorMessageOf e r)
            | None => e
            end), st).
Proof.
  destruct (JsError.response e) as [r|]; [|done].
  by destruct (JsError.status r =? 401).
Qed.

Lemma throwKeeps_getInProgressTasks fuel :
  throwKeeps (getInProgressTasks http dateNow cfg fuel).
Proof.
  unfold getInProgressTasks.
  apply throwKeeps_bind; [apply keeps_getApiClient|].
  intros [client|]; [|apply keeps_throwKeeps, keeps_throw].
  apply throwKeeps_tryCatch.
  2:{ intros e st o st' H. rewrite fetch_handler_run in H. by inversion H. }
  apply throwKeeps_bind; [apply keeps_request|].
  intros [[|team0 teams]|]; [apply keeps_throwKeeps, keeps_throw|
                             |apply keeps_throwKeeps, keeps_throw].
  apply throwKeeps_bind; [apply keeps_getCurrentUserId|]. intros currentUserId.
  apply throwKeeps_bind; [apply keeps_log|]. intros _.
  apply throwKeeps_bind; [apply keeps_getCurrentTimeEntryTaskId|]. intros remote.
  apply throwKeeps_bind.
  { destruct (someNonEmpty remote); [apply keeps_log | apply keeps_ret]. }
  intros _. apply throwKeeps_bind; [apply keeps_log|]. intros _.
  apply throwKeeps_bind; [apply keeps_request|]. intros spaces.
  apply throwKeeps_bind; [apply keeps_walkSpaces|]. intros tasks.
  apply returns_throwKeeps, returns_reconcileTimers.
Qed.

Lemma ends_getInProgressTasks fuel :
  (101 ≤ fuel)%nat → ends (getInProgressTasks http dateNow cfg fuel).
Proof.
  intros Hfuel. unfold getInProgressTasks.
  apply ends_bind; [apply returns_ends, returns_getApiClient|].
  intros [client|]; [|apply ends_throw].
  apply ends_tryCatch.
  2:{ intros e st o st' H. rewrite fetch_handler_run in H. by inversion H. }
  apply ends_bind; [apply ends_request|].
  intros [[|team0 teams]|]; [apply ends_throw| |apply ends_throw].
  apply ends_bind; [apply ends_getCurrentUserId|]. intros currentUserId.
  apply ends_bind; [apply ends_modify|]. intros _.
  apply ends_bind; [apply returns_ends, returns_getCurrentTimeEntryTaskId|]. intros remote.
  apply ends_bind.
  { destruct (someNonEmpty remote); [apply ends_modify | apply ends_ret]. }
  intros _. apply ends_bind; [apply ends_modify|]. intros _.
  apply ends_bind; [apply ends_request|]. intros spaces.
  by apply returns_ends, returns_walk_and_reconcile.
Qed.

Lemma throwPreamble_getInProgressTasks fuel :
  (101 ≤ fuel)%nat → throwPreamble (getInProgressTasks http dateNow cfg fuel).
Proof.
  intros Hfuel. unfold getInProgressTasks.
  apply throwPreamble_bind; [apply preambleOnly_getApiClient|].
  intros [client|]; [|apply preambleOnly_throwPreamble, preambleOnly_throw].
  apply throwPreamble_tryCatch.
  2:{ intros e st o st' H. rewrite fetch_handler_run in H. inversion H; subst.
      exists []. by rewrite app_nil_r. }
  apply throwPreamble_bind; [by apply preambleOnly_request|].
  intros [[|team0 teams]|]; [apply preambleOnly_throwPreamble, preambleOnly_throw|
                             |apply preambleOnly_throwPreamble, preambleOnly_throw].
  apply throwPreamble_bind; [apply preambleOnly_getCurrentUserId|]. intros currentUserId.
  apply throwPreamble_bind; [by apply preambleOnly_modify|]. intros _.
  apply throwPreamble_bind; [apply preambleOnly_getCurrentTimeEntryTaskId|]. intros remote.
  apply throwPreamble_bind.
  { destruct (someNonEmpty remote); [by apply preambleOnly_modify | apply preambleOnly_ret]. }
  intros _. apply throwPreamble_bind; [by apply preambleOnly_modify|]. intros _.
  apply throwPreamble_bind; [by apply preambleOnly_request|]. intros spaces.
  by apply returns_throwPreamble, returns_walk_and_reconcile.
Qed.

End FetchOutcome.

(** X6.  A full fetch that throws leaves the timer registry exactly as it
    was: the registry is only touched by the reconciliation at the end, which
    runs after everything that can fail. *)
Theorem failed_fetch_keeps_registry {W : Type} (http : Remote W) (dateNow : W → Z)
    (cfg : Config) (fuel : nat) (st st' : State W) (e : JsError.t) :
  getInProgressTasks http dateNow cfg fuel st = (Throw e, st') →
  internalTimerStartTimes st' = internalTimerStartTimes st.
Proof. apply throwKeeps_getInProgressTasks. Qed.

Lemma failed_fetch_keeps_registry_witness :
  ∃ e st',
    getInProgressTasks (Fixture.http Cases.rejectedToken) Fixture.clock Fixture.cfg 101
      Cases.staleRegistry = (Throw e, st') ∧
    internalTimerStartTimes st' = internalTimerStartTimes Cases.staleRegistry.
Proof.
  assert (∃ e st',
    getInProgressTasks (Fixture.http Cases.rejectedToken) Fixture.clock Fixture.cfg 101
      Cases.staleRegistry = (Throw e, st')) as (e & st' & H).
  { vm_compute. eexists _, _. reflexivity. }
  exists e, st'. split; [exact H|].
  exact (failed_fetch_keeps_registry _ _ _ _ _ _ _ H).
Defined.

(** X7.  With enough fuel for the page loops, a full fetch never runs on,
    and once the spaces of the team are known it returns: whatever fails in
    a space, a folder or a list is caught, so that a fetch that throws has
    issued none but team, user, current-timer and space-listing requests.
    The walk of the spaces only ever adds to the tasks collected so far. *)
Theorem walk_never_aborts {W : Type} (http : Remote W) (dateNow : W → Z)
    (cfg : Config) (fuel : nat) :
  (101 ≤ fuel)%nat →
  (∀ client spaces currentUserId tasks (st : State W), ∃ more st',
     walkSpaces http fuel client spaces currentUserId tasks st
       = (Return (tasks ++ more), st')) ∧
  (∀ (st : State W) o st',
     getInProgressTasks http dateNow cfg fuel st = (o, st') →
     o ≠ Diverge ∧
     (∀ e, o = Throw e →
           ∃ l, requests st' = requests st ++ l ∧ forallb isPreamble l = true)).
Proof.
  intros Hfuel. split.
  - intros client spaces currentUserId tasks st.
    by apply walkSpaces_run.
  - intros st o st' H. split.
    + exact (ends_getInProgressTasks http dateNow cfg fuel Hfuel _ _ _ H).
    + intros e ->.
      exact (throwPreamble_getInProgressTasks http dateNow cfg fuel Hfuel _ _ _ H).
Qed.

Lemma walk_never_aborts_witness :
  (101 ≤ 101)%nat ∧
  ∃ more st',
    walkSpaces (Fixture.http Cases.brokenSpace) 101 "pk_token"
      [Ref.mk "s1" "First"; Ref.mk "s2" "Second"] "42" []
      (Fixture.start Fixture.world0) = (Return ([] ++ more), st').
Proof.
  split; [lia|].
  apply (walk_never_aborts (Fixture.http Cases.brokenSpace) Fixture.clock Fixture.cfg 101).
  lia.
Defined.

(** ** Errors of the full fetch, and the cached user *)

Section FetchErrors.
Context {W : Type}.
Variable http : Remote W.
Variable dateNow : W → Z.
Variable cfg : Config.
Implicit Types st : State W.

(** With a token configured, [getApiClient] returns it; the cached user
    survives exactly when the cached client carries this token. *)
Lemma getApiClient_cache st :
  nonEmpty (configuredToken cfg) = true →
  ∃ st1,
    getApiClient cfg st = (Return (Some (configuredToken cfg)), st1) ∧
    env st1 = env st ∧ requests st1 = requests st ∧
    apiClient st1 = Some (configuredToken cfg) ∧
    currentUserId st1 =
      (if decide (apiClient st = Some (configuredToken cfg)) then currentUserId st
       else None).
Proof.
  intros Htok. unfold getApiClient. rewrite Htok. simpl.
  unfold bind, gets, modify, ret. destruct (apiClient st) as [tok|] eqn:Ec.
  - destruct (String.eqb_spec tok (configuredToken cfg)) as [->|Hne].
    + exists st. rewrite Ec. by destruct (decide _).
    + eexists. split; [reflexivity|]. simpl. repeat split.
      destruct (decide _); [congruence|done].
  - eexists. split; [reflexivity|]. simpl. repeat split.
Qed.

(** A failing user request is wrapped in an error without response. *)
Lemma getCurrentUserId_err client st error e' :
  someNonEmpty (currentUserId st) = None →
  http client GetUser (env st) = (inl error, e') →
  getCurrentUserId http client st =
    (Throw (newError ("Failed to get current user: " +:+
              match JsError.response error with
              | Some r => errorMessageOf error r
              | None => JsError.message error
              end)), set_env e' GetUser st).
Proof.
  intros Hc Hreq. unfold getCurrentUserId. unfold bind at 1. unfold gets at 1. rewrite Hc.
  erewrite tryCatch_Throw; [reflexivity|].
  apply bind_Throw. by apply request_err.
Qed.

(** The [try] of [getCurrentUserId] when the user request fails. *)
Lemma getCurrentUserId_err_run client st error e' :
  http client GetUser (env st) = (inl error, e') →
  tryCatch
    (let* userId := request http client GetUser in
     modify (set_currentUserId (jsString userId)) ;;
     ret (jsString userId))
    (λ error,
       throw (newError ("Failed to get current user: " +:+
         match JsError.response error with
         | Some r => errorMessageOf error r
         | None => JsError.message error
         end))) st
  = (Throw (newError ("Failed to get current user: " +:+
              match JsError.response error with
              | Some r => errorMessageOf error r
              | None => JsError.message error
              end)), set_env e' GetUser st).
Proof.
  intros Hreq. erewrite tryCatch_Throw; [reflexivity|].
  apply bind_Throw. by apply request_err.
Qed.

(** A user already known is returned without a request. *)
Lemma getCurrentUserId_cached client st u :
  someNonEmpty (currentUserId st) = Some u →
  getCurrentUserId http client st = (Return u, st).
Proof.
  intros Hc. unfold getCurrentUserId. unfold bind at 1. unfold gets at 1. by rewrite Hc.
Qed.

End FetchErrors.

(** X8.  How a full fetch fails before the walk, with a token configured.
    A failure of the team request that carries a response is replaced by
    "Invalid ClickUp API token. .." when the status is 401 and by "ClickUp
    API error: <message>" otherwise; one without a response is thrown as it
    is.  Without teams the fetch throws the no-teams error.  A failure of the
    user request is reported as "Failed to get current user: <message>",
    also when its status is 401: the wrapped error has no response. *)
Theorem fetch_failure_messages {W : Type} (http : Remote W) (dateNow : W → Z)
    (cfg : Config) (fuel : nat) (st : State W) :
  nonEmpty (configuredToken cfg) = true →
  (∀ error e1,
     http (configuredToken cfg) GetTeams (env st) = (inl error, e1) →
     ∃ st',
       getInProgressTasks http dateNow cfg fuel st =
         (Throw (match JsError.response error with
                 | Some r =>
                     if JsError.status r =? 401 then
                       newError "Invalid ClickUp API token. Please check your configuration."
                     else newError ("ClickUp API error: " +:+ errorMessageOf error r)
                 | None => error
                 end), st') ∧
       requests st' = requests st ++ [GetTeams]) ∧
  (∀ teams e1,
     http (configuredToken cfg) GetTeams (env st) = (inr teams, e1) →
     default [] teams = [] →
     ∃ st',
       getInProgressTasks http dateNow cfg fuel st = (Throw noTeams, st') ∧
       requests st' = requests st ++ [GetTeams]) ∧
  (∀ team0 teams e1 error e2,
     http (configuredToken cfg) GetTeams (env st) = (inr (Some (team0 :: teams)), e1) →
     someNonEmpty (currentUserId st) = None →
     http (configuredToken cfg) GetUser e1 = (inl error, e2) →
     ∃ st',
       getInProgressTasks http dateNow cfg fuel st =
         (Throw (newError ("Failed to get current user: " +:+
                   match JsError.response error with
                   | Some r => errorMessageOf error r
                   | None => JsError.message error
                   end)), st') ∧
       requests st' = requests st ++ [GetTeams; GetUser]).
Proof.
  intros Htok.
  destruct (getApiClient_cache cfg st Htok) as (st1 & Hc & E1 & R1 & _ & U1).
  split; [|split].
  - intros error e1 Hteams. rewrite <- E1 in Hteams.
    eexists. split.
    + unfold getInProgressTasks. rewrite (bind_Return _ _ _ _ _ Hc).
      erewrite tryCatch_Throw;
        [|apply bind_Throw; apply (request_err _ _ _ _ _ _ Hteams)].
      apply fetch_handler_run.
    + simpl. by rewrite R1.
  - intros teams e1 Hteams Hnone. rewrite <- E1 in Hteams.
    eexists. split.
    + unfold getInProgressTasks. rewrite (bind_Return _ _ _ _ _ Hc).
      erewrite tryCatch_Throw.
      2:{ rewrite (bind_Return _ _ _ _ _ (request_ok _ _ _ _ _ _ Hteams)).
          destruct teams as [[|team0 teams]|]; [reflexivity|discriminate|reflexivity]. }
      reflexivity.
    + simpl. by rewrite R1.
  - intros team0 teams e1 error e2 Hteams Hcached Huser. rewrite <- E1 in Hteams.
    eexists. split.
    + unfold getInProgressTasks. rewrite (bind_Return _ _ _ _ _ Hc).
      erewrite tryCatch_Throw.
      2:{ rewrite (bind_Return _ _ _ _ _ (request_ok _ _ _ _ _ _ Hteams)).
          apply bind_Throw. apply getCurrentUserId_err.
          - simpl. rewrite U1. by destruct (decide _).
          - exact Huser. }
      reflexivity.
    + simpl. rewrite R1. by rewrite <- app_assoc.
Qed.

Lemma fetch_failure_messages_witness :
  ∃ st',
    getInProgressTasks (Fixture.http Cases.rejectedUser) Fixture.clock Fixture.cfg 101
      (Fixture.start Fixture.world0) =
      (Throw (newError "Failed to get current user: Token invalid"), st') ∧
    requests st' = [GetTeams; GetUser].
Proof.
  destruct (fetch_failure_messages (Fixture.http Cases.rejectedUser) Fixture.clock
              Fixture.cfg 101 (Fixture.start Fixture.world0)) as (_ & _ & H);
    [reflexivity|].
  exact (H Fixture.team [] _ _ _ eq_refl eq_refl eq_refl).
Defined.

(** X9.  [getCurrentUserId] asks the service at most once per call, and
    not at all for a user it remembers: after a call that returned a truthy
    identifier, a further call returns the same identifier without a
    request, whatever client it is given.  A call that throws has asked
    once, throws an error without response and remembers nothing, so that
    the next call asks again. *)
Theorem user_id_asked_once {W : Type} (http : Remote W) (client : string)
    (st st' : State W) (o : Outcome string) :
  getCurrentUserId http client st = (o, st') →
  o ≠ Diverge ∧
  (requests st' = requests st ∨ requests st' = requests st ++ [GetUser]) ∧
  (∀ u, o = Return u → nonEmpty u = true →
        ∀ client', getCurrentUserId http client' st' = (Return u, st')) ∧
  (∀ e, o = Throw e →
        JsError.response e = None ∧
        requests st' = requests st ++ [GetUser] ∧
        ∀ client', requests (snd (getCurrentUserId http client' st'))
                   = requests st' ++ [GetUser]).
Proof.
  assert (∀ c (s : State W), someNonEmpty (currentUserId s) = None →
            requests (snd (getCurrentUserId http c s)) = requests s ++ [GetUser]) as Hask.
  { intros c s Hnone. unfold getCurrentUserId. unfold bind at 1. unfold gets at 1.
    rewrite Hnone.
    destruct (http c GetUser (env s)) as [[error|userId] e'] eqn:Hreq.
    - by rewrite (getCurrentUserId_err_run http c s error e' Hreq).
    - erewrite tryCatch_Return;
        [|by rewrite (bind_Return _ _ _ _ _ (request_ok http _ _ _ _ _ Hreq))].
      done. }
  unfold getCurrentUserId. unfold bind at 1. unfold gets at 1.
  destruct (someNonEmpty (currentUserId st)) as [v|] eqn:Hc.
  - intros [= <- <-]. split; [done|]. split; [by left|]. split; [|done].
    intros u [= <-] _ client'. by apply getCurrentUserId_cached.
  - destruct (http client GetUser (env st)) as [[error|userId] e'] eqn:Hreq.
    + rewrite (getCurrentUserId_err_run http client st error e' Hreq).
      intros [= <- <-]. split; [done|]. split; [by right|]. split; [done|].
      intros e [= <-]. split; [done|]. split; [done|].
      intros client'. by apply Hask.
    + erewrite tryCatch_Return;
        [|by rewrite (bind_Return _ _ _ _ _ (request_ok http _ _ _ _ _ Hreq))].
      intros [= <- <-]. split; [done|]. split; [by right|]. split; [|done].
      intros u [= <-] Hu client'. apply getCurrentUserId_cached. simpl. by rewrite Hu.
Qed.

Lemma user_id_asked_once_witness :
  getCurrentUserId (Fixture.http Fixture.bare) "pk_other"
    (snd (getCurrentUserId (Fixture.http Fixture.bare) "pk_token"
            (Fixture.start Fixture.world0)))
  = (Return "42",
     snd (getCurrentUserId (Fixture.http Fixture.bare) "pk_token"
            (Fixture.start Fixture.world0))).
Proof.
  destruct (user_id_asked_once (Fixture.http Fixture.bare) "pk_token"
              (Fixture.start Fixture.world0)
              (snd (getCurrentUserId (Fixture.http Fixture.bare) "pk_token"
                      (Fixture.start Fixture.world0)))
              (Return "42")) as (_ & _ & H & _).
  - vm_compute. reflexivity.
  - exact (H "42" eq_refl eq_refl "pk_other").
Defined.

(** X10.  When the fetch started by [refresh()] settles, the provider stops
    loading and fires its change event, whatever the outcome.  A fetch that
    returned replaces the snapshot; a fetch that threw leaves the snapshot
    and the timer registry as they were and shows "Failed to load ClickUp
    tasks: <message>". *)
Theorem refresh_settles {W : Type} (http : Remote W) (dateNow : W → Z) (cfg : Config)
    (fuel : nat) (p : Provider.t) (st : State W) :
  (101 ≤ fuel)%nat →
  ∃ p' st',
    settleRefresh http dateNow cfg fuel p st = (Return p', st') ∧
    Provider.loading p' = false ∧
    Provider.fired p' = (Provider.fired p + 1)%nat ∧
    match fst (getInProgressTasks http dateNow cfg fuel st) with
    | Return tasks => Provider.tasks p' = tasks ∧ Provider.shown p' = Provider.shown p
    | Throw error =>
        Provider.tasks p' = Provider.tasks p ∧
        Provider.shown p' =
          Provider.shown p ++ ["Failed to load ClickUp tasks: " +:+ JsError.message error] ∧
        internalTimerStartTimes st' = internalTimerStartTimes st
    | Diverge => False
    end.
Proof.
  intros Hfuel. unfold settleRefresh.
  destruct (getInProgressTasks http dateNow cfg fuel st) as [[tasks|error|] st1] eqn:Hrun.
  - eexists _, _. split; [by rewrite (bind_Return _ _ _ _ _ (attempt_Return _ _ _ _ Hrun))|].
    done.
  - eexists _, _. split; [by rewrite (bind_Return _ _ _ _ _ (attempt_Throw _ _ _ _ Hrun))|].
    simpl. repeat split; try done.
    exact (throwKeeps_getInProgressTasks http dateNow cfg fuel _ _ _ Hrun).
  - by destruct (ends_getInProgressTasks http dateNow cfg fuel Hfuel _ _ _ Hrun).
Qed.

Lemma refresh_settles_witness :
  ∃ p' st',
    settleRefresh (Fixture.http Cases.rejectedToken) Fixture.clock Fixture.cfg 101
      Fixture.snapshotX Cases.staleRegistry = (Return p', st') ∧
    Provider.loading p' = false ∧
    Provider.tasks p' = Provider.tasks Fixture.snapshotX ∧
    Provider.shown p' =
      ["Failed to load ClickUp tasks: Invalid ClickUp API token. Please check your configuration."].
Proof.
  destruct (refresh_settles (Fixture.http Cases.rejectedToken) Fixture.clock Fixture.cfg 101
              Fixture.snapshotX Cases.staleRegistry) as (p' & st' & Hrun & Hl & _ & H); [lia|].
  exists p', st'. split; [exact Hrun|]. split; [exact Hl|].
  revert H. vm_compute fst. intros (Ht & Hs & _). split; [exact Ht|exact Hs].
Defined.

(** ** What a listing returns *)

Lemma processSubtasks_app space l1 l2 acc :
  processSubtasks space (l1 ++ l2) acc = processSubtasks space l2 (processSubtasks space l1 acc).
Proof.
  revert acc. induction l1 as [|f rest IH]; intros [seen out]; [done|].
  simpl. by destruct (decide (ApiTask.id f ∈ seen)).
Qed.

(** The nested loops of [getTasksFromList] are one loop over the tasks
    followed by their subtasks. *)
Lemma processTasks_flat space allTasks acc :
  processTasks space allTasks acc = processSubtasks space (withSubtasks allTasks) acc.
Proof.
  revert acc. induction allTasks as [|task rest IH]; intros [seen out]; [done|].
  unfold withSubtasks. cbn [map concat]. fold (withSubtasks rest).
  rewrite processSubtasks_app. cbn [processTasks processSubtasks].
  rewrite IH.
  destruct (decide (ApiTask.id (ApiTask.own task) ∈ seen)); by destruct (ApiTask.subtasks task).
Qed.

Lemma stamp_id space f : ClickUpTask.id (stamp space f) = ApiTask.id f.
Proof. done. Qed.

(** The loop keeps [processedTaskIds] equal to the identifiers of
    [processedTasks], adds every identifier it meets, and appends stamped
    tasks only. *)
Lemma processSubtasks_inv space l seen out :
  (∀ i, i ∈ seen ↔ i ∈ map ClickUpTask.id out) →
  let r := processSubtasks space l (seen, out) in
  (∀ i, i ∈ fst r ↔ i ∈ map ClickUpTask.id (snd r)) ∧
  (∀ i, i ∈ fst r ↔ i ∈ seen ∨ i ∈ map ApiTask.id l) ∧
  (∀ t, t ∈ snd r → t ∈ out ∨ ∃ f, f ∈ l ∧ t = stamp space f).
Proof.
  revert seen out. induction l as [|f rest IH]; intros seen out Hinv; simpl.
  - split; [done|]. split; [|by left]. intros i. split; [by left|].
    intros [?|Hi]; [done | by apply elem_of_nil in Hi].
  - destruct (decide (ApiTask.id f ∈ seen)) as [Hin|Hnin].
    + destruct (IH seen out Hinv) as (H1 & H2 & H3). split; [done|]. split.
      * intros i. rewrite H2, elem_of_cons. split; [tauto|].
        intros [?|[->|?]]; tauto.
      * intros t Ht. destruct (H3 t Ht) as [?|(g & Hg & ->)]; [by left|].
        right. exists g. split; [by apply elem_of_cons; right | done].
    + destruct (IH ({[ApiTask.id f]} ∪ seen) (out ++ [stamp space f])) as (H1 & H2 & H3).
      { intros i. rewrite elem_of_union, elem_of_singleton, map_app, elem_of_app, Hinv.
        simpl. rewrite list_elem_of_singleton. tauto. }
      split; [done|]. split.
      * intros i. rewrite H2, elem_of_union, elem_of_singleton, elem_of_cons. tauto.
      * intros t Ht. destruct (H3 t Ht) as [Hout|(g & Hg & ->)].
        -- apply elem_of_app in Hout as [?|Hf]; [by left|].
           apply list_elem_of_singleton in Hf. subst t. right. exists f.
           split; [by apply elem_of_cons; left | done].
        -- right. exists g. split; [by apply elem_of_cons; right | done].
Qed.

Section ListingPages.
Context {W : Type}.
Variable http : Remote W.
Variables (client listId : string) (assignee : option string).
(** A server that answers the listing of this list by page number, with a
    page or with a failure. *)
Variable answers : nat → JsError.t + option (list ApiTask.t).
Hypothesis Hanswers :
  ∀ w p, fst (http client (GetListTasks listId p assignee) w) = answers p.
Implicit Types st : State W.

Lemma request_answer p st :
  ∃ e', request http client (GetListTasks listId p assignee) st =
        (match answers p with inr page => Return page | inl error => Throw error end,
         set_env e' (GetListTasks listId p assignee) st).
Proof.
  destruct (http client (GetListTasks listId p assignee) (env st)) as [res e'] eqn:E.
  pose proof (Hanswers (env st) p) as H. rewrite E in H. simpl in H. subst res.
  exists e'. destruct (answers p); [by apply request_err | by apply request_ok].
Qed.

(** Against such a server the loop collects the pages from the first one to
    the first page that is not full (or to page 100), in order, and throws
    at the first failure. *)
Lemma fetchPages_answers (k : nat) :
  ∀ p fuel all st, (p + k = 100)%nat → (k < fuel)%nat →
  ∃ q o st',
    fetchPages http fuel client listId assignee p all st = (o, st') ∧
    (p ≤ q ≤ 100)%nat ∧
    (∀ r, (p ≤ r < q)%nat →
          ∃ page, answers r = inr page ∧ length (default [] page) = pageSize) ∧
    match answers q with
    | inr page =>
        (q = 100%nat ∨ length (default [] page) ≠ pageSize) ∧
        o = Return (all ++ concat (map (λ r, pageOf (answers r)) (seq p (S q - p))))
    | inl error => o = Throw error ∧ logged st' = logged st
    end.
Proof.
  induction k as [|k IH]; intros p fuel all st Hp Hfuel;
    (destruct fuel as [|fuel]; [lia|]); simpl;
    destruct (request_answer p st) as (e' & Hreq);
    destruct (answers p) as [error|page] eqn:Hans.
  - exists p. eexists _, _. split; [by rewrite (bind_Throw _ _ _ _ _ Hreq)|].
    split; [lia|]. split; [intros; lia|]. by rewrite Hans.
  - rewrite (bind_Return _ _ _ _ _ Hreq).
    replace (100 <? p + 1)%nat with true by (symmetry; apply Nat.ltb_lt; lia).
    exists p. eexists _, _. split; [reflexivity|]. split; [lia|]. split; [intros; lia|].
    rewrite Hans. split; [left; lia|].
    replace (S p - p)%nat with 1%nat by lia. simpl. rewrite Hans. simpl.
    by rewrite app_nil_r.
  - exists p. eexists _, _. split; [by rewrite (bind_Throw _ _ _ _ _ Hreq)|].
    split; [lia|]. split; [intros; lia|]. by rewrite Hans.
  - rewrite (bind_Return _ _ _ _ _ Hreq).
    replace (100 <? p + 1)%nat with false by (symmetry; apply Nat.ltb_ge; lia).
    destruct (length (default [] page) =? pageSize)%nat eqn:Hfull.
    + apply Nat.eqb_eq in Hfull.
      destruct (IH (p + 1)%nat fuel (all ++ default [] page)
                   (set_env e' (GetListTasks listId p assignee) st))
        as (q & o & st' & Hrun & Hq & Hbelow & Hlast); [lia..|].
      exists q, o, st'. split; [exact Hrun|]. split; [lia|]. split.
      * intros r Hr. destruct (decide (r = p)) as [->|]; [by exists page|].
        apply Hbelow. lia.
      * destruct (answers q) as [error|pageq]; [done|].
        destruct Hlast as [Hstop ->]. split; [done|]. f_equal.
        replace (S q - p)%nat with (S (S q - (p + 1))) by lia.
        simpl. rewrite Hans. simpl. rewrite <- app_assoc.
        by replace (S p) with (p + 1)%nat by lia.
    + apply Nat.eqb_neq in Hfull.
      exists p. eexists _, _. split; [reflexivity|]. split; [lia|]. split; [intros; lia|].
      rewrite Hans. split; [by right|].
      replace (S p - p)%nat with 1%nat by lia. simpl. rewrite Hans. simpl.
      by rewrite app_nil_r.
Qed.

End ListingPages.

(** X11.  What a listing of one list returns, against a server that answers
    the page requests of the list by page number.  The pages are fetched in
    order up to the first page that is not full, or to page 100.  When they
    all arrive, the result holds every task of every one of these pages and
    every one of their subtasks (one level) exactly once, by identifier,
    each stamped with the space of the list and not flagged as tracked.
    When the request for one of them fails, the result is empty, whatever
    the earlier pages held, and the failure is logged, not thrown. *)
Theorem listing_flattens_pages_once {W : Type} (http : Remote W) (fuel : nat)
    (client listId : string) (space : Ref.t) (assigneeId : option string)
    (answers : nat → JsError.t + option (list ApiTask.t)) (st : State W) :
  (101 ≤ fuel)%nat →
  (∀ w p, fst (http client (GetListTasks listId p (someNonEmpty assigneeId)) w)
          = answers p) →
  ∃ last tasks st',
    getTasksFromList http fuel client listId space assigneeId st = (Return tasks, st') ∧
    (last ≤ 100)%nat ∧
    (∀ r, (r < last)%nat →
          ∃ page, answers r = inr page ∧ length (default [] page) = pageSize) ∧
    match answers last with
    | inr page =>
        (last = 100%nat ∨ length (default [] page) ≠ pageSize) ∧
        NoDup (map ClickUpTask.id tasks) ∧
        (∀ i, i ∈ map ClickUpTask.id tasks ↔
              i ∈ map ApiTask.id (withSubtasks (pagesUpTo answers last))) ∧
        (∀ t, t ∈ tasks →
              (∃ f, f ∈ withSubtasks (pagesUpTo answers last) ∧ t = stamp space f) ∧
              ClickUpTask.space t = Some (Ref.mk (Ref.id space) (Ref.name space)) ∧
              ClickUpTask.isCurrentlyTracked t = None)
    | inl error =>
        tasks = [] ∧
        logged st' = logged st ++
          ["Error fetching tasks from list " +:+ listId +:+ ": " +:+ errorToString error]
    end.
Proof.
  intros Hfuel Hanswers.
  destruct (fetchPages_answers http client listId (someNonEmpty assigneeId) answers Hanswers
              100 0%nat fuel [] st) as (last & o & st1 & Hrun & Hlast & Hbelow & Hcase);
    [lia..|].
  exists last. unfold getTasksFromList.
  destruct (answers last) as [error|page] eqn:Hans.
  - destruct Hcase as [-> Hlog].
    eexists _, _. split.
    { rewrite (tryCatch_Throw _ _ _ _ _ (bind_Throw _ _ _ _ _ Hrun)). reflexivity. }
    split; [lia|]. split; [intros r Hr; apply Hbelow; lia|].
    split; [done|]. simpl. by rewrite Hlog.
  - destruct Hcase as [Hstop ->].
    eexists _, _. split.
    { apply tryCatch_Return. rewrite (bind_Return _ _ _ _ _ Hrun). reflexivity. }
    split; [lia|]. split; [intros r Hr; apply Hbelow; lia|].
    split; [done|].
    replace (S last - 0)%nat with (S last) by lia. simpl app.
    change (concat (map (λ r, pageOf (answers r)) (seq 0 (S last))))
      with (pagesUpTo answers last).
    split.
    { apply processTasks_NoDup; [|constructor].
      intros i Hi. by apply elem_of_nil in Hi. }
    rewrite processTasks_flat.
    destruct (processSubtasks_inv space (withSubtasks (pagesUpTo answers last)) ∅ [])
      as (H1 & H2 & H3).
    { intros i. simpl. split; intros Hi;
        [by apply elem_of_empty in Hi | by apply elem_of_nil in Hi]. }
    split.
    + intros i. rewrite <- H1, H2. split; [|tauto].
      intros [Hi|?]; [by apply elem_of_empty in Hi | done].
    + intros t Ht. destruct (H3 t Ht) as [Hnil|(f & Hf & ->)]; [by apply elem_of_nil in Hnil|].
      split; [by exists f | done].
Qed.

Lemma listing_flattens_pages_once_witness :
  ∃ tasks st',
    getTasksFromList (Fixture.http Cases.twoPages) 101 "pk_token" "L" Fixture.space1
      (Some "42") (Fixture.start Fixture.world0) = (Return tasks, st') ∧
    map ClickUpTask.id tasks = ["t"; "u"; "s"] ∧
    ∀ i, i ∈ map ClickUpTask.id tasks ↔
         i ∈ map ApiTask.id
               (withSubtasks
                  (pagesUpTo (λ p, inr (Fixture.pages Cases.twoPages "L" p)) 1)).
Proof.
  destruct (listing_flattens_pages_once (Fixture.http Cases.twoPages) 101 "pk_token" "L"
              Fixture.space1 (Some "42")
              (λ p, inr (Fixture.pages Cases.twoPages "L" p))
              (Fixture.start Fixture.world0))
    as (last & tasks & st' & Hrun & Hle & Hbelow & Hlast).
  - lia.
  - intros w p. reflexivity.
  - assert (last = 1%nat) as ->.
    { destruct last as [|[|last]]; [|done|].
      - destruct Hlast as ([Habs|Habs] & _); [done|]. by destruct Habs.
      - destruct (Hbelow 1%nat) as (page & [= <-] & Hlen); [lia|]. done. }
    destruct Hlast as (_ & _ & Hids & _).
    exists tasks, st'. split; [exact Hrun|]. split; [|exact Hids].
    revert Hrun. vm_compute. by intros [= <- _].
Defined.

(** ** The registry after reconciliation *)

Section ReconcileExact.
Context {W : Type}.
Variable dateNow : W → Z.
Implicit Types st : State W.

(** One task marked: the start instant is written only for the tracked
    task, and only when the registry has none for it. *)
Lemma markTracked_exact (tracked : string) (task : ClickUpTask.t) st :
  ∃ st',
    markTracked dateNow tracked task st =
      (Return (ClickUpTask.set_isCurrentlyTracked
                 (Some (String.eqb (ClickUpTask.id task) tracked)) task), st') ∧
    internalTimerStartTimes st' =
      (if String.eqb (ClickUpTask.id task) tracked then
         match internalTimerStartTimes st !! tracked with
         | Some _ => internalTimerStartTimes st
         | None => <[tracked := dateNow (env st)]> (internalTimerStartTimes st)
         end
       else internalTimerStartTimes st) ∧
    env st' = env st.
Proof.
  unfold markTracked, bind, gets, now, modify, log, ret.
  destruct (String.eqb_spec (ClickUpTask.id task) tracked) as [Heq|Hne]; simpl.
  - rewrite Heq. destruct (internalTimerStartTimes st !! tracked) as [t0|] eqn:Hl.
    + rewrite bool_decide_true by done. simpl. by eexists.
    + rewrite bool_decide_false by (by intros [? ?]). simpl. by eexists.
  - by eexists.
Qed.

Lemma markAll_exact (tracked : string) (tasks : list ClickUpTask.t) st :
  ∃ st',
    forEachMap tasks (markTracked dateNow tracked) st =
      (Return (map (λ task, ClickUpTask.set_isCurrentlyTracked
                              (Some (String.eqb (ClickUpTask.id task) tracked)) task)
                   tasks), st') ∧
    internalTimerStartTimes st' =
      (if existsb (λ task, String.eqb (ClickUpTask.id task) tracked) tasks then
         match internalTimerStartTimes st !! tracked with
         | Some _ => internalTimerStartTimes st
         | None => <[tracked := dateNow (env st)]> (internalTimerStartTimes st)
         end
       else internalTimerStartTimes st) ∧
    env st' = env st.
Proof.
  revert st. induction tasks as [|task rest IH]; intros st; simpl.
  - by exists st.
  - destruct (markTracked_exact tracked task st) as (st1 & H1 & K1 & E1).
    destruct (IH st1) as (st2 & H2 & K2 & E2).
    exists st2. split; [|split; [|congruence]].
    + rewrite (bind_Return _ _ _ _ _ H1). by rewrite (bind_Return _ _ _ _ _ H2).
    + rewrite K2, K1, E1.
      destruct (String.eqb (ClickUpTask.id task) tracked); simpl; [|done].
      destruct (internalTimerStartTimes st !! tracked) as [t0|] eqn:Hl.
      * rewrite Hl. by destruct (existsb _ rest).
      * rewrite lookup_insert_eq. by destruct (existsb _ rest).
Qed.

(** The registry after [reconcileTimers], from any state. *)
Lemma reconcileTimers_exact (currentlyTrackedTaskId : option string)
    (filteredTasks : list ClickUpTask.t) :
  ∀ st0 : State W, ∃ st',
    reconcileTimers dateNow currentlyTrackedTaskId filteredTasks st0 =
      (Return (flagged currentlyTrackedTaskId filteredTasks), st') ∧
    env st' = env st0 ∧
    internalTimerStartTimes st' =
      match someNonEmpty currentlyTrackedTaskId with
      | None => ∅
      | Some tracked =>
          match internalTimerStartTimes st0 !! tracked with
          | Some startTime => {[tracked := startTime]}
          | None =>
              if existsb (λ task, String.eqb (ClickUpTask.id task) tracked) filteredTasks
              then {[tracked := dateNow (env st0)]}
              else ∅
          end
      end.
Proof.
  intros st0. unfold reconcileTimers, flagged.
  destruct (someNonEmpty currentlyTrackedTaskId) as [tracked|].
  - unfold bind at 1. unfold gets at 1.
    match goal with |- context [forEach ?ks ?body] =>
      destruct (purge_run
        (λ prevTaskId, "Cleared internal timer for previous task " +:+ prevTaskId +:+
             " (tracking switched to " +:+ tracked +:+ ", time_spent updated)") ks st0)
        as (st1 & H1 & K1 & E1 & R1)
    end.
    destruct (markAll_exact tracked filteredTasks st1) as (st2 & H2 & K2 & E2).
    exists st2. split; [by rewrite (bind_Return _ _ _ _ _ H1)|]. split; [congruence|].
    assert (internalTimerStartTimes st1 =
            match internalTimerStartTimes st0 !! tracked with
            | Some startTime => {[tracked := startTime]}
            | None => ∅
            end) as Hpurged.
    { apply map_eq. intros k. rewrite K1.
      destruct (decide (k = tracked)) as [->|Hne].
      - rewrite decide_False.
        + destruct (internalTimerStartTimes st0 !! tracked);
            [by rewrite lookup_singleton_eq | by rewrite lookup_empty].
        + intros Hin. apply list_elem_of_In, filter_In in Hin as [_ Hin].
          by rewrite String.eqb_refl in Hin.
      - transitivity (@None Z).
        + destruct (decide _) as [|Hnin]; [done|].
          destruct (internalTimerStartTimes st0 !! k) as [v|] eqn:Hk; [|done].
          exfalso. apply Hnin. apply list_elem_of_In, filter_In. split.
          * apply list_elem_of_In, elem_of_elements, elem_of_dom. by exists v.
          * apply negb_true_iff. by apply String.eqb_neq.
        + destruct (internalTimerStartTimes st0 !! tracked);
            [by rewrite lookup_singleton_ne | by rewrite lookup_empty]. }
    rewrite K2, E1, Hpurged.
    destruct (internalTimerStartTimes st0 !! tracked) as [t0|].
    + rewrite lookup_singleton_eq. by destruct (existsb _ filteredTasks).
    + rewrite lookup_empty. destruct (existsb _ filteredTasks); [|done].
      by rewrite insert_empty.
  - unfold bind at 1. unfold gets at 1.
    destruct (0 <? size (internalTimerStartTimes st0))%nat eqn:Hsize.
    + eexists. split; [reflexivity|]. done.
    + exists st0. split; [reflexivity|]. split; [done|].
      apply Nat.ltb_ge in Hsize. apply map_size_empty_iff. lia.
Qed.

End ReconcileExact.

(** X12.  The registry after reconciliation, exactly.  Without a current
    timer on the service the registry is empty.  With one, the registry
    holds at most the tracked task: with the start instant it had before when
    there was one (a refresh does not restart a running clock), else with the
    present instant when the tracked task is among the filtered tasks, and
    nothing when it is not.  The tasks come back flagged.  Reconciling once
    more with the same arguments changes nothing in the registry. *)
Theorem reconcile_registry_exact {W : Type} (dateNow : W → Z)
    (currentlyTrackedTaskId : option string) (filteredTasks : list ClickUpTask.t)
    (st : State W) :
  ∃ st',
    reconcileTimers dateNow currentlyTrackedTaskId filteredTasks st =
      (Return (flagged currentlyTrackedTaskId filteredTasks), st') ∧
    internalTimerStartTimes st' =
      match someNonEmpty currentlyTrackedTaskId with
      | None => ∅
      | Some tracked =>
          match internalTimerStartTimes st !! tracked with
          | Some startTime => {[tracked := startTime]}
          | None =>
              if existsb (λ task, String.eqb (ClickUpTask.id task) tracked) filteredTasks
              then {[tracked := dateNow (env st)]}
              else ∅
          end
      end ∧
    internalTimerStartTimes
      (snd (reconcileTimers dateNow currentlyTrackedTaskId filteredTasks st'))
      = internalTimerStartTimes st'.
Proof.
  pose proof (reconcileTimers_exact dateNow currentlyTrackedTaskId filteredTasks) as Hexact.
  destruct (Hexact st) as (st' & Hrun & Henv & Hreg).
  exists st'. split; [done|]. split; [done|].
  destruct (Hexact st') as (st'' & Hrun' & _ & Hreg'). rewrite Hrun'. simpl.
  rewrite Hreg', Hreg.
  destruct (someNonEmpty currentlyTrackedTaskId) as [tracked|]; [|done].
  destruct (internalTimerStartTimes st !! tracked) as [t0|].
  - by rewrite lookup_singleton_eq.
  - destruct (existsb _ filteredTasks) eqn:Hex.
    + by rewrite lookup_singleton_eq.
    + by rewrite lookup_empty.
Qed.

(** ** One task updated *)

Lemma filter_sublist {A} (f : A → bool) (l : list A) : List.filter f l `sublist_of` l.
Proof.
  induction l as [|a l IH]; simpl; [constructor|].
  destruct (f a); by constructor.
Qed.

Lemma filter_sublist_insert {A} (f : A → bool) (l : list A) (i : nat) (x y : A) :
  l !! i = Some x → f x = false → List.filter f l `sublist_of` <[i := y]> l.
Proof.
  revert i. induction l as [|a l IH]; intros [|i] Hl Hf; simpl in *; try done.
  - inversion Hl; subst a. rewrite Hf. constructor. apply filter_sublist.
  - destruct (f a); constructor; by apply IH.
Qed.

Section Commands.
Context {W : Type}.
Variable http : Remote W.
Variable dateNow : W → Z.
Variable cfg : Config.
Implicit Types st : State W.

Lemma returns_tryCatch {A} (m : M W A) h :
  ends m → (∀ e, returns (h e)) → returns (tryCatch m h).
Proof.
  intros Hm Hh st. destruct (m st) as [[a|e|] st1] eqn:H.
  - exists a, st1. by apply tryCatch_Return.
  - destruct (Hh e st1) as (a & st2 & H2). exists a, st2.
    by rewrite (tryCatch_Throw _ _ _ _ _ H).
  - by destruct (Hm _ _ _ H).
Qed.

Lemma returns_log msg : returns (log msg : M W unit).
Proof. apply returns_modify. Qed.

Lemma returns_consoleError msg : returns (consoleError msg : M W unit).
Proof. apply returns_modify. Qed.

Lemma returns_gets {A} (f : State W → A) : returns (gets f).
Proof. intros st. by eexists _, _. Qed.

Lemma returns_updateTask taskId p : returns (updateTask http cfg taskId p).
Proof.
  unfold updateTask. apply returns_tryCatch.
  - apply ends_bind; [intros st o st'; apply getTask_ends|].
    intros [updatedTask|]; [|apply ends_ret].
    destruct (list_find _ _) as [[taskIndex existingTask]|]; [|apply ends_ret].
    apply ends_bind; [|intros; apply ends_ret].
    unfold isInternallyTracked. apply ends_bind; [apply ends_gets | intros; apply ends_ret].
  - intros e. apply returns_bind; [apply returns_consoleError | intros; apply returns_ret].
Qed.

(** A start that returns has written the present instant for the task. *)
Lemma start_registers_now fuel taskId :
  ∀ st st', startTimeTracking http dateNow cfg fuel taskId st = (Return tt, st') →
            internalTimerStartTimes st' !! taskId = Some (dateNow (env st')).
Proof.
  induction fuel as [|fuel IH]; intros st st' H; simpl in H; [done|].
  apply bind_Return_inv in H as (client & st0 & _ & H).
  destruct client as [client|]; [|done].
  apply tryCatch_inv in H as [(a & H & _)|[(e & st1 & _ & H)|[_ H]]]; [| |done].
  - apply bind_Return_inv in H as (teams & st1 & _ & H).
    destruct teams as [[|team0 teams]|]; [done| |done].
    apply bind_Return_inv in H as (u & st2 & _ & H).
    unfold bind, now, gets, modify, log, ret in H. inversion H; subst. simpl.
    apply lookup_insert_eq.
  - destruct (JsError.response e) as [r|]; [|done].
    destruct ((JsError.status r =? 400) && _); [|done].
    apply bind_Return_inv in H as (u1 & st2 & _ & H).
    apply bind_Return_inv in H as (u2 & st3 & _ & H).
    by apply IH in H.
Qed.

Lemma ends_log msg : ends (log msg : M W unit).
Proof. apply ends_modify. Qed.

Lemma ends_stopTimeTracking : ends (stopTimeTracking http cfg).
Proof.
  unfold stopTimeTracking.
  apply ends_bind; [apply returns_ends, returns_getApiClient|].
  intros [client|]; [|apply ends_throw].
  apply ends_tryCatch.
  - apply ends_bind; [apply ends_request|].
    intros [[|team0 teams]|]; [apply ends_throw| |apply ends_throw].
    apply ends_bind; [apply returns_ends, returns_getCurrentTimeEntryTaskId|]. intros cur.
    apply ends_bind; [apply ends_request|]. intros _.
    apply ends_bind.
    { destruct (someNonEmpty cur).
      - apply ends_bind; [apply ends_modify | intros; apply ends_log].
      - apply ends_bind; [apply ends_gets|]. intros timers.
        destruct (0 <? size timers)%nat; [|apply ends_ret].
        apply ends_bind; [apply ends_modify | intros; apply ends_log]. }
    intros _. apply ends_bind; [apply ends_log | intros; apply ends_ret].
  - intros e. destruct (JsError.response e) as [r|]; [|apply ends_throw].
    destruct ((JsError.status r =? 400) || _); [|apply ends_throw].
    apply ends_bind; [apply ends_log | intros; apply ends_ret].
Qed.

(** [stopTimeTracking] touches the registry only after the stop request has
    succeeded, and nothing can fail from there on. *)
Lemma throwKeeps_stopTimeTracking : throwKeeps (stopTimeTracking http cfg).
Proof.
  unfold stopTimeTracking.
  apply throwKeeps_bind; [apply keeps_getApiClient|].
  intros [client|]; [|apply keeps_throwKeeps, keeps_throw].
  apply throwKeeps_tryCatch.
  - apply throwKeeps_bind; [apply keeps_request|].
    intros [[|team0 teams]|]; [apply keeps_throwKeeps, keeps_throw|
                               |apply keeps_throwKeeps, keeps_throw].
    apply throwKeeps_bind; [apply keeps_getCurrentTimeEntryTaskId|]. intros cur.
    apply throwKeeps_bind; [apply keeps_request|]. intros _.
    apply returns_throwKeeps. apply returns_bind.
    { destruct (someNonEmpty cur).
      - apply returns_bind; [apply returns_modify | intros; apply returns_log].
      - apply returns_bind; [apply returns_gets|]. intros timers.
        destruct (0 <? size timers)%nat; [|apply returns_ret].
        apply returns_bind; [apply returns_modify | intros; apply returns_log]. }
    intros _. apply returns_bind; [apply returns_log | intros; apply returns_ret].
  - intros e. apply keeps_throwKeeps.
    destruct (JsError.response e) as [r|]; [|apply keeps_throw].
    destruct ((JsError.status r =? 400) || _); [|apply keeps_throw].
    apply keeps_bind; [apply keeps_log | intros; apply keeps_ret].
Qed.

End Commands.

(** X13.  [updateTask(taskId)] always completes and touches one task only:
    the snapshot entries with another identifier stay, in their order; no
    entry is added; the timer registry and the messages shown are left as
    they were. *)
Theorem update_touches_one_task {W : Type} (http : Remote W) (cfg : Config)
    (taskId : string) (p : Provider.t) (st : State W) :
  ∃ p' st',
    updateTask http cfg taskId p st = (Return p', st') ∧
    internalTimerStartTimes st' = internalTimerStartTimes st ∧
    List.filter (λ t, negb (String.eqb (ClickUpTask.id t) taskId)) (Provider.tasks p)
      `sublist_of` Provider.tasks p' ∧
    (length (Provider.tasks p') ≤ length (Provider.tasks p))%nat ∧
    Provider.shown p' = Provider.shown p.
Proof.
  destruct (returns_updateTask http cfg taskId p st) as (p' & st' & Hrun).
  exists p', st'. split; [done|].
  split; [exact (keeps_updateTask http cfg taskId p _ _ _ Hrun)|].
  revert Hrun. unfold updateTask. intros H.
  apply tryCatch_inv in H as [(a & H & Ha)|[(e & st1 & _ & H)|[_ H]]]; [| |done].
  - inversion Ha; subst a. clear Ha.
    apply bind_Return_inv in H as (updatedTask & st1 & _ & H).
    destruct updatedTask as [updatedTask|].
    + destruct (list_find _ _) as [[taskIndex existingTask]|] eqn:Hfind.
      * apply list_find_Some in Hfind as (Hlook & Hid & _).
        unfold isInternallyTracked, bind, gets, ret in H. inversion H; subst. simpl.
        split; [|split; [|done]].
        -- eapply filter_sublist_insert; [exact Hlook|].
           cbv beta. by rewrite String.eqb_refl.
        -- by rewrite length_insert.
      * inversion H; subst. split; [apply filter_sublist|]. done.
    + inversion H; subst. simpl. split; [done|]. split; [|done].
      apply sublist_length, filter_sublist.
  - unfold bind, consoleError, modify, ret in H. inversion H; subst. simpl.
    split; [apply filter_sublist|]. done.
Qed.

(** X14.  The play command never throws.  Without a task, or for a task
    without identifier, it shows one error notification and sends nothing.
    Otherwise, when it completes, either it has announced the start, and the
    registry holds an entry for the task, or it has shown "Failed to start
    time tracking: <message>", left the snapshot alone and added no entry to
    the registry. *)
Theorem play_command {W : Type} (http : Remote W) (dateNow : W → Z) (cfg : Config)
    (fuel : nat) (taskOrItem : option TaskOrItem) (ui : Ui.t) (st st' : State W)
    (o : Outcome Ui.t) :
  playTask http dateNow cfg fuel taskOrItem ui st = (o, st') →
  (∀ e, o ≠ Throw e) ∧
  match taskOrItem ≫= taskOf with
  | None =>
      st' = st ∧ ∃ message, o = Return (showAutoDismissNotification message Notify.error ui)
  | Some task =>
      if nonEmpty (ClickUpTask.id task) then
        ∀ ui', o = Return ui' →
          (Ui.notifications ui' = Ui.notifications ui ++
             [(Notify.information,
               "Started time tracking for: " +:+
               (if nonEmpty (ClickUpTask.name task) then ClickUpTask.name task
                else "Unknown Task"))] ∧
           is_Some (internalTimerStartTimes st' !! ClickUpTask.id task)) ∨
          (∃ e, Ui.notifications ui' = Ui.notifications ui ++
                  [(Notify.error, "Failed to start time tracking: " +:+ messageOrUnknown e)] ∧
                Ui.provider ui' = Ui.provider ui ∧
                internalTimerStartTimes st' ⊆ internalTimerStartTimes st)
      else
        st' = st ∧
        ∃ message, o = Return (showAutoDismissNotification message Notify.error ui)
  end.
Proof.
  unfold playTask. intros H.
  destruct taskOrItem as [x|]; simpl.
  2:{ inversion H; subst. split; [done|]. split; [done|]. by eexists. }
  destruct (taskOf x) as [task|]; simpl.
  2:{ inversion H; subst. split; [done|]. split; [done|]. by eexists. }
  destruct (nonEmpty (ClickUpTask.id task)) eqn:Hid; simpl in H.
  2:{ inversion H; subst. split; [done|]. split; [done|]. by eexists. }
  destruct (startTimeTracking http dateNow cfg fuel (ClickUpTask.id task) st)
    as [[[]|e|] st1] eqn:Hstart.
  - rewrite (bind_Return _ _ _ _ _ (attempt_Return _ _ _ _ Hstart)) in H.
    match type of H with context [updateTask http cfg ?i ?p] =>
      destruct (returns_updateTask http cfg i p st1) as (p' & st2 & Hupd)
    end.
    rewrite (bind_Return _ _ _ _ _ (attempt_Return _ _ _ _ Hupd)) in H.
    inversion H; subst. split; [done|]. intros ui' [= <-]. left. split; [done|].
    rewrite (keeps_updateTask http cfg _ _ _ _ _ Hupd).
    rewrite (start_registers_now http dateNow cfg _ _ _ _ Hstart). by eexists.
  - rewrite (bind_Return _ _ _ _ _ (attempt_Throw _ _ _ _ Hstart)) in H.
    inversion H; subst. split; [done|]. intros ui' [= <-]. right. exists e.
    split; [done|]. split; [done|].
    exact (throwShrinks_startTimeTracking http dateNow cfg _ _ _ _ _ Hstart).
  - unfold bind, attempt in H. rewrite Hstart in H. inversion H; subst.
    split; [done|]. intros ui' Habs. done.
Qed.

Lemma play_command_witness :
  ∃ ui' st',
    playTask (Fixture.http Fixture.bare) Fixture.clock Fixture.cfg 2
      (Some (IsTask Cases.taskT1)) Cases.ui0 (Fixture.start Fixture.world0)
      = (Return ui', st') ∧
    Ui.notifications ui' = [(Notify.information, "Started time tracking for: Task t1")] ∧
    is_Some (internalTimerStartTimes st' !! "t1").
Proof.
  destruct (playTask (Fixture.http Fixture.bare) Fixture.clock Fixture.cfg 2
              (Some (IsTask Cases.taskT1)) Cases.ui0 (Fixture.start Fixture.world0))
    as [o st'] eqn:Hrun.
  destruct (play_command _ _ _ _ _ _ _ _ _ Hrun) as [_ H]. simpl in H.
  assert (∃ ui', o = Return ui' ∧
            Ui.notifications ui' =
              [(Notify.information, "Started time tracking for: Task t1")])
    as (ui' & -> & Hn).
  { revert Hrun. vm_compute. intros [= <- _]. eexists. split; reflexivity. }
  exists ui', st'. split; [done|]. split; [done|].
  destruct (H ui' eq_refl) as [[_ Hreg]|(e & He & _)]; [exact Hreg|].
  rewrite Hn in He. discriminate.
Defined.

(** X15.  The stop command always completes and never adds an entry to the
    registry.  Either it announces "Stopped time tracking", and the registry
    then has no entry for the task it was given, or it shows "Failed to stop
    time tracking: <message>" and leaves the registry and the snapshot as
    they were. *)
Theorem stop_command {W : Type} (http : Remote W) (cfg : Config)
    (taskOrItem : option TaskOrItem) (ui : Ui.t) (st : State W) :
  ∃ ui' st',
    stopTask http cfg taskOrItem ui st = (Return ui', st') ∧
    internalTimerStartTimes st' ⊆ internalTimerStartTimes st ∧
    ((Ui.notifications ui' = Ui.notifications ui ++
        [(Notify.information, "Stopped time tracking")] ∧
      ∀ task, taskOrItem ≫= taskOf = Some task →
              nonEmpty (ClickUpTask.id task) = true →
              internalTimerStartTimes st' !! ClickUpTask.id task = None) ∨
     (∃ e, Ui.notifications ui' = Ui.notifications ui ++
             [(Notify.error, "Failed to stop time tracking: " +:+ messageOrUnknown e)] ∧
           Ui.provider ui' = Ui.provider ui ∧
           internalTimerStartTimes st' = internalTimerStartTimes st)).
Proof.
  unfold stopTask.
  set (task := match taskOrItem with Some x => taskOf x | None => None end).
  assert (taskOrItem ≫= taskOf = task) as -> by (by destruct taskOrItem).
  clearbody task.
  set (taskId := match task with Some t => Some (ClickUpTask.id t) | None => None end).
  match goal with |- context [bind (attempt _) (λ r, match r with
                                | inl e => ret (stopFailed e ?u) | inr _ => _ end)] =>
    set (ui1 := u)
  end.
  assert (Ui.notifications ui1 = Ui.notifications ui ∧ Ui.provider ui1 = Ui.provider ui)
    as [Hn1 Hp1].
  { unfold ui1. destruct task as [t|]; destruct (someNonEmpty taskId); done. }
  clearbody ui1.
  destruct (stopTimeTracking http cfg st) as [[stopped|e|] st1] eqn:Hstop.
  - rewrite (bind_Return _ _ _ _ _ (attempt_Return _ _ _ _ Hstop)).
    pose proof (shrinks_stopTimeTracking http cfg _ _ _ Hstop) as Hsub.
    set (st2 := match someNonEmpty taskId with
                | Some i => set_timers (delete i) st1
                | None => st1
                end).
    assert ((match someNonEmpty taskId with
             | Some i => clearInternalTimer i
             | None => ret tt
             end : M W unit) st1 = (Return tt, st2)) as Hclear.
    { unfold st2. by destruct (someNonEmpty taskId). }
    rewrite (bind_Return _ _ _ _ _ Hclear).
    assert (internalTimerStartTimes st2 ⊆ internalTimerStartTimes st) as Hsub2.
    { unfold st2. destruct (someNonEmpty taskId); [|done]. simpl.
      etrans; [apply delete_subseteq | done]. }
    assert (∀ t, task = Some t → nonEmpty (ClickUpTask.id t) = true →
                 internalTimerStartTimes st2 !! ClickUpTask.id t = None) as Hgone.
    { intros t -> Hid. unfold st2, taskId. simpl. rewrite Hid. simpl.
      apply lookup_delete_eq. }
    clearbody st2.
    match goal with |- context [match someNonEmpty ?x with Some _ => _ | None => _ end] =>
      destruct (someNonEmpty x) as [i|]
    end.
    + match goal with |- context [updateTask http cfg i ?p] =>
        destruct (returns_updateTask http cfg i p st2) as (p' & st3 & Hupd)
      end.
      rewrite (bind_Return _ _ _ _ _ (attempt_Return _ _ _ _ Hupd)).
      eexists _, _. split; [reflexivity|].
      rewrite (keeps_updateTask http cfg _ _ _ _ _ Hupd).
      split; [done|]. left. split; [by simpl; rewrite Hn1|]. done.
    + eexists _, _. split; [reflexivity|]. split; [done|]. left.
      split; [by simpl; rewrite Hn1|]. done.
  - rewrite (bind_Return _ _ _ _ _ (attempt_Throw _ _ _ _ Hstop)).
    pose proof (throwKeeps_stopTimeTracking http cfg _ _ _ Hstop) as Hsame.
    eexists _, _. split; [reflexivity|]. split; [by rewrite Hsame|]. right. exists e.
    split; [by simpl; rewrite Hn1|]. done.
  - by destruct (ends_stopTimeTracking http cfg _ _ _ Hstop).
Qed.

(** X16.  [stopTimeTracking] never runs on and never adds to the registry;
    when it throws, the registry is exactly as it was before the call. *)
Theorem stop_failure_keeps_registry {W : Type} (http : Remote W) (cfg : Config)
    (st st' : State W) (o : Outcome (option string)) :
  stopTimeTracking http cfg st = (o, st') →
  o ≠ Diverge ∧
  internalTimerStartTimes st' ⊆ internalTimerStartTimes st ∧
  (∀ e, o = Throw e → internalTimerStartTimes st' = internalTimerStartTimes st).
Proof.
  intros H. split; [exact (ends_stopTimeTracking http cfg _ _ _ H)|].
  split; [exact (shrinks_stopTimeTracking http cfg _ _ _ H)|].
  intros e ->. exact (throwKeeps_stopTimeTracking http cfg _ _ _ H).
Qed.

Lemma stop_failure_keeps_registry_witness :
  ∃ e st',
    stopTimeTracking (Fixture.http Cases.rejectedToken) Fixture.cfg Cases.staleRegistry
      = (Throw e, st') ∧
    internalTimerStartTimes st' = internalTimerStartTimes Cases.staleRegistry.
Proof.
  destruct (stopTimeTracking (Fixture.http Cases.rejectedToken) Fixture.cfg
              Cases.staleRegistry) as [o st'] eqn:Hrun.
  destruct (stop_failure_keeps_registry _ _ _ _ _ Hrun) as (_ & _ & H).
  assert (∃ e, o = Throw e) as (e & ->).
  { revert Hrun. vm_compute. intros [= <- _]. by eexists. }
  exists e, st'. split; [done|]. by apply (H e).
Defined.

Section StartAdds.
Context {W : Type}.
Variable http : Remote W.
Variable dateNow : W → Z.
Variable cfg : Config.
Implicit Types st : State W.

Lemma addsAtMost_shrinks {A} taskId (m : M W A) : shrinks m → addsAtMost taskId m.
Proof.
  intros Hm st o st' H other v _ Hv.
  exact (lookup_weaken _ _ _ _ Hv (Hm _ _ _ H)).
Qed.

Lemma addsAtMost_bind {A B} taskId (m : M W A) (k : A → M W B) :
  addsAtMost taskId m → (∀ a, addsAtMost taskId (k a)) → addsAtMost taskId (bind m k).
Proof.
  intros Hm Hk st o st' H other v Hne Hv.
  apply bind_inv in H as [(a & st1 & H1 & H2)|[(e & H1 & _)|[H1 _]]].
  - exact (Hm _ _ _ H1 _ _ Hne (Hk _ _ _ _ H2 _ _ Hne Hv)).
  - exact (Hm _ _ _ H1 _ _ Hne Hv).
  - exact (Hm _ _ _ H1 _ _ Hne Hv).
Qed.

Lemma addsAtMost_tryCatch {A} taskId (m : M W A) h :
  addsAtMost taskId m → (∀ e, addsAtMost taskId (h e)) → addsAtMost taskId (tryCatch m h).
Proof.
  intros Hm Hh st o st' H other v Hne Hv.
  apply tryCatch_inv in H as [(a & H1 & _)|[(e & st1 & H1 & H2)|[H1 _]]].
  - exact (Hm _ _ _ H1 _ _ Hne Hv).
  - exact (Hm _ _ _ H1 _ _ Hne (Hh _ _ _ _ H2 _ _ Hne Hv)).
  - exact (Hm _ _ _ H1 _ _ Hne Hv).
Qed.

Lemma addsAtMost_startTimeTracking fuel taskId :
  addsAtMost taskId (startTimeTracking http dateNow cfg fuel taskId).
Proof.
  induction fuel as [|fuel IH]; simpl.
  - intros st o st' [= _ <-] other v _ Hv. done.
  - apply addsAtMost_bind; [apply addsAtMost_shrinks, shrinks_getApiClient|].
    intros [client|]; [|apply addsAtMost_shrinks, shrinks_throw].
    apply addsAtMost_tryCatch.
    + apply addsAtMost_bind; [apply addsAtMost_shrinks, (shrinks_request http client GetTeams)|].
      intros [[|team0 teams]|]; [apply addsAtMost_shrinks, shrinks_throw|
                                 |apply addsAtMost_shrinks, shrinks_throw].
      apply addsAtMost_bind;
        [apply addsAtMost_shrinks,
           (shrinks_request http client (PostStartTimer (targetTeam cfg team0) taskId))|].
      intros _ st o st' H other v Hne Hv.
      unfold bind, now, gets, modify, log, ret in H. inversion H; subst. simpl in Hv.
      by rewrite lookup_insert_ne in Hv.
    + intros error. destruct (JsError.response error) as [r|];
        [|apply addsAtMost_shrinks, shrinks_throw].
      destruct ((JsError.status r =? 400) &&
                Js.includes (errorMessageOf error r) "already running");
        [|apply addsAtMost_shrinks, shrinks_throw].
      apply addsAtMost_bind; [apply addsAtMost_shrinks, shrinks_log|]. intros _.
      apply addsAtMost_bind; [apply addsAtMost_shrinks, shrinks_stopTimeTracking|].
      intros _. apply IH.
Qed.

End StartAdds.

(** X17.  [startTimeTracking(taskId)] touches the registry for its own task
    only: whatever its outcome and however many recoveries it went through,
    every entry of another task that the registry holds afterwards was
    there before, with the same start instant.  When the call returns, the
    task counts as internally tracked. *)
Theorem start_tracks_only_its_task {W : Type} (http : Remote W) (dateNow : W → Z)
    (cfg : Config) (fuel : nat) (taskId : string) (st st' : State W) (o : Outcome unit) :
  startTimeTracking http dateNow cfg fuel taskId st = (o, st') →
  (∀ other v, other ≠ taskId →
     internalTimerStartTimes st' !! other = Some v →
     internalTimerStartTimes st !! other = Some v) ∧
  (o = Return tt → isInternallyTracked taskId st' = (Return true, st')).
Proof.
  intros H. split.
  - exact (addsAtMost_startTimeTracking http dateNow cfg fuel taskId _ _ _ H).
  - intros ->. pose proof (start_registers_now http dateNow cfg _ _ _ _ H) as Hreg.
    unfold isInternallyTracked, bind, gets, ret. rewrite Hreg.
    by rewrite bool_decide_true by done.
Qed.

Lemma start_tracks_only_its_task_witness :
  isInternallyTracked "B"
    (snd (startTimeTracking (Fixture.http Fixture.bare) Fixture.clock Fixture.cfg 2 "B"
            Fixture.tracksA))
  = (Return true,
     snd (startTimeTracking (Fixture.http Fixture.bare) Fixture.clock Fixture.cfg 2 "B"
            Fixture.tracksA)) ∧
  internalTimerStartTimes
    (snd (startTimeTracking (Fixture.http Fixture.bare) Fixture.clock Fixture.cfg 2 "B"
            Fixture.tracksA)) !! "C" = None.
Proof.
  destruct (start_tracks_only_its_task (Fixture.http Fixture.bare) Fixture.clock Fixture.cfg
              2 "B" Fixture.tracksA
              (snd (startTimeTracking (Fixture.http Fixture.bare) Fixture.clock Fixture.cfg
                      2 "B" Fixture.tracksA))
              (Return tt)) as [Hother Htracked].
  - vm_compute. reflexivity.
  - split; [exact (Htracked eq_refl)|].
    destruct (internalTimerStartTimes _ !! "C") as [v|] eqn:Hv; [|reflexivity].
    apply Hother in Hv; [|discriminate]. vm_compute in Hv. discriminate.
Defined.

(** ** The collector of the debug walk *)

(** X18.  The collector of [debugListAllMyTasks] keeps one entry per task
    across pages and lists: started with a set of seen identifiers that is
    the set of the identifiers collected so far, without duplicates, it
    ends in such a state; it only appends, what it appends are tasks of the
    page assigned to the user, labelled with the list and the space, as many
    as it counts; and every task of the page assigned to the user is seen
    afterwards. *)
Theorem collector_keeps_one_entry_per_task (currentUserId listName spaceName : string)
    (tasks : list ApiTask.fields) (taskIdsSeen : gset string)
    (allMyTasks : list Collected.t) (tasksAssignedToMe : nat) :
  taskIdsSeen = list_to_set (map (λ c, ApiTask.id (Collected.task c)) allMyTasks) →
  NoDup (map (λ c, ApiTask.id (Collected.task c)) allMyTasks) →
  let r := collectAssigned currentUserId listName spaceName tasks
             (taskIdsSeen, allMyTasks, tasksAssignedToMe) in
  r.1.1 = list_to_set (map (λ c, ApiTask.id (Collected.task c)) r.1.2) ∧
  NoDup (map (λ c, ApiTask.id (Collected.task c)) r.1.2) ∧
  (∃ added,
     r.1.2 = allMyTasks ++ added ∧
     r.2 = (tasksAssignedToMe + length added)%nat ∧
     ∀ c, c ∈ added →
          Collected.task c ∈ tasks ∧
          Js.arrayIncludes (rawAssigneeIds (Collected.task c)) currentUserId = true ∧
          Collected.listName c = listName ∧ Collected.spaceName c = spaceName ∧
          ApiTask.id (Collected.task c) ∉ taskIdsSeen) ∧
  (∀ task, task ∈ tasks →
           Js.arrayIncludes (rawAssigneeIds task) currentUserId = true →
           ApiTask.id task ∈ r.1.1).
Proof.
  revert taskIdsSeen allMyTasks tasksAssignedToMe.
  induction tasks as [|task rest IH]; intros seen all n Hseen Hnd; simpl.
  - split; [done|]. split; [done|]. split.
    + exists []. rewrite app_nil_r. split; [done|]. split; [simpl; lia|].
      intros c Hc. by apply elem_of_nil in Hc.
    + intros task Ht. by apply elem_of_nil in Ht.
  - destruct (Js.arrayIncludes (rawAssigneeIds task) currentUserId) eqn:Hmine.
    + destruct (decide (ApiTask.id task ∈ seen)) as [Hin|Hnin].
      * destruct (IH seen all n Hseen Hnd) as (H1 & H2 & (added & Ha & Hn & Hc) & H4).
        split; [done|]. split; [done|]. split.
        -- exists added. split; [done|]. split; [done|].
           intros c Hin'. destruct (Hc c Hin') as (? & ? & ? & ? & ?).
           split; [by apply elem_of_cons; right | done].
        -- intros t [->|Ht]%elem_of_cons Hmine'; [|by apply H4].
           rewrite H1, Ha, map_app, list_to_set_app_L, <- Hseen.
           apply elem_of_union. by left.
      * destruct (IH ({[ApiTask.id task]} ∪ seen)
                    (all ++ [Collected.mk task listName spaceName]) (S n))
          as (H1 & H2 & (added & Ha & Hn & Hc) & H4).
        { rewrite map_app, list_to_set_app_L, <- Hseen. simpl.
          by rewrite union_empty_r_L, (comm_L (∪)). }
        { rewrite map_app. apply NoDup_app. split; [done|].
          split; [|apply NoDup_singleton].
          intros i Hi Hi'. simpl in Hi'. apply list_elem_of_singleton in Hi'. subst i.
          apply Hnin. rewrite Hseen. by apply elem_of_list_to_set. }
        split; [done|]. split; [done|]. split.
        -- exists (Collected.mk task listName spaceName :: added).
           split; [by rewrite Ha, <- app_assoc|]. split; [simpl; lia|].
           intros c [->|Hin']%elem_of_cons.
           ++ simpl. split; [by apply elem_of_cons; left | done].
           ++ destruct (Hc c Hin') as (? & ? & ? & ? & Hnew).
              split; [by apply elem_of_cons; right|]. repeat split; try done.
              intros Hx. apply Hnew, elem_of_union. by right.
        -- intros t [->|Ht]%elem_of_cons Hmine'; [|by apply H4].
           rewrite H1, Ha, !map_app, !list_to_set_app_L. simpl.
           apply elem_of_union. left. apply elem_of_union. right.
           apply elem_of_union. left. by apply elem_of_singleton.
    + destruct (IH seen all n Hseen Hnd) as (H1 & H2 & (added & Ha & Hn & Hc) & H4).
      split; [done|]. split; [done|]. split.
      * exists added. split; [done|]. split; [done|].
        intros c Hin'. destruct (Hc c Hin') as (? & ? & ? & ? & ?).
        split; [by apply elem_of_cons; right | done].
      * intros t [->|Ht]%elem_of_cons Hmine'; [congruence | by apply H4].
Qed.

Lemma collector_keeps_one_entry_per_task_witness :
  map (λ c, ApiTask.id (Collected.task c))
      (collectAssigned "42" "List" "Space" Cases.debugPage (∅, [], 0%nat)).1.2 = ["t1"] ∧
  NoDup (map (λ c, ApiTask.id (Collected.task c))
           (collectAssigned "42" "List" "Space" Cases.debugPage (∅, [], 0%nat)).1.2).
Proof.
  split; [reflexivity|].
  apply (collector_keeps_one_entry_per_task "42" "List" "Space" Cases.debugPage ∅ [] 0).
  - reflexivity.
  - simpl. constructor.
Defined.

(** ** Configured statuses with surrounding blanks *)

Lemma trimStart_head (c : ascii) (r : string) :
  Js.isWhiteSpace c = false → Js.trimStart (String c r) = String c r.
Proof. intros H. simpl. by rewrite H. Qed.

Lemma trimEnd_idem (s : string) : Js.trimEnd (Js.trimEnd s) = Js.trimEnd s.
Proof.
  induction s as [|c r IH]; [done|]. simpl.
  destruct (Js.trimEnd r) as [|c' r'] eqn:Hr.
  - destruct (Js.isWhiteSpace c) eqn:Hc; [done|]. simpl. by rewrite Hc.
  - change (Js.trimEnd (String c (String c' r')) = String c (String c' r')).
    cbn [Js.trimEnd]. cbn [Js.trimEnd] in IH. by rewrite IH.
Qed.

(** [trimEnd] keeps a first character that is not a blank. *)
Lemma trimEnd_head (c : ascii) (r : string) :
  Js.isWhiteSpace c = false → ∃ r', Js.trimEnd (String c r) = String c r'.
Proof.
  intros Hc. simpl. destruct (Js.trimEnd r); [|by eexists].
  rewrite Hc. by eexists.
Qed.

Lemma trimStart_shape (s : string) :
  Js.trimStart s = "" ∨ ∃ c r, Js.trimStart s = String c r ∧ Js.isWhiteSpace c = false.
Proof.
  induction s as [|c r IH]; [by left|]. simpl.
  destruct (Js.isWhiteSpace c) eqn:Hc; [done|]. right. by exists c, r.
Qed.

Lemma trim_idem (s : string) : Js.trim (Js.trim s) = Js.trim s.
Proof.
  unfold Js.trim. destruct (trimStart_shape s) as [->|(c & r & -> & Hc)]; [done|].
  destruct (trimEnd_head c r Hc) as (r' & Hr'). rewrite Hr'.
  rewrite (trimStart_head c r' Hc). rewrite <- Hr'. apply trimEnd_idem.
Qed.

(** X19.  A configured status with a leading or trailing blank matches no
    task: the status of a task is trimmed before the comparison, the
    configured entries are only lower-cased.  Dropping every such entry from
    the configuration leaves the status test of every task as it is. *)
Theorem padded_status_entries_are_dead (cfg : Config) (task : ClickUpTask.t) :
  statusMatches (configuredStatuses cfg) task =
  statusMatches (List.filter (λ entry, String.eqb (Js.trim entry) entry)
                             (configuredStatuses cfg)) task.
Proof.
  unfold statusMatches, Js.arrayIncludes.
  set (status := Js.trim (Js.toLowerCase (statusValue (ClickUpTask.status task)))).
  assert (Js.trim status = status) as Htrim by apply trim_idem.
  clearbody status.
  induction (configuredStatuses cfg) as [|entry rest IH]; [done|]. simpl.
  destruct (String.eqb_spec status entry) as [->|Hne]; simpl.
  - rewrite Htrim, String.eqb_refl. simpl. by rewrite String.eqb_refl.
  - rewrite IH. destruct (String.eqb (Js.trim entry) entry); [|done].
    simpl. by destruct (String.eqb_spec status entry).
Qed.

(** ** [time_spent] as a string and as a number *)

Lemma digitOf_pretty_N_char (d : N) :
  (d < 10)%N → Js.digitOf (pretty_N_char d) = Some (Z.of_N d).
Proof.
  intros Hd.
  assert (d = 0 ∨ d = 1 ∨ d = 2 ∨ d = 3 ∨ d = 4 ∨ d = 5 ∨ d = 6 ∨ d = 7 ∨ d = 8 ∨ d = 9)%N
    as Hcases by lia.
  repeat (destruct Hcases as [->|Hcases]; [reflexivity|]). by subst d.
Qed.

Lemma parseDigits_pretty_N_go (x : N) (s : string) :
  (0 < x)%N → Js.parseDigits (pretty_N_go x s) None = Js.parseDigits s (Some (Z.of_N x)).
Proof.
  revert s. induction (N.lt_wf_0 x) as [x _ IH]; intros s Hx.
  rewrite pretty_N_go_step by done.
  assert (x `mod` 10 < 10)%N as Hd by (apply N.mod_lt; lia).
  destruct (decide (x `div` 10 = 0)%N) as [Hq|Hq].
  - pose proof (N.div_mod x 10 ltac:(lia)) as Hdm.
    rewrite Hq, pretty_N_go_0. cbn [Js.parseDigits]. rewrite (digitOf_pretty_N_char _ Hd).
    cbn [default]. rewrite Hq in Hdm.
    by replace (10 * 0 + Z.of_N (x `mod` 10)) with (Z.of_N x) by lia.
  - pose proof (N.div_mod x 10 ltac:(lia)) as Hdm.
    rewrite IH; [|apply N.div_lt; lia|lia]. cbn [Js.parseDigits].
    rewrite (digitOf_pretty_N_char _ Hd). cbn [default]. unfold id.
    by replace (10 * Z.of_N (x `div` 10) + Z.of_N (x `mod` 10)) with (Z.of_N x) by lia.
Qed.

Lemma pretty_N_go_head (x : N) (s : string) :
  (0 < x)%N → ∃ c r d, pretty_N_go x s = String c r ∧ Js.digitOf c = Some d.
Proof.
  revert s. induction (N.lt_wf_0 x) as [x _ IH]; intros s Hx.
  rewrite pretty_N_go_step by done.
  assert (x `mod` 10 < 10)%N as Hd by (apply N.mod_lt; lia).
  destruct (decide (x `div` 10 = 0)%N) as [Hq|Hq].
  - rewrite Hq, pretty_N_go_0. eexists _, _, _. split; [done|].
    by apply digitOf_pretty_N_char.
  - assert (x `div` 10 < x)%N as Hlt by (apply N.div_lt; lia).
    assert (0 < x `div` 10)%N as Hpos by (by apply N.neq_0_lt_0).
    by apply IH.
Qed.

(** A string that starts with a digit is parsed from its first character. *)
Lemma parseInt_digit_head (c : ascii) (r : string) (d : Z) :
  Js.digitOf c = Some d → Js.parseInt (String c r) = Js.parseDigits (String c r) None.
Proof.
  destruct c as [[] [] [] [] [] [] [] []]; intros H; vm_compute in H;
    try discriminate; reflexivity.
Qed.

Lemma parseInt_pretty (n : Z) : Js.parseInt (pretty n) = Some n.
Proof.
  destruct n as [|p|p]; [done| |].
  - change (pretty (Z.pos p)) with (pretty (N.pos p)).
    unfold pretty, pretty_N. rewrite decide_False by done.
    destruct (pretty_N_go_head (N.pos p) "") as (c & r & d & Hs & Hc); [lia|].
    rewrite Hs, (parseInt_digit_head c r d Hc), <- Hs.
    by rewrite parseDigits_pretty_N_go by lia.
  - change (pretty (Z.neg p)) with ("-" +:+ pretty (N.pos p)).
    unfold pretty, pretty_N. rewrite decide_False by done.
    change (Js.parseInt ("-" +:+ pretty_N_go (N.pos p) ""))
      with (Z.opp <$> Js.parseDigits (pretty_N_go (N.pos p) "") None).
    by rewrite parseDigits_pretty_N_go by lia.
Qed.

(** X20.  [time_spent] means the same as a string and as a number: for an
    integer that a number of the program holds exactly (at most 2^53 in
    absolute value), its decimal text, also behind a leading blank, is read
    back as that integer, and the number is taken as it is; an absent
    [time_spent] counts as zero. *)
Theorem time_spent_string_or_number (n : Z) :
  - 9007199254740992 ≤ n ≤ 9007199254740992 →
  parseTimeSpent (Some (JStr (pretty n))) = n ∧
  parseTimeSpent (Some (JStr (" " +:+ pretty n))) = n ∧
  parseTimeSpent (Some (JNum n)) = n ∧
  parseTimeSpent None = 0.
Proof.
  intros _. split; [|split; [|done]].
  - unfold parseTimeSpent. by rewrite parseInt_pretty.
  - unfold parseTimeSpent.
    change (Js.parseInt (" " +:+ pretty n)) with (Js.parseInt (pretty n)).
    by rewrite parseInt_pretty.
Qed.

Lemma time_spent_string_or_number_witness :
  parseTimeSpent (Some (JStr "90000")) = 90000 ∧
  parseTimeSpent (Some (JStr " 90000")) = 90000.
Proof.
  destruct (time_spent_string_or_number 90000) as (H1 & H2 & _); [lia|].
  split; [exact H1 | exact H2].
Defined.

(** ** A full fetch only reads *)

Section Reads.
Context {W : Type}.
Variable http : Remote W.
Variable dateNow : W → Z.
Variable cfg : Config.
Implicit Types st : State W.

Lemma issuesOnly_quiet {A} P (m : M W A) :
  (∀ st o st', m st = (o, st') → requests st' = requests st) → issuesOnly P m.
Proof. intros Hm st o st' H. exists []. by rewrite app_nil_r, (Hm _ _ _ H). Qed.

Lemma issuesOnly_ret {A} P (a : A) : issuesOnly P (ret a : M W A).
Proof. apply issuesOnly_quiet. by intros st o st' [= _ <-]. Qed.

Lemma issuesOnly_throw {A} P e : issuesOnly P (throw e : M W A).
Proof. apply issuesOnly_quiet. by intros st o st' [= _ <-]. Qed.

Lemma issuesOnly_gets {A} P (f : State W → A) : issuesOnly P (gets f).
Proof. apply issuesOnly_quiet. by intros st o st' [= _ <-]. Qed.

Lemma issuesOnly_log P msg : issuesOnly P (log msg : M W unit).
Proof. apply issuesOnly_quiet. by intros st o st' [= _ <-]. Qed.

Lemma issuesOnly_consoleError P msg : issuesOnly P (consoleError msg : M W unit).
Proof. apply issuesOnly_quiet. by intros st o st' [= _ <-]. Qed.

Lemma issuesOnly_request P client r : P r = true → issuesOnly P (request http client r).
Proof.
  intros Hr st o st' H. apply request_inv in H as (res & e' & _ & -> & _).
  exists [r]. split; [done|]. simpl. by rewrite Hr.
Qed.

Lemma issuesOnly_bind {A B} P (m : M W A) (k : A → M W B) :
  issuesOnly P m → (∀ a, issuesOnly P (k a)) → issuesOnly P (bind m k).
Proof.
  intros Hm Hk st o st' H.
  apply bind_inv in H as [(a & st1 & H1 & H2)|[(e & H1 & _)|[H1 _]]].
  - destruct (Hm _ _ _ H1) as (l1 & R1 & P1). destruct (Hk _ _ _ _ H2) as (l2 & R2 & P2).
    exists (l1 ++ l2). split; [by rewrite R2, R1, app_assoc|].
    by rewrite forallb_app, P1, P2.
  - by eapply Hm.
  - by eapply Hm.
Qed.

Lemma issuesOnly_tryCatch {A} P (m : M W A) h :
  issuesOnly P m → (∀ e, issuesOnly P (h e)) → issuesOnly P (tryCatch m h).
Proof.
  intros Hm Hh st o st' H.
  apply tryCatch_inv in H as [(a & H1 & _)|[(e & st1 & H1 & H2)|[H1 _]]].
  - by eapply Hm.
  - destruct (Hm _ _ _ H1) as (l1 & R1 & P1). destruct (Hh _ _ _ _ H2) as (l2 & R2 & P2).
    exists (l1 ++ l2). split; [by rewrite R2, R1, app_assoc|].
    by rewrite forallb_app, P1, P2.
  - by eapply Hm.
Qed.

Lemma issuesOnly_attempt {A} P (m : M W A) : issuesOnly P m → issuesOnly P (attempt m).
Proof.
  intros Hm st o st' H. unfold attempt in H.
  destruct (m st) as [[a|e|] st1] eqn:E; inversion H; subst; by eapply Hm.
Qed.

Lemma issuesOnly_getApiClient P : issuesOnly P (getApiClient (W:=W) cfg).
Proof.
  apply issuesOnly_quiet. intros st o st' H.
  destruct (getApiClient_run cfg st) as (st1 & H1 & _ & R & _).
  rewrite H1 in H. by inversion H; subst.
Qed.

Lemma issuesOnly_getCurrentUserId P client :
  P GetUser = true → issuesOnly P (getCurrentUserId http client).
Proof.
  intros HP. unfold getCurrentUserId. apply issuesOnly_bind; [apply issuesOnly_gets|].
  intros cached. destruct (someNonEmpty cached); [apply issuesOnly_ret|].
  apply issuesOnly_tryCatch; [|intros; apply issuesOnly_throw].
  apply issuesOnly_bind; [by apply issuesOnly_request|]. intros userId.
  apply issuesOnly_bind; [|intros; apply issuesOnly_ret].
  apply issuesOnly_quiet. by intros st o st' [= _ <-].
Qed.

Lemma issuesOnly_getCurrentTimeEntryTaskId P client teamId :
  P (GetCurrentTimeEntry teamId) = true →
  issuesOnly P (getCurrentTimeEntryTaskId http client teamId).
Proof.
  intros HP st o st' H.
  destruct (getCurrentTimeEntryTaskId_run http client teamId st) as (cur & st1 & H1 & R & _).
  rewrite H1 in H. inversion H; subst. exists [GetCurrentTimeEntry teamId].
  split; [done|]. simpl. by rewrite HP.
Qed.

Lemma issuesOnly_fetchPages a fuel client listId :
  ∀ page allTasks,
    issuesOnly (isListingWith a) (fetchPages http fuel client listId a page allTasks).
Proof.
  induction fuel as [|fuel IH]; intros page allTasks; simpl.
  - apply issuesOnly_quiet. by intros st o st' [= _ <-].
  - apply issuesOnly_bind.
    + apply (issuesOnly_request _ client (GetListTasks listId page a)).
      simpl. by rewrite bool_decide_true.
    + intros tasksField. destruct (100 <? page + 1)%nat.
      * apply issuesOnly_bind; [apply issuesOnly_log | intros; apply issuesOnly_ret].
      * destruct (length (default [] tasksField) =? pageSize)%nat;
          [apply IH | apply issuesOnly_ret].
Qed.

Lemma issuesOnly_getTasksFromList fuel client listId space assigneeId :
  issuesOnly (isListingWith (someNonEmpty assigneeId))
    (getTasksFromList http fuel client listId space assigneeId).
Proof.
  unfold getTasksFromList. apply issuesOnly_tryCatch.
  - apply issuesOnly_bind; [apply issuesOnly_fetchPages | intros; apply issuesOnly_ret].
  - intros e. apply issuesOnly_bind; [apply issuesOnly_log | intros; apply issuesOnly_ret].
Qed.

Lemma issuesOnly_walkLists fuel client lists space u :
  ∀ tasks, issuesOnly (isListingWith (someNonEmpty (Some u)))
             (walkLists http fuel client lists space u tasks).
Proof.
  induction lists as [|l rest IH]; intros tasks; simpl; [apply issuesOnly_ret|].
  apply issuesOnly_bind; [apply issuesOnly_getTasksFromList | intros; apply IH].
Qed.

Lemma issuesOnly_walkFolders fuel client folders space u :
  ∀ tasks, issuesOnly (isListingWith (someNonEmpty (Some u)))
             (walkFolders http fuel client folders space u tasks).
Proof.
  induction folders as [|folder rest IH]; intros tasks; simpl; [apply issuesOnly_ret|].
  apply issuesOnly_bind.
  - apply issuesOnly_attempt.
    by apply (issuesOnly_request _ client (GetFolderLists (Ref.id folder))).
  - intros [error|lists]; [apply issuesOnly_ret|].
    apply issuesOnly_bind; [apply issuesOnly_walkLists | intros; apply IH].
Qed.

Lemma issuesOnly_walkSpace fuel client space u tasks :
  issuesOnly (isListingWith (someNonEmpty (Some u)))
    (walkSpace http fuel client space u tasks).
Proof.
  unfold walkSpace. apply issuesOnly_bind.
  - apply issuesOnly_attempt.
    by apply (issuesOnly_request _ client (GetFolders (Ref.id space))).
  - intros [error|folders].
    + apply issuesOnly_bind; [apply issuesOnly_consoleError | intros; apply issuesOnly_ret].
    + apply issuesOnly_bind; [apply issuesOnly_walkFolders|].
      intros [tasks' [error|]].
      * apply issuesOnly_bind; [apply issuesOnly_consoleError | intros; apply issuesOnly_ret].
      * apply issuesOnly_bind.
        -- apply issuesOnly_attempt.
           by apply (issuesOnly_request _ client (GetSpaceLists (Ref.id space))).
        -- intros [error|spaceLists]; [|apply issuesOnly_walkLists].
           apply issuesOnly_bind; [apply issuesOnly_consoleError | intros; apply issuesOnly_ret].
Qed.

Lemma issuesOnly_walkSpaces fuel client spaces u :
  ∀ tasks, issuesOnly (isListingWith (someNonEmpty (Some u)))
             (walkSpaces http fuel client spaces u tasks).
Proof.
  induction spaces as [|space rest IH]; intros tasks; simpl; [apply issuesOnly_ret|].
  apply issuesOnly_bind; [apply issuesOnly_walkSpace | intros; apply IH].
Qed.

Lemma issuesOnly_reconcileTimers P tracked filtered :
  issuesOnly P (reconcileTimers dateNow tracked filtered : M W _).
Proof.
  apply issuesOnly_quiet. intros st o st' H.
  destruct (reconcileTimers_run dateNow tracked filtered st) as (st1 & H1 & _ & _ & R).
  rewrite H1 in H. by inversion H; subst.
Qed.

Lemma readsWithOneFilter_of {A} a (m : M W A) :
  issuesOnly (isListingWith a) m → readsWithOneFilter m.
Proof. intros Hm st o st' H. exists a. by eapply Hm. Qed.

Lemma readsWithOneFilter_bind {A B} (m : M W A) (k : A → M W B) :
  (∀ a, issuesOnly (isListingWith a) m) → (∀ x, readsWithOneFilter (k x)) →
  readsWithOneFilter (bind m k).
Proof.
  intros Hm Hk st o st' H.
  apply bind_inv in H as [(x & st1 & H1 & H2)|[(e & H1 & _)|[H1 _]]].
  - destruct (Hk _ _ _ _ H2) as (a & l2 & R2 & P2).
    destruct (Hm a _ _ _ H1) as (l1 & R1 & P1).
    exists a, (l1 ++ l2). split; [by rewrite R2, R1, app_assoc|].
    by rewrite forallb_app, P1, P2.
  - exists None. by eapply Hm.
  - exists None. by eapply Hm.
Qed.

Lemma readsWithOneFilter_tryCatch {A} (m : M W A) h :
  readsWithOneFilter m → (∀ e a, issuesOnly (isListingWith a) (h e)) →
  readsWithOneFilter (tryCatch m h).
Proof.
  intros Hm Hh st o st' H.
  apply tryCatch_inv in H as [(x & H1 & _)|[(e & st1 & H1 & H2)|[H1 _]]].
  - by eapply Hm.
  - destruct (Hm _ _ _ H1) as (a & l1 & R1 & P1).
    destruct (Hh e a _ _ _ H2) as (l2 & R2 & P2).
    exists a, (l1 ++ l2). split; [by rewrite R2, R1, app_assoc|].
    by rewrite forallb_app, P1, P2.
  - by eapply Hm.
Qed.

Lemma readsWithOneFilter_getInProgressTasks fuel :
  readsWithOneFilter (getInProgressTasks http dateNow cfg fuel).
Proof.
  unfold getInProgressTasks.
  apply readsWithOneFilter_bind; [intros; apply issuesOnly_getApiClient|].
  intros [client|]; [|apply (readsWithOneFilter_of None), issuesOnly_throw].
  apply readsWithOneFilter_tryCatch.
  2:{ intros e a. apply issuesOnly_quiet. intros st o st' H.
      rewrite fetch_handler_run in H. by inversion H. }
  apply readsWithOneFilter_bind; [intros; by apply issuesOnly_request|].
  intros [[|team0 teams]|];
    [apply (readsWithOneFilter_of None), issuesOnly_throw|
    |apply (readsWithOneFilter_of None), issuesOnly_throw].
  apply readsWithOneFilter_bind; [intros; by apply issuesOnly_getCurrentUserId|].
  intros u. apply (readsWithOneFilter_of (someNonEmpty (Some u))).
  apply issuesOnly_bind; [apply issuesOnly_log|]. intros _.
  apply issuesOnly_bind; [by apply issuesOnly_getCurrentTimeEntryTaskId|]. intros remote.
  apply issuesOnly_bind.
  { destruct (someNonEmpty remote); [apply issuesOnly_log | apply issuesOnly_ret]. }
  intros _. apply issuesOnly_bind; [apply issuesOnly_log|]. intros _.
  apply issuesOnly_bind; [by apply issuesOnly_request|]. intros spaces.
  apply issuesOnly_bind; [apply issuesOnly_walkSpaces|]. intros tasks.
  apply issuesOnly_reconcileTimers.
Qed.

End Reads.

(** X21.  A full fetch only reads: whatever its outcome, it has sent no
    request that starts or stops a timer, and all its task listings carry
    one and the same assignee filter. *)
Theorem fetch_only_reads {W : Type} (http : Remote W) (dateNow : W → Z) (cfg : Config)
    (fuel : nat) (st st' : State W) (o : Outcome (list ClickUpTask.t)) :
  getInProgressTasks http dateNow cfg fuel st = (o, st') →
  ∃ assignee l,
    requests st' = requests st ++ l ∧
    forallb (isListingWith assignee) l = true.
Proof. apply readsWithOneFilter_getInProgressTasks. Qed.

Lemma fetch_only_reads_witness :
  ∃ assignee l,
    requests (snd (getInProgressTasks (Fixture.http Fixture.shared) Fixture.clock
                     Fixture.cfg 101 (Fixture.start Fixture.world0)))
      = requests (Fixture.start Fixture.world0) ++ l ∧
    forallb (isListingWith assignee) l = true.
Proof.
  apply (fetch_only_reads (Fixture.http Fixture.shared) Fixture.clock Fixture.cfg 101
           (Fixture.start Fixture.world0) _
           (fst (getInProgressTasks (Fixture.http Fixture.shared) Fixture.clock
                   Fixture.cfg 101 (Fixture.start Fixture.world0)))).
  by destruct (getInProgressTasks _ _ _ _ _).
Defined.

(** ** The tracking flags after a fetch *)

Section Flags.
Context {W : Type}.
Variable http : Remote W.
Variable dateNow : W → Z.
Variable cfg : Config.
Implicit Types st : State W.

Lemma post_throw {A} (Q : A → State W → Prop) e : post Q (throw e).
Proof. by intros st a st' H. Qed.

Lemma post_ret {A} (Q : A → State W → Prop) (a : A) : (∀ st, Q a st) → post Q (ret a).
Proof. intros HQ st b st' [= <- <-]. apply HQ. Qed.

Lemma post_bind {A B} (P : A → Prop) (Q : B → State W → Prop) (m : M W A)
    (k : A → M W B) :
  post (λ a _, P a) m → (∀ a, P a → post Q (k a)) → post Q (bind m k).
Proof.
  intros Hm Hk st b st' H. apply bind_Return_inv in H as (a & st1 & H1 & H2).
  exact (Hk a (Hm _ _ _ H1) _ _ _ H2).
Qed.

Lemma post_any {A} (m : M W A) : post (λ _ _, True) m.
Proof. by intros st a st' H. Qed.

Lemma post_tryCatch {A} (Q : A → State W → Prop) (m : M W A) h :
  post Q m → (∀ e, post Q (h e)) → post Q (tryCatch m h).
Proof.
  intros Hm Hh st a st' H.
  apply tryCatch_inv in H as [(a' & H1 & [= <-])|[(e & st1 & _ & H2)|[_ H]]]; [| |done].
  - exact (Hm _ _ _ H1).
  - exact (Hh _ _ _ _ H2).
Qed.

Lemma processSubtasks_unflagged space l seen out :
  unflagged out → unflagged (snd (processSubtasks space l (seen, out))).
Proof.
  revert seen out. induction l as [|f rest IH]; intros seen out Hout; [done|].
  simpl. destruct (decide (ApiTask.id f ∈ seen)); apply IH; [done|].
  apply Forall_app. split; [done|]. by constructor.
Qed.

Lemma unflagged_getTasksFromList fuel client listId space assigneeId :
  post (λ r _, unflagged r) (getTasksFromList http fuel client listId space assigneeId).
Proof.
  unfold getTasksFromList. apply post_tryCatch.
  - apply (post_bind (λ _, True)); [apply post_any|]. intros allTasks _.
    apply post_ret. intros _. rewrite processTasks_flat.
    apply processSubtasks_unflagged. constructor.
  - intros e. apply (post_bind (λ _, True)); [apply post_any|]. intros _ _.
    apply post_ret. intros _. constructor.
Qed.

Lemma unflagged_walkLists fuel client lists space u :
  ∀ tasks, unflagged tasks →
           post (λ r _, unflagged r) (walkLists http fuel client lists space u tasks).
Proof.
  induction lists as [|l rest IH]; intros tasks Htasks; simpl; [by apply post_ret|].
  apply (post_bind unflagged); [apply unflagged_getTasksFromList|].
  intros listTasks Hlist. apply IH. by apply Forall_app.
Qed.

Lemma unflagged_walkFolders fuel client folders space u :
  ∀ tasks, unflagged tasks →
           post (λ r _, unflagged r.1) (walkFolders http fuel client folders space u tasks).
Proof.
  induction folders as [|folder rest IH]; intros tasks Htasks; simpl; [by apply post_ret|].
  apply (post_bind (λ _, True)); [apply post_any|]. intros [error|lists] _.
  - by apply post_ret.
  - apply (post_bind unflagged); [by apply unflagged_walkLists|].
    intros tasks' Htasks'. by apply IH.
Qed.

Lemma unflagged_walkSpace fuel client space u tasks :
  unflagged tasks → post (λ r _, unflagged r) (walkSpace http fuel client space u tasks).
Proof.
  intros Htasks. unfold walkSpace.
  apply (post_bind (λ _, True)); [apply post_any|]. intros [error|folders] _.
  - apply (post_bind (λ _, True)); [apply post_any|]. intros _ _. by apply post_ret.
  - apply (post_bind (λ r, unflagged r.1)); [by apply unflagged_walkFolders|].
    intros [tasks' [error|]] Htasks'; simpl in Htasks'.
    + apply (post_bind (λ _, True)); [apply post_any|]. intros _ _. by apply post_ret.
    + apply (post_bind (λ _, True)); [apply post_any|]. intros [error|spaceLists] _.
      * apply (post_bind (λ _, True)); [apply post_any|]. intros _ _. by apply post_ret.
      * by apply unflagged_walkLists.
Qed.

Lemma unflagged_walkSpaces fuel client spaces u :
  ∀ tasks, unflagged tasks →
           post (λ r _, unflagged r) (walkSpaces http fuel client spaces u tasks).
Proof.
  induction spaces as [|space rest IH]; intros tasks Htasks; simpl; [by apply post_ret|].
  apply (post_bind unflagged); [by apply unflagged_walkSpace|].
  intros tasks' Htasks'. by apply IH.
Qed.

(** After the reconciliation of unflagged tasks, a task is flagged as
    tracked exactly when the registry has an entry for it. *)
Lemma reconcile_flags_agree cur filtered :
  unflagged filtered →
  post (λ tasks st', ∀ t, t ∈ tasks →
          (ClickUpTask.isCurrentlyTracked t = Some true ↔
           is_Some (internalTimerStartTimes st' !! ClickUpTask.id t)))
       (reconcileTimers dateNow cur filtered).
Proof.
  intros Hun st tasks st' H.
  destruct (reconcileTimers_exact dateNow cur filtered st) as (st1 & H1 & _ & Hreg).
  rewrite H1 in H. inversion H; subst tasks st1. clear H H1.
  intros t Ht. rewrite Hreg. unfold flagged in Ht.
  destruct (someNonEmpty cur) as [tracked|].
  - apply list_elem_of_fmap in Ht as (t0 & -> & Ht0). simpl.
    assert (existsb (λ task, String.eqb (ClickUpTask.id task) tracked) filtered = true ↔
            ∃ x, x ∈ filtered ∧ ClickUpTask.id x = tracked) as Hex.
    { rewrite existsb_exists. split; intros (x & Hx & Hid); exists x.
      - split; [by apply list_elem_of_In | by apply String.eqb_eq].
      - split; [by apply list_elem_of_In | by apply String.eqb_eq]. }
    destruct (String.eqb_spec (ClickUpTask.id t0) tracked) as [Heq|Hne].
    + split; [intros _|done]. rewrite Heq.
      destruct (internalTimerStartTimes st !! tracked);
        [by rewrite lookup_singleton_eq|].
      replace (existsb _ filtered) with true by (symmetry; apply Hex; eauto).
      by rewrite lookup_singleton_eq.
    + split; [done|]. intros [v Hv]. exfalso.
      destruct (internalTimerStartTimes st !! tracked).
      * by rewrite lookup_singleton_ne in Hv.
      * destruct (existsb _ filtered); [by rewrite lookup_singleton_ne in Hv|].
        by rewrite lookup_empty in Hv.
  - unfold unflagged in Hun. rewrite Forall_forall in Hun.
    rewrite (Hun t Ht), lookup_empty. split; [done|]. by intros [? ?].
Qed.

Lemma flags_agree_getInProgressTasks fuel :
  post (λ tasks st', ∀ t, t ∈ tasks →
          (ClickUpTask.isCurrentlyTracked t = Some true ↔
           is_Some (internalTimerStartTimes st' !! ClickUpTask.id t)))
       (getInProgressTasks http dateNow cfg fuel).
Proof.
  unfold getInProgressTasks.
  apply (post_bind (λ _, True)); [apply post_any|]. intros [client|] _; [|apply post_throw].
  apply post_tryCatch.
  2:{ intros e st a st' H. rewrite fetch_handler_run in H. discriminate. }
  apply (post_bind (λ _, True)); [apply post_any|].
  intros [[|team0 teams]|] _; [apply post_throw| |apply post_throw].
  apply (post_bind (λ _, True)); [apply post_any|]. intros u _.
  apply (post_bind (λ _, True)); [apply post_any|]. intros _ _.
  apply (post_bind (λ _, True)); [apply post_any|]. intros remote _.
  apply (post_bind (λ _, True)); [apply post_any|]. intros _ _.
  apply (post_bind (λ _, True)); [apply post_any|]. intros _ _.
  apply (post_bind (λ _, True)); [apply post_any|]. intros spaces _.
  apply (post_bind unflagged); [apply unflagged_walkSpaces; constructor|].
  intros tasks Htasks. apply reconcile_flags_agree.
  unfold unflagged in *. rewrite Forall_forall in *.
  intros t Ht. apply Htasks. apply list_elem_of_In. apply list_elem_of_In in Ht.
  by apply filter_In in Ht as [Ht _].
Qed.

End Flags.

(** X22.  After a full fetch that returned, the tracking flags agree with
    the registry: a returned task is flagged as currently tracked exactly
    when the registry holds a start instant for its identifier, so the tree
    shows a running clock for the rows marked as recording and for no
    other. *)
Theorem fetched_flags_agree_with_registry {W : Type} (http : Remote W) (dateNow : W → Z)
    (cfg : Config) (fuel : nat) (st st' : State W) (tasks : list ClickUpTask.t) :
  getInProgressTasks http dateNow cfg fuel st = (Return tasks, st') →
  ∀ t, t ∈ tasks →
       (ClickUpTask.isCurrentlyTracked t = Some true ↔
        is_Some (internalTimerStartTimes st' !! ClickUpTask.id t)).
Proof. apply flags_agree_getInProgressTasks. Qed.

Lemma fetched_flags_agree_with_registry_witness :
  ∃ tasks st',
    getInProgressTasks (Fixture.http Fixture.shared) Fixture.clock Fixture.cfg 101
      Fixture.trackingT1 = (Return tasks, st') ∧
    map ClickUpTask.isCurrentlyTracked tasks = [Some true; Some true] ∧
    Forall (λ t, ClickUpTask.isCurrentlyTracked t = Some true ↔
                 is_Some (internalTimerStartTimes st' !! ClickUpTask.id t)) tasks.
Proof.
  destruct (getInProgressTasks (Fixture.http Fixture.shared) Fixture.clock Fixture.cfg 101
              Fixture.trackingT1) as [o st'] eqn:Hrun.
  assert (∃ tasks, o = Return tasks ∧
            map ClickUpTask.isCurrentlyTracked tasks = [Some true; Some true])
    as (tasks & -> & Hflags).
  { revert Hrun. vm_compute. intros [= <- _]. eexists. split; reflexivity. }
  exists tasks, st'. split; [done|]. split; [done|].
  apply Forall_forall. exact (fetched_flags_agree_with_registry _ _ _ _ _ _ _ Hrun).
Defined.
